(** * CSpec: the test engine, the context stack and the memory sandbox

    A shallow embedding of [cspec.c] (with [cspec.h]) and the properties of
    its test runner that the specification states.

    Conventions of the embedding
    - The process-wide [static] variables of [cspec.c] are the fields of one
      record, [state]; every C function becomes a function on [state] that
      returns the new state (paired with the C return value when there is one).
    - The build modelled is the one with [_CSPEC_USE_MEMORY_TESTING_] defined
      ([malloc] and friends redirected to [cspec_malloc] ...), with the
      header's defaults [memory_size_max = 4096] and
      [cspec_ctx_stack_size_max = 20].
    - [assert] expands to nothing in [cspec.c]: the header defines
      [assert(C)] as empty when no [assert] macro is present, and [cspec.c]
      includes nothing that provides one.  Assertions are therefore recorded
      as comments next to the statement they guard, not as checks.
    - Pointers into the arena are offsets relative to [memory], the start of
      the usable region ([memory = _memory + memory_size_barrier]).  The
      barrier prefix is at offsets [-16 .. -1], the barrier suffix at
      [4096 .. 4111].
    - Bytes are integers in [0, 256).  [size_t] arithmetic that can wrap is
      written with [wrap] (64 bits); [int] counters are unbounded integers
      (signed overflow is undefined in C and far out of reach here).
    - The output sink is not modelled, and neither are the variables that
      only the printer reads and writes (the field [printed] of a context
      frame is one of them: [print_headers] sets it, nothing else reads it).
      [error_log] is a trace of the errors raised and the warnings given: one
      entry for each call of [_cspec_error_fn], [_cspec_error_mem] or
      [_cspec_warn_fn] that changed the state.  It is not the output: the
      code prints the message of an error only when the matching expectation
      flag ([test_expect_fail], [memory_expect_error]) is unset at the call.
    - [out_of_bounds] records that some store went outside the [_memory]
      array, which is undefined behaviour in C.
    - [memory_records_written] records which slots of the record table
      [cspec_malloc] has written since the host allocated the table; the
      other slots hold indeterminate values in C.  [indeterminate_read]
      records that the code has read such a slot ([read_slot]): it then
      works with an indeterminate [record->block], which is undefined
      behaviour in C and in practice a crash. *)

From Stdlib Require Import ZArith List Bool Lia String.
Import ListNotations.
Open Scope Z_scope.

(** ** Constants *)

Definition memory_size_fence : Z := 7.
Definition memory_size_barrier : Z := 16.
Definition memory_size_max : Z := 4096.
Definition memory_size_full : Z := memory_size_max + memory_size_barrier * 2.
Definition cspec_ctx_stack_size_max : Z := 20.

(** The bytes the sandbox writes: ['b'], ['e'], ['N'], ['F'], ['X'], [0xFF]. *)
Definition byte_b : Z := 98.
Definition byte_e : Z := 101.
Definition byte_N : Z := 78.
Definition byte_F : Z := 70.
Definition byte_X : Z := 88.
Definition byte_FF : Z := 255.

Definition wrap (z : Z) : Z := z mod 2 ^ 64.

(** ** Data *)

Inductive pointer : Type :=
| NULL
| Ptr (off : Z).

Definition pointer_eqb (p q : pointer) : bool :=
  match p, q with
  | NULL, NULL => true
  | Ptr a, Ptr b => a =? b
  | _, _ => false
  end.

Inductive MallocFailLevel : Type :=
| M_NORMAL
| M_WAS_EXPECTED
| M_FAIL_ONCE
| M_FAIL_ALWAYS.

Definition fail_level (l : MallocFailLevel) : Z :=
  match l with
  | M_NORMAL => 0
  | M_WAS_EXPECTED => 1
  | M_FAIL_ONCE => 2
  | M_FAIL_ALWAYS => 3
  end.

Record MemoryRecord : Type := mkRecord {
  size : Z;
  block : Z;
  is_free : bool
}.

(** The C struct has a third field, [printed], between the two: it belongs
    to the printer ([print_headers] sets it on the frames whose description
    it has written, and is the only reader). *)
Record Context : Type := mkContext {
  desc : Z;
  requested_context : bool
}.

(** Address of the literal ["<root context>"]; the descriptions handed to
    [_cspec_context_begin] are addresses of other string literals. *)
Definition root_desc : Z := 1.

Inductive event : Type :=
| MemError (message : string)
| TestError (message : string)
| Warning (line : Z) (message : string).

(** ** The global state *)

Record state : Type := mkState {
  test_failed : bool;
  test_warned : bool;
  test_in_function : bool;
  test_in_progress : bool;
  test_expect_fail : bool;
  test_skip : bool;
  test_current_line : Z;
  test_count : Z;
  test_passed_count : Z;
  test_warnings_count : Z;
  param_line : Z;
  param_no_expect_fail : bool;
  param_memory_test : bool;
  memory : Z -> Z;
  memory_ptr : Z;
  memory_records_null : bool;
  memory_records : Z -> MemoryRecord;
  memory_records_capacity : Z;
  memory_records_size : Z;
  memory_records_written : Z -> bool;
  memory_count_mallocs : Z;
  memory_count_frees : Z;
  memory_expect_error : bool;
  memory_error : bool;
  memory_malloc_fail : MallocFailLevel;
  memory_malloc_forced_failures : Z;
  ctx_stack : Z -> Context;
  ctx_stack_index : Z;
  ctx_stack_top : Z;
  error_log : list event;
  out_of_bounds : bool;
  indeterminate_read : bool;
  host_result : pointer
}.

(** One setter per variable the code assigns. *)

Definition set_test_failed (v : bool) (s : state) : state :=
  mkState v (test_warned s) (test_in_function s) (test_in_progress s)
    (test_expect_fail s) (test_skip s) (test_current_line s) (test_count s)
    (test_passed_count s) (test_warnings_count s) (param_line s)
    (param_no_expect_fail s) (param_memory_test s) (memory s) (memory_ptr s)
    (memory_records_null s) (memory_records s) (memory_records_capacity s)
    (memory_records_size s) (memory_records_written s)
    (memory_count_mallocs s) (memory_count_frees s) (memory_expect_error s)
    (memory_error s) (memory_malloc_fail s) (memory_malloc_forced_failures s)
    (ctx_stack s) (ctx_stack_index s) (ctx_stack_top s) (error_log s)
    (out_of_bounds s) (indeterminate_read s) (host_result s).

Definition set_test_warned (v : bool) (s : state) : state :=
  mkState (test_failed s) v (test_in_function s) (test_in_progress s)
    (test_expect_fail s) (test_skip s) (test_current_line s) (test_count s)
    (test_passed_count s) (test_warnings_count s) (param_line s)
    (param_no_expect_fail s) (param_memory_test s) (memory s) (memory_ptr s)
    (memory_records_null s) (memory_records s) (memory_records_capacity s)
    (memory_records_size s) (memory_records_written s)
    (memory_count_mallocs s) (memory_count_frees s) (memory_expect_error s)
    (memory_error s) (memory_malloc_fail s) (memory_malloc_forced_failures s)
    (ctx_stack s) (ctx_stack_index s) (ctx_stack_top s) (error_log s)
    (out_of_bounds s) (indeterminate_read s) (host_result s).

Definition set_test_in_function (v : bool) (s : state) : state :=
  mkState (test_failed s) (test_warned s) v (test_in_progress s)
    (test_expect_fail s) (test_skip s) (test_current_line s) (test_count s)
    (test_passed_count s) (test_warnings_count s) (param_line s)
    (param_no_expect_fail s) (param_memory_test s) (memory s) (memory_ptr s)
    (memory_records_null s) (memory_records s) (memory_records_capacity s)
    (memory_records_size s) (memory_records_written s)
    (memory_count_mallocs s) (memory_count_frees s) (memory_expect_error s)
    (memory_error s) (memory_malloc_fail s) (memory_malloc_forced_failures s)
    (ctx_stack s) (ctx_stack_index s) (ctx_stack_top s) (error_log s)
    (out_of_bounds s) (indeterminate_read s) (host_result s).

Definition set_test_in_progress (v : bool) (s : state) : state :=
  mkState (test_failed s) (test_warned s) (test_in_function s) v
    (test_expect_fail s) (test_skip s) (test_current_line s) (test_count s)
    (test_passed_count s) (test_warnings_count s) (param_line s)
    (param_no_expect_fail s) (param_memory_test s) (memory s) (memory_ptr s)
    (memory_records_null s) (memory_records s) (memory_records_capacity s)
    (memory_records_size s) (memory_records_written s)
    (memory_count_mallocs s) (memory_count_frees s) (memory_expect_error s)
    (memory_error s) (memory_malloc_fail s) (memory_malloc_forced_failures s)
    (ctx_stack s) (ctx_stack_index s) (ctx_stack_top s) (error_log s)
    (out_of_bounds s) (indeterminate_read s) (host_result s).

Definition set_test_expect_fail (v : bool) (s : state) : state :=
  mkState (test_failed s) (test_warned s) (test_in_function s)
    (test_in_progress s) v (test_skip s) (test_current_line s) (test_count s)
    (test_passed_count s) (test_warnings_count s) (param_line s)
    (param_no_expect_fail s) (param_memory_test s) (memory s) (memory_ptr s)
    (memory_records_null s) (memory_records s) (memory_records_capacity s)
    (memory_records_size s) (memory_records_written s)
    (memory_count_mallocs s) (memory_count_frees s) (memory_expect_error s)
    (memory_error s) (memory_malloc_fail s) (memory_malloc_forced_failures s)
    (ctx_stack s) (ctx_stack_index s) (ctx_stack_top s) (error_log s)
    (out_of_bounds s) (indeterminate_read s) (host_result s).

Definition set_test_skip (v : bool) (s : state) : state :=
  mkState (test_failed s) (test_warned s) (test_in_function s)
    (test_in_progress s) (test_expect_fail s) v (test_current_line s)
    (test_count s) (test_passed_count s) (test_warnings_count s)
    (param_line s) (param_no_expect_fail s) (param_memory_test s) (memory s)
    (memory_ptr s) (memory_records_null s) (memory_records s)
    (memory_records_capacity s) (memory_records_size s)
    (memory_records_written s) (memory_count_mallocs s) (memory_count_frees s)
    (memory_expect_error s) (memory_error s) (memory_malloc_fail s)
    (memory_malloc_forced_failures s) (ctx_stack s) (ctx_stack_index s)
    (ctx_stack_top s) (error_log s) (out_of_bounds s) (indeterminate_read s)
    (host_result s).

Definition set_test_current_line (v : Z) (s : state) : state :=
  mkState (test_failed s) (test_warned s) (test_in_function s)
    (test_in_progress s) (test_expect_fail s) (test_skip s) v (test_count s)
    (test_passed_count s) (test_warnings_count s) (param_line s)
    (param_no_expect_fail s) (param_memory_test s) (memory s) (memory_ptr s)
    (memory_records_null s) (memory_records s) (memory_records_capacity s)
    (memory_records_size s) (memory_records_written s)
    (memory_count_mallocs s) (memory_count_frees s) (memory_expect_error s)
    (memory_error s) (memory_malloc_fail s) (memory_malloc_forced_failures s)
    (ctx_stack s) (ctx_stack_index s) (ctx_stack_top s) (error_log s)
    (out_of_bounds s) (indeterminate_read s) (host_result s).

Definition set_test_count (v : Z) (s : state) : state :=
  mkState (test_failed s) (test_warned s) (test_in_function s)
    (test_in_progress s) (test_expect_fail s) (test_skip s)
    (test_current_line s) v (test_passed_count s) (test_warnings_count s)
    (param_line s) (param_no_expect_fail s) (param_memory_test s) (memory s)
    (memory_ptr s) (memory_records_null s) (memory_records s)
    (memory_records_capacity s) (memory_records_size s)
    (memory_records_written s) (memory_count_mallocs s) (memory_count_frees s)
    (memory_expect_error s) (memory_error s) (memory_malloc_fail s)
    (memory_malloc_forced_failures s) (ctx_stack s) (ctx_stack_index s)
    (ctx_stack_top s) (error_log s) (out_of_bounds s) (indeterminate_read s)
    (host_result s).

Definition set_test_passed_count (v : Z) (s : state) : state :=
  mkState (test_failed s) (test_warned s) (test_in_function s)
    (test_in_progress s) (test_expect_fail s) (test_skip s)
    (test_current_line s) (test_count s) v (test_warnings_count s)
    (param_line s) (param_no_expect_fail s) (param_memory_test s) (memory s)
    (memory_ptr s) (memory_records_null s) (memory_records s)
    (memory_records_capacity s) (memory_records_size s)
    (memory_records_written s) (memory_count_mallocs s) (memory_count_frees s)
    (memory_expect_error s) (memory_error s) (memory_malloc_fail s)
    (memory_malloc_forced_failures s) (ctx_stack s) (ctx_stack_index s)
    (ctx_stack_top s) (error_log s) (out_of_bounds s) (indeterminate_read s)
    (host_result s).

Definition set_test_warnings_count (v : Z) (s : state) : state :=
  mkState (test_failed s) (test_warned s) (test_in_function s)
    (test_in_progress s) (test_expect_fail s) (test_skip s)
    (test_current_line s) (test_count s) (test_passed_count s) v
    (param_line s) (param_no_expect_fail s) (param_memory_test s) (memory s)
    (memory_ptr s) (memory_records_null s) (memory_records s)
    (memory_records_capacity s) (memory_records_size s)
    (memory_records_written s) (memory_count_mallocs s) (memory_count_frees s)
    (memory_expect_error s) (memory_error s) (memory_malloc_fail s)
    (memory_malloc_forced_failures s) (ctx_stack s) (ctx_stack_index s)
    (ctx_stack_top s) (error_log s) (out_of_bounds s) (indeterminate_read s)
    (host_result s).

Definition set_param_line (v : Z) (s : state) : state :=
  mkState (test_failed s) (test_warned s) (test_in_function s)
    (test_in_progress s) (test_expect_fail s) (test_skip s)
    (test_current_line s) (test_count s) (test_passed_count s)
    (test_warnings_count s) v (param_no_expect_fail s) (param_memory_test s)
    (memory s) (memory_ptr s) (memory_records_null s) (memory_records s)
    (memory_records_capacity s) (memory_records_size s)
    (memory_records_written s) (memory_count_mallocs s) (memory_count_frees s)
    (memory_expect_error s) (memory_error s) (memory_malloc_fail s)
    (memory_malloc_forced_failures s) (ctx_stack s) (ctx_stack_index s)
    (ctx_stack_top s) (error_log s) (out_of_bounds s) (indeterminate_read s)
    (host_result s).

Definition set_param_no_expect_fail (v : bool) (s : state) : state :=
  mkState (test_failed s) (test_warned s) (test_in_function s)
    (test_in_progress s) (test_expect_fail s) (test_skip s)
    (test_current_line s) (test_count s) (test_passed_count s)
    (test_warnings_count s) (param_line s) v (param_memory_test s) (memory s)
    (memory_ptr s) (memory_records_null s) (memory_records s)
    (memory_records_capacity s) (memory_records_size s)
    (memory_records_written s) (memory_count_mallocs s) (memory_count_frees s)
    (memory_expect_error s) (memory_error s) (memory_malloc_fail s)
    (memory_malloc_forced_failures s) (ctx_stack s) (ctx_stack_index s)
    (ctx_stack_top s) (error_log s) (out_of_bounds s) (indeterminate_read s)
    (host_result s).

Definition set_param_memory_test (v : bool) (s : state) : state :=
  mkState (test_failed s) (test_warned s) (test_in_function s)
    (test_in_progress s) (test_expect_fail s) (test_skip s)
    (test_current_line s) (test_count s) (test_passed_count s)
    (test_warnings_count s) (param_line s) (param_no_expect_fail s) v
    (memory s) (memory_ptr s) (memory_records_null s) (memory_records s)
    (memory_records_capacity s) (memory_records_size s)
    (memory_records_written s) (memory_count_mallocs s) (memory_count_frees s)
    (memory_expect_error s) (memory_error s) (memory_malloc_fail s)
    (memory_malloc_forced_failures s) (ctx_stack s) (ctx_stack_index s)
    (ctx_stack_top s) (error_log s) (out_of_bounds s) (indeterminate_read s)
    (host_result s).

Definition set_memory (v : Z -> Z) (s : state) : state :=
  mkState (test_failed s) (test_warned s) (test_in_function s)
    (test_in_progress s) (test_expect_fail s) (test_skip s)
    (test_current_line s) (test_count s) (test_passed_count s)
    (test_warnings_count s) (param_line s) (param_no_expect_fail s)
    (param_memory_test s) v (memory_ptr s) (memory_records_null s)
    (memory_records s) (memory_records_capacity s) (memory_records_size s)
    (memory_records_written s) (memory_count_mallocs s) (memory_count_frees s)
    (memory_expect_error s) (memory_error s) (memory_malloc_fail s)
    (memory_malloc_forced_failures s) (ctx_stack s) (ctx_stack_index s)
    (ctx_stack_top s) (error_log s) (out_of_bounds s) (indeterminate_read s)
    (host_result s).

Definition set_memory_ptr (v : Z) (s : state) : state :=
  mkState (test_failed s) (test_warned s) (test_in_function s)
    (test_in_progress s) (test_expect_fail s) (test_skip s)
    (test_current_line s) (test_count s) (test_passed_count s)
    (test_warnings_count s) (param_line s) (param_no_expect_fail s)
    (param_memory_test s) (memory s) v (memory_records_null s)
    (memory_records s) (memory_records_capacity s) (memory_records_size s)
    (memory_records_written s) (memory_count_mallocs s) (memory_count_frees s)
    (memory_expect_error s) (memory_error s) (memory_malloc_fail s)
    (memory_malloc_forced_failures s) (ctx_stack s) (ctx_stack_index s)
    (ctx_stack_top s) (error_log s) (out_of_bounds s) (indeterminate_read s)
    (host_result s).

Definition set_memory_records_null (v : bool) (s : state) : state :=
  mkState (test_failed s) (test_warned s) (test_in_function s)
    (test_in_progress s) (test_expect_fail s) (test_skip s)
    (test_current_line s) (test_count s) (test_passed_count s)
    (test_warnings_count s) (param_line s) (param_no_expect_fail s)
    (param_memory_test s) (memory s) (memory_ptr s) v (memory_records s)
    (memory_records_capacity s) (memory_records_size s)
    (memory_records_written s) (memory_count_mallocs s) (memory_count_frees s)
    (memory_expect_error s) (memory_error s) (memory_malloc_fail s)
    (memory_malloc_forced_failures s) (ctx_stack s) (ctx_stack_index s)
    (ctx_stack_top s) (error_log s) (out_of_bounds s) (indeterminate_read s)
    (host_result s).

Definition set_memory_records (v : Z -> MemoryRecord) (s : state) : state :=
  mkState (test_failed s) (test_warned s) (test_in_function s)
    (test_in_progress s) (test_expect_fail s) (test_skip s)
    (test_current_line s) (test_count s) (test_passed_count s)
    (test_warnings_count s) (param_line s) (param_no_expect_fail s)
    (param_memory_test s) (memory s) (memory_ptr s) (memory_records_null s) v
    (memory_records_capacity s) (memory_records_size s)
    (memory_records_written s) (memory_count_mallocs s) (memory_count_frees s)
    (memory_expect_error s) (memory_error s) (memory_malloc_fail s)
    (memory_malloc_forced_failures s) (ctx_stack s) (ctx_stack_index s)
    (ctx_stack_top s) (error_log s) (out_of_bounds s) (indeterminate_read s)
    (host_result s).

Definition set_memory_records_capacity (v : Z) (s : state) : state :=
  mkState (test_failed s) (test_warned s) (test_in_function s)
    (test_in_progress s) (test_expect_fail s) (test_skip s)
    (test_current_line s) (test_count s) (test_passed_count s)
    (test_warnings_count s) (param_line s) (param_no_expect_fail s)
    (param_memory_test s) (memory s) (memory_ptr s) (memory_records_null s)
    (memory_records s) v (memory_records_size s) (memory_records_written s)
    (memory_count_mallocs s) (memory_count_frees s) (memory_expect_error s)
    (memory_error s) (memory_malloc_fail s) (memory_malloc_forced_failures s)
    (ctx_stack s) (ctx_stack_index s) (ctx_stack_top s) (error_log s)
    (out_of_bounds s) (indeterminate_read s) (host_result s).

Definition set_memory_records_size (v : Z) (s : state) : state :=
  mkState (test_failed s) (test_warned s) (test_in_function s)
    (test_in_progress s) (test_expect_fail s) (test_skip s)
    (test_current_line s) (test_count s) (test_passed_count s)
    (test_warnings_count s) (param_line s) (param_no_expect_fail s)
    (param_memory_test s) (memory s) (memory_ptr s) (memory_records_null s)
    (memory_records s) (memory_records_capacity s) v
    (memory_records_written s) (memory_count_mallocs s) (memory_count_frees s)
    (memory_expect_error s) (memory_error s) (memory_malloc_fail s)
    (memory_malloc_forced_failures s) (ctx_stack s) (ctx_stack_index s)
    (ctx_stack_top s) (error_log s) (out_of_bounds s) (indeterminate_read s)
    (host_result s).

Definition set_memory_records_written (v : Z -> bool) (s : state) : state :=
  mkState (test_failed s) (test_warned s) (test_in_function s)
    (test_in_progress s) (test_expect_fail s) (test_skip s)
    (test_current_line s) (test_count s) (test_passed_count s)
    (test_warnings_count s) (param_line s) (param_no_expect_fail s)
    (param_memory_test s) (memory s) (memory_ptr s) (memory_records_null s)
    (memory_records s) (memory_records_capacity s) (memory_records_size s) v
    (memory_count_mallocs s) (memory_count_frees s) (memory_expect_error s)
    (memory_error s) (memory_malloc_fail s) (memory_malloc_forced_failures s)
    (ctx_stack s) (ctx_stack_index s) (ctx_stack_top s) (error_log s)
    (out_of_bounds s) (indeterminate_read s) (host_result s).

Definition set_memory_count_mallocs (v : Z) (s : state) : state :=
  mkState (test_failed s) (test_warned s) (test_in_function s)
    (test_in_progress s) (test_expect_fail s) (test_skip s)
    (test_current_line s) (test_count s) (test_passed_count s)
    (test_warnings_count s) (param_line s) (param_no_expect_fail s)
    (param_memory_test s) (memory s) (memory_ptr s) (memory_records_null s)
    (memory_records s) (memory_records_capacity s) (memory_records_size s)
    (memory_records_written s) v (memory_count_frees s)
    (memory_expect_error s) (memory_error s) (memory_malloc_fail s)
    (memory_malloc_forced_failures s) (ctx_stack s) (ctx_stack_index s)
    (ctx_stack_top s) (error_log s) (out_of_bounds s) (indeterminate_read s)
    (host_result s).

Definition set_memory_count_frees (v : Z) (s : state) : state :=
  mkState (test_failed s) (test_warned s) (test_in_function s)
    (test_in_progress s) (test_expect_fail s) (test_skip s)
    (test_current_line s) (test_count s) (test_passed_count s)
    (test_warnings_count s) (param_line s) (param_no_expect_fail s)
    (param_memory_test s) (memory s) (memory_ptr s) (memory_records_null s)
    (memory_records s) (memory_records_capacity s) (memory_records_size s)
    (memory_records_written s) (memory_count_mallocs s) v
    (memory_expect_error s) (memory_error s) (memory_malloc_fail s)
    (memory_malloc_forced_failures s) (ctx_stack s) (ctx_stack_index s)
    (ctx_stack_top s) (error_log s) (out_of_bounds s) (indeterminate_read s)
    (host_result s).

Definition set_memory_expect_error (v : bool) (s : state) : state :=
  mkState (test_failed s) (test_warned s) (test_in_function s)
    (test_in_progress s) (test_expect_fail s) (test_skip s)
    (test_current_line s) (test_count s) (test_passed_count s)
    (test_warnings_count s) (param_line s) (param_no_expect_fail s)
    (param_memory_test s) (memory s) (memory_ptr s) (memory_records_null s)
    (memory_records s) (memory_records_capacity s) (memory_records_size s)
    (memory_records_written s) (memory_count_mallocs s) (memory_count_frees s)
    v (memory_error s) (memory_malloc_fail s)
    (memory_malloc_forced_failures s) (ctx_stack s) (ctx_stack_index s)
    (ctx_stack_top s) (error_log s) (out_of_bounds s) (indeterminate_read s)
    (host_result s).

Definition set_memory_error (v : bool) (s : state) : state :=
  mkState (test_failed s) (test_warned s) (test_in_function s)
    (test_in_progress s) (test_expect_fail s) (test_skip s)
    (test_current_line s) (test_count s) (test_passed_count s)
    (test_warnings_count s) (param_line s) (param_no_expect_fail s)
    (param_memory_test s) (memory s) (memory_ptr s) (memory_records_null s)
    (memory_records s) (memory_records_capacity s) (memory_records_size s)
    (memory_records_written s) (memory_count_mallocs s) (memory_count_frees s)
    (memory_expect_error s) v (memory_malloc_fail s)
    (memory_malloc_forced_failures s) (ctx_stack s) (ctx_stack_index s)
    (ctx_stack_top s) (error_log s) (out_of_bounds s) (indeterminate_read s)
    (host_result s).

Definition set_memory_malloc_fail (v : MallocFailLevel) (s : state) : state :=
  mkState (test_failed s) (test_warned s) (test_in_function s)
    (test_in_progress s) (test_expect_fail s) (test_skip s)
    (test_current_line s) (test_count s) (test_passed_count s)
    (test_warnings_count s) (param_line s) (param_no_expect_fail s)
    (param_memory_test s) (memory s) (memory_ptr s) (memory_records_null s)
    (memory_records s) (memory_records_capacity s) (memory_records_size s)
    (memory_records_written s) (memory_count_mallocs s) (memory_count_frees s)
    (memory_expect_error s) (memory_error s) v
    (memory_malloc_forced_failures s) (ctx_stack s) (ctx_stack_index s)
    (ctx_stack_top s) (error_log s) (out_of_bounds s) (indeterminate_read s)
    (host_result s).

Definition set_memory_malloc_forced_failures (v : Z) (s : state) : state :=
  mkState (test_failed s) (test_warned s) (test_in_function s)
    (test_in_progress s) (test_expect_fail s) (test_skip s)
    (test_current_line s) (test_count s) (test_passed_count s)
    (test_warnings_count s) (param_line s) (param_no_expect_fail s)
    (param_memory_test s) (memory s) (memory_ptr s) (memory_records_null s)
    (memory_records s) (memory_records_capacity s) (memory_records_size s)
    (memory_records_written s) (memory_count_mallocs s) (memory_count_frees s)
    (memory_expect_error s) (memory_error s) (memory_malloc_fail s) v
    (ctx_stack s) (ctx_stack_index s) (ctx_stack_top s) (error_log s)
    (out_of_bounds s) (indeterminate_read s) (host_result s).

Definition set_ctx_stack (v : Z -> Context) (s : state) : state :=
  mkState (test_failed s) (test_warned s) (test_in_function s)
    (test_in_progress s) (test_expect_fail s) (test_skip s)
    (test_current_line s) (test_count s) (test_passed_count s)
    (test_warnings_count s) (param_line s) (param_no_expect_fail s)
    (param_memory_test s) (memory s) (memory_ptr s) (memory_records_null s)
    (memory_records s) (memory_records_capacity s) (memory_records_size s)
    (memory_records_written s) (memory_count_mallocs s) (memory_count_frees s)
    (memory_expect_error s) (memory_error s) (memory_malloc_fail s)
    (memory_malloc_forced_failures s) v (ctx_stack_index s) (ctx_stack_top s)
    (error_log s) (out_of_bounds s) (indeterminate_read s) (host_result s).

Definition set_ctx_stack_index (v : Z) (s : state) : state :=
  mkState (test_failed s) (test_warned s) (test_in_function s)
    (test_in_progress s) (test_expect_fail s) (test_skip s)
    (test_current_line s) (test_count s) (test_passed_count s)
    (test_warnings_count s) (param_line s) (param_no_expect_fail s)
    (param_memory_test s) (memory s) (memory_ptr s) (memory_records_null s)
    (memory_records s) (memory_records_capacity s) (memory_records_size s)
    (memory_records_written s) (memory_count_mallocs s) (memory_count_frees s)
    (memory_expect_error s) (memory_error s) (memory_malloc_fail s)
    (memory_malloc_forced_failures s) (ctx_stack s) v (ctx_stack_top s)
    (error_log s) (out_of_bounds s) (indeterminate_read s) (host_result s).

Definition set_ctx_stack_top (v : Z) (s : state) : state :=
  mkState (test_failed s) (test_warned s) (test_in_function s)
    (test_in_progress s) (test_expect_fail s) (test_skip s)
    (test_current_line s) (test_count s) (test_passed_count s)
    (test_warnings_count s) (param_line s) (param_no_expect_fail s)
    (param_memory_test s) (memory s) (memory_ptr s) (memory_records_null s)
    (memory_records s) (memory_records_capacity s) (memory_records_size s)
    (memory_records_written s) (memory_count_mallocs s) (memory_count_frees s)
    (memory_expect_error s) (memory_error s) (memory_malloc_fail s)
    (memory_malloc_forced_failures s) (ctx_stack s) (ctx_stack_index s) v
    (error_log s) (out_of_bounds s) (indeterminate_read s) (host_result s).

Definition set_error_log (v : list event) (s : state) : state :=
  mkState (test_failed s) (test_warned s) (test_in_function s)
    (test_in_progress s) (test_expect_fail s) (test_skip s)
    (test_current_line s) (test_count s) (test_passed_count s)
    (test_warnings_count s) (param_line s) (param_no_expect_fail s)
    (param_memory_test s) (memory s) (memory_ptr s) (memory_records_null s)
    (memory_records s) (memory_records_capacity s) (memory_records_size s)
    (memory_records_written s) (memory_count_mallocs s) (memory_count_frees s)
    (memory_expect_error s) (memory_error s) (memory_malloc_fail s)
    (memory_malloc_forced_failures s) (ctx_stack s) (ctx_stack_index s)
    (ctx_stack_top s) v (out_of_bounds s) (indeterminate_read s)
    (host_result s).

Definition set_out_of_bounds (v : bool) (s : state) : state :=
  mkState (test_failed s) (test_warned s) (test_in_function s)
    (test_in_progress s) (test_expect_fail s) (test_skip s)
    (test_current_line s) (test_count s) (test_passed_count s)
    (test_warnings_count s) (param_line s) (param_no_expect_fail s)
    (param_memory_test s) (memory s) (memory_ptr s) (memory_records_null s)
    (memory_records s) (memory_records_capacity s) (memory_records_size s)
    (memory_records_written s) (memory_count_mallocs s) (memory_count_frees s)
    (memory_expect_error s) (memory_error s) (memory_malloc_fail s)
    (memory_malloc_forced_failures s) (ctx_stack s) (ctx_stack_index s)
    (ctx_stack_top s) (error_log s) v (indeterminate_read s) (host_result s).

Definition set_indeterminate_read (v : bool) (s : state) : state :=
  mkState (test_failed s) (test_warned s) (test_in_function s)
    (test_in_progress s) (test_expect_fail s) (test_skip s)
    (test_current_line s) (test_count s) (test_passed_count s)
    (test_warnings_count s) (param_line s) (param_no_expect_fail s)
    (param_memory_test s) (memory s) (memory_ptr s) (memory_records_null s)
    (memory_records s) (memory_records_capacity s) (memory_records_size s)
    (memory_records_written s) (memory_count_mallocs s) (memory_count_frees s)
    (memory_expect_error s) (memory_error s) (memory_malloc_fail s)
    (memory_malloc_forced_failures s) (ctx_stack s) (ctx_stack_index s)
    (ctx_stack_top s) (error_log s) (out_of_bounds s) v (host_result s).

(** ** Byte operations *)

Definition in_memory (i : Z) : bool :=
  (- memory_size_barrier <=? i) && (i <? memory_size_max + memory_size_barrier).

Definition upd {A : Type} (f : Z -> A) (i : Z) (v : A) : Z -> A :=
  fun j => if j =? i then v else f j.

(** [*p = c] for [p = memory + i]. *)
Definition store (i c : Z) (s : state) : state :=
  set_out_of_bounds (out_of_bounds s || negb (in_memory i))
    (set_memory (upd (memory s) i c) s).

(** [while (n--) *(s++) = c;] *)
Fixpoint cspec_memset (a c : Z) (n : nat) (s : state) : state :=
  match n with
  | O => s
  | S k => cspec_memset (a + 1) c k (store a c s)
  end.

(** [while (n--) *(s++) = *(t++);] *)
Fixpoint cspec_memcpy (a t : Z) (n : nat) (s : state) : state :=
  match n with
  | O => s
  | S k => cspec_memcpy (a + 1) (t + 1) k (store a (memory s t) s)
  end.

(** The offsets [0, 1, ..., n-1] a [for] loop runs through. *)
Definition upto (n : Z) : list Z := map Z.of_nat (seq 0 (Z.to_nat n)).

(** ** Strings *)

(** A C string is read off a list of bytes: its characters are those before
    the first NUL, and the end of the list stands for the terminator.  A
    [char*] that may be [NULL] is an [option]. *)

(** The loop of [cspec_strcmp] runs while both strings have a character,
    returns FALSE at the first two that differ, and ends on the comparison
    of the characters it stopped at. *)
Fixpoint strcmp_loop (A B : list Z) : bool :=
  match A, B with
  | a :: A', b :: B' =>
      if negb (a =? 0) && negb (b =? 0)
      then if negb (a =? b) then false else strcmp_loop A' B'
      else a =? b
  | _, _ => hd 0 A =? hd 0 B
  end.

Definition cspec_strcmp (A B : option (list Z)) : bool :=
  match A, B with
  | None, None => true
  | None, Some _ | Some _, None => false
  | Some A, Some B => strcmp_loop A B
  end.

(** [csUint] is [unsigned int]. *)
Definition wrap32 (z : Z) : Z := z mod 2 ^ 32.

(** One step of the counter for every character before the NUL. *)
Fixpoint strlen_loop (s : list Z) (ret : Z) : Z :=
  match s with
  | [] => ret
  | c :: s' => if c =? 0 then ret else strlen_loop s' (wrap32 (ret + 1))
  end.

Definition cspec_strlen (s : list Z) : Z := strlen_loop s 0.

Definition cspec_strrstr (s ends_with : option (list Z)) : bool :=
  match s with
  | None => false
  | Some s =>
      match ends_with with
      | None => true
      | Some e =>
          let len_s := cspec_strlen s in
          let len_e := cspec_strlen e in
          if len_e >? len_s then false
          else
            let s := skipn (Z.to_nat (len_s - len_e)) s in
            forallb (fun i => nth i s 0 =? nth i e 0)
              (seq 0 (Z.to_nat len_e))
      end
  end.

Definition cspec_isdigit (c : Z) : bool := (48 <=? c) && (c <=? 57).

Definition INT_MAX : Z := 2 ^ 31 - 1.

(** The first loop of [cspec_atoi]: up to the first digit, every ['-'] on
    the way turning the sign. *)
Fixpoint atoi_skip (s : list Z) (sign : Z) : list Z * Z :=
  match s with
  | [] => ([], sign)
  | c :: s' =>
      if c =? 0 then (s, sign)
      else
        let sign := if c =? 45 then sign * -1 else sign in
        if cspec_isdigit c then (s, sign) else atoi_skip s' sign
  end.

(** The second loop, on [int]: the result is [None] when the number read
    leaves the range of [int], where C leaves the behaviour undefined. *)
Fixpoint atoi_digits (s : list Z) (result : Z) : option Z :=
  match s with
  | [] => Some result
  | c :: s' =>
      if negb (c =? 0) && cspec_isdigit c then
        let result := result * 10 + (c - 48) in
        if result <=? INT_MAX then atoi_digits s' result else None
      else Some result
  end.

Definition cspec_atoi (s : option (list Z)) : option Z :=
  match s with
  | None => Some 0
  | Some s =>
      let (s, sign) := atoi_skip s 1 in
      match atoi_digits s 0 with
      | Some result => Some (result * sign)
      | None => None
      end
  end.

(** ** Errors and warnings *)

Definition log (e : event) (s : state) : state :=
  set_error_log (error_log s ++ [e]) s.

(** [test_error_no_fail] only prints, and is called only when the test is
    not expected to fail ([if (!test_expect_fail)]); for a memory error, only
    when no memory error is expected ([if (!memory_expect_error)]).  The
    entry in [error_log] stands for the error raised, printed or not. *)
Definition _cspec_error_fn (message : string) (s : state) : state :=
  if test_in_progress s
  then set_test_failed true (log (TestError message) s)
  else s.

Definition _cspec_error_mem (message : string) (s : state) : state :=
  if test_in_progress s
  then set_memory_error true (log (MemError message) s)
  else s.

(** [print_headers] and the output calls write printer state only. *)
Definition _cspec_warn_fn (line : Z) (message : string) (s : state) : state :=
  if negb (test_current_line s =? 0) && (test_current_line s >? line) then s
  else
    let s1 := log (Warning line message) s in
    let s2 := if test_warned s1 then s1
              else set_test_warnings_count (test_warnings_count s1 + 1) s1 in
    set_test_warned true s2.

(** ** The memory sandbox *)

Definition memory_check_fence (r : MemoryRecord) (s : state) : bool :=
  forallb
    (fun i =>
       (memory s (block r + i) =? byte_b)
       && (memory s (block r + i + memory_size_fence + size r) =? byte_e))
    (upto memory_size_fence).

(** [key] is the freed pointer, as an offset; the result is the sign. *)
Definition memory_record_compare (key : Z) (r : MemoryRecord) : Z :=
  let record_block := block r + memory_size_fence in
  if key >? record_block then 1
  else if key <? record_block then -1
  else 0.

(** The C library's [bsearch] over [base[lo .. hi)], as the usual halving
    loop; the result is the index of the element found. *)
Fixpoint bsearch_loop (fuel : nat) (key : Z) (base : Z -> MemoryRecord)
    (lo hi : Z) : option Z :=
  match fuel with
  | O => None
  | S k =>
      if lo <? hi then
        let mid := (lo + hi) / 2 in
        let c := memory_record_compare key (base mid) in
        if c =? 0 then Some mid
        else if c <? 0 then bsearch_loop k key base lo mid
        else bsearch_loop k key base (mid + 1) hi
      else None
  end.

Definition bsearch (key : Z) (base : Z -> MemoryRecord) (nmemb : Z) : option Z :=
  bsearch_loop (S (Z.to_nat nmemb)) key base 0 nmemb.

(** The elements that loop hands to the comparison, in order. *)
Fixpoint bsearch_probes (fuel : nat) (key : Z) (base : Z -> MemoryRecord)
    (lo hi : Z) : list Z :=
  match fuel with
  | O => []
  | S k =>
      if lo <? hi then
        let mid := (lo + hi) / 2 in
        let c := memory_record_compare key (base mid) in
        mid :: (if c =? 0 then []
                else if c <? 0 then bsearch_probes k key base lo mid
                else bsearch_probes k key base (mid + 1) hi)
      else []
  end.

(** The sandbox serves a call only inside a group function and once its
    record table exists; otherwise the call goes to the host allocator. *)
Definition sandbox_inactive (s : state) : bool :=
  memory_records_null s || negb (test_in_function s).

Definition memory_test_reset (enable : bool) (s : state) : state :=
  if negb enable then set_memory_records_null true s
  else
    let s := set_memory_expect_error false s in
    let s := set_memory_malloc_forced_failures 0 s in
    let s := set_memory_malloc_fail M_NORMAL s in
    let s := set_memory_error false s in
    let s := set_memory_count_mallocs 0 s in
    let s := set_memory_count_frees 0 s in
    let s := set_memory_records_size 0 s in
    let s := set_memory_ptr 0 s in
    let s :=
      if memory_records_null s then
        (* memory_records = malloc(...): no slot of the new table is written *)
        set_memory_records_null (pointer_eqb (host_result s) NULL)
          (set_memory_records_capacity 16
             (set_memory_records_size 0
                (set_memory_records_written (fun _ => false) s)))
      else s in
    let s := cspec_memset (- memory_size_barrier) byte_FF
               (Z.to_nat memory_size_barrier) s in
    let s := cspec_memset 0 byte_X (Z.to_nat memory_size_max) s in
    cspec_memset memory_size_max byte_FF (Z.to_nat memory_size_barrier) s.

(** The record table comes from the host's [malloc] and [realloc]: a slot
    holds a record only once [cspec_malloc] has written it.
    [memory_final_checks] visits every slot below [memory_records_size],
    [cspec_free] those its search probes, [cspec_realloc] the last one, and
    each dereferences [record->block]; the error of a broken preceding
    fence in [cspec_malloc] hands the slot before the new one to
    [memory_print_record].  For a slot that was counted but
    never written (the return on a broken preceding fence in [cspec_malloc]
    leaves one) this is a read through an indeterminate pointer, and the
    code may crash there: [read_slot] records it in [indeterminate_read].
    From then on the model goes on with the value [memory_records] has at
    the slot, which says nothing about the code.  [table_written] is the
    condition that every counted slot is written. *)
Definition table_written (s : state) : bool :=
  forallb (memory_records_written s) (upto (memory_records_size s)).

(** [record->size], [record->block], [record->is_free] for
    [record = &memory_records[i]]. *)
Definition read_slot (i : Z) (s : state) : state :=
  if memory_records_written s i then s else set_indeterminate_read true s.

Definition check_after_free (r : MemoryRecord) (s : state) : state :=
  fold_left
    (fun s j =>
       if memory s (block r + memory_size_fence + j) =? byte_F then s
       else _cspec_error_mem "after: memory modified after free" s)
    (upto (size r)) s.

Definition check_record (s : state) (i : Z) : state :=
  let s := read_slot i s in
  let record := memory_records s i in
  let s :=
    if memory_check_fence record s then s
    else _cspec_error_mem "after: detected buffer over/underrun" s in
  if is_free record then check_after_free record s
  else _cspec_error_mem "after: allocated memory not freed" s.

Definition check_barriers (s : state) : state :=
  fold_left
    (fun s i =>
       if (memory s (i - memory_size_barrier) =? byte_FF)
          && (memory s (i + memory_size_max) =? byte_FF)
       then s
       else _cspec_error_mem "after: primary fence broken (large overrun)" s)
    (upto memory_size_barrier) s.

(** The first three checks of [memory_final_checks]: every record, the two
    barriers, malloc/free parity. *)
Definition memory_checks (s : state) : state :=
  let s := fold_left check_record (upto (memory_records_size s)) s in
  let s := check_barriers s in
  if memory_count_mallocs s =? memory_count_frees s then s
  else _cspec_error_mem "after: mismatched malloc/free calls" s.

Definition memory_final_checks (s : state) : state :=
  let s := memory_checks s in
  if (fail_level M_WAS_EXPECTED <=? fail_level (memory_malloc_fail s))
     && (memory_malloc_forced_failures s =? 0)
  then _cspec_error_fn
         "memory error: after: malloc fail requested, but never called" s
  else s.

(** The armed "fail the next allocation" directive fires. *)
Definition forced_failure (s : state) : state :=
  let s :=
    match memory_malloc_fail s with
    | M_FAIL_ONCE => set_memory_malloc_fail M_WAS_EXPECTED s
    | _ => s
    end in
  set_memory_malloc_forced_failures (memory_malloc_forced_failures s + 1) s.

(** [for (fence = memory_ptr - 7; fence < memory_ptr; ++fence)]: the
    trailing fence of the previous block, on [size_t]. *)
Definition preceding_fence_ok (s : state) : bool :=
  let fence := wrap (memory_ptr s - memory_size_fence) in
  forallb (fun i => memory s (fence + i) =? byte_e) (upto (memory_ptr s - fence)).

Definition cspec_malloc (sz : Z) (s : state) : pointer * state :=
  if sandbox_inactive s then (host_result s, s)
  else if sz =? 0 then (NULL, s)
  else if fail_level M_FAIL_ONCE <=? fail_level (memory_malloc_fail s)
  then (NULL, forced_failure s)
  else
    let next := wrap (memory_ptr s + memory_size_fence * 2 + sz) in
    if next >=? memory_size_max - memory_size_fence * 2 then
      (NULL,
       _cspec_error_mem
         "malloc: ran out of test memory space! Increase limit from 4096 bytes."
         (set_memory_expect_error false s))
    else
      let s := set_memory_count_mallocs (memory_count_mallocs s + 1) s in
      if (memory_records_size s >=? memory_records_capacity s)
         && pointer_eqb (host_result s) NULL
      then (NULL, set_memory_expect_error false s)
      else
        let s :=
          if memory_records_size s >=? memory_records_capacity s
          then set_memory_records_capacity
                 (memory_records_capacity s * 3 / 2) s
          else s in
        let i := memory_records_size s in
        let s := set_memory_records_size (i + 1) s in
        if negb (memory_ptr s =? 0) && negb (preceding_fence_ok s) then
          (* slot [i] is counted and left as it was: unwritten, or with the
             record an earlier pass wrote there; the error is given with
             [record - 1], which [memory_print_record] reads when the
             message is printed *)
          let s := if test_in_progress s && negb (memory_expect_error s)
                   then read_slot (i - 1) s else s in
          (NULL, _cspec_error_mem "malloc: preceeding fence broken" s)
        else
          let b := memory_ptr s in
          let s := set_memory_records
                     (upd (memory_records s) i (mkRecord sz b false)) s in
          let s := set_memory_records_written
                     (upd (memory_records_written s) i true) s in
          let s := cspec_memset b byte_b (Z.to_nat memory_size_fence) s in
          let s := cspec_memset (b + memory_size_fence) byte_N (Z.to_nat sz) s in
          let s := cspec_memset (b + memory_size_fence + sz) byte_e
                     (Z.to_nat memory_size_fence) s in
          (Ptr (b + memory_size_fence), set_memory_ptr next s).

(** The slots the search of [cspec_free] reads. *)
Definition search_reads (key : Z) (s : state) : state :=
  fold_left (fun s i => read_slot i s)
    (bsearch_probes (S (Z.to_nat (memory_records_size s))) key
       (memory_records s) 0 (memory_records_size s))
    s.

Definition cspec_free (mem : pointer) (s : state) : state :=
  if sandbox_inactive s then s
  else
    match mem with
    | NULL => s
    | Ptr p =>
        if (p <? 0) || (p >=? memory_size_max) then
          _cspec_error_mem "free: invalid pointer, out of bounds" s
        else
          let s := search_reads p s in
          match bsearch p (memory_records s) (memory_records_size s) with
          | None => _cspec_error_mem "free: invalid pointer, not malloc result" s
          | Some i =>
              let record := memory_records s i in
              let s :=
                if is_free record
                then _cspec_error_mem "free: pointer already freed" s
                else s in
              let s :=
                if memory_check_fence record s then s
                else _cspec_error_mem "free: broken fence" s in
              let s := cspec_memset (block record + memory_size_fence) byte_F
                         (Z.to_nat (size record)) s in
              let s := set_memory_records
                         (upd (memory_records s) i
                            (mkRecord (size record) (block record) true)) s in
              set_memory_count_frees (memory_count_frees s + 1) s
          end
    end.

Definition cspec_calloc (ct sel : Z) (s : state) : pointer * state :=
  if sandbox_inactive s then (host_result s, s)
  else
    match cspec_malloc (wrap (ct * sel)) s with
    | (NULL, s) => (NULL, s)
    | (Ptr q, s) => (Ptr q, cspec_memset q 0 (Z.to_nat (wrap (ct * sel))) s)
    end.

Definition cspec_realloc (mem : pointer) (nsize : Z) (s : state)
  : pointer * state :=
  if sandbox_inactive s then (host_result s, s)
  else
    match mem with
    | NULL => cspec_malloc nsize s
    | Ptr p =>
        if memory_records_size s =? 0 then
          cspec_malloc nsize
            (_cspec_error_mem "realloc: nothing previously allocated" s)
        else
          (* record = &memory_records[memory_records_size - 1] *)
          let last := memory_records_size s - 1 in
          let record := memory_records s last in
          if fail_level M_FAIL_ONCE <=? fail_level (memory_malloc_fail s)
          then (NULL, forced_failure s)
          else
          let s := read_slot last s in
          if block record + memory_size_fence =? p then
            if negb (memory_check_fence record s) then
              (NULL, _cspec_error_mem "realloc: broken fence" s)
            else if nsize =? size record then (mem, s)
            else
              let block_start := block record + memory_size_fence in
              let s := cspec_memset (block_start + nsize) byte_e
                         (Z.to_nat memory_size_fence) s in
              let s :=
                if nsize >? size record then
                  cspec_memset (block_start + size record) byte_N
                    (Z.to_nat (nsize - size record)) s
                else
                  cspec_memset (block_start + nsize + memory_size_fence) byte_X
                    (Z.to_nat (size record - nsize)) s in
              let s := set_memory_records
                         (upd (memory_records s) last
                            (mkRecord nsize (block record) (is_free record))) s in
              let s := set_memory_ptr (block_start + nsize + memory_size_fence) s in
              (Ptr (block record + memory_size_fence), s)
          else
            match cspec_malloc nsize s with
            | (NULL, s) =>
                (NULL, _cspec_error_mem "realloc: malloc failed in realloc" s)
            | (Ptr ret, s) =>
                (* [record] still designates slot [last] of the table *)
                let record := memory_records s last in
                let s := cspec_memcpy ret (block record)
                           (Z.to_nat (wrap (size record + memory_size_fence * 2))) s in
                let s := cspec_free (Ptr (block record + memory_size_fence)) s in
                (Ptr ret, s)
            end
    end.

(** ** The context stack *)

Definition _cspec_context_begin (line : Z) (d : Z) (s : state) : bool * state :=
  if test_in_progress s then (false, s)
  else if (ctx_stack_index s <? ctx_stack_top s)
          && (desc (ctx_stack s (ctx_stack_index s + 1)) =? d)
  then (true, set_ctx_stack_index (ctx_stack_index s + 1) s)
  else if desc (ctx_stack s (ctx_stack_index s)) =? d then (true, s)
  else if test_current_line s >? line then (false, s)
  else
    (* assert(ctx_stack_index == ctx_stack_top); *)
    let is_requested := line =? param_line s in
    let s := if is_requested then set_param_line 0 s else s in
    let s := set_test_current_line line s in
    if ctx_stack_top s + 1 >=? cspec_ctx_stack_size_max then
      let s := _cspec_warn_fn line
                 "context error:%c Too many nested contexts - maximum depth allowed: 20" s in
      let s := _cspec_warn_fn line
                 "%cStack limit can be increased by defining cspec_ctx_stack_size_max" s in
      (false, s)
    else
      let s := set_ctx_stack_top (ctx_stack_top s + 1) s in
      let s := set_ctx_stack_index (ctx_stack_top s) s in
      let s := set_ctx_stack
                 (upd (ctx_stack s) (ctx_stack_index s)
                    (mkContext d is_requested)) s in
      (true, s).

Definition _cspec_context_end (line : Z) (s : state) : bool * state :=
  if test_in_progress s then (false, s)
  else
    let s := set_test_current_line (line + 1) s in
    let s :=
      if requested_context (ctx_stack s (ctx_stack_top s))
      then set_param_line (-1) s
      else s in
    (* assert(ctx_stack_top != 0); *)
    let s := set_ctx_stack_top (ctx_stack_top s - 1) s in
    let s := set_ctx_stack_index (ctx_stack_top s) s in
    (true, s).

Definition context_clear_stack (s : state) : state :=
  set_ctx_stack_index 0 (set_ctx_stack_top 0 s).

(** ** Test begin and end *)

(** [test_description] and [test_desc_printed] only feed the printer. *)
Definition _cspec_begin (line : Z) (s : state) : bool * state :=
  if test_in_progress s then (false, s)
  else if test_current_line s >=? line then (false, s)
  else
    let s := set_test_current_line line s in
    if ((param_line s =? 0) || (param_line s =? line)) && negb (test_skip s)
    then (true, set_test_in_progress true s)
    else (false, set_test_in_progress false s).

(** The state on which [_cspec_end] takes its pass/fail decision: the final
    memory checks have run when the test has not failed and memory testing
    is on. *)
Definition end_checks (s : state) : state :=
  if negb (test_failed s) && param_memory_test s
  then memory_final_checks s
  else s.

(** The final checks read every counted slot of the record table.  What
    [_cspec_end] does is defined by the code when they do not run, or when
    every counted slot is written. *)
Definition end_defined (s : state) : bool :=
  test_failed s || negb (param_memory_test s) || table_written s.

(** [!test_failed ^ test_expect_fail && !memory_error ^ memory_expect_error] *)
Definition end_passes (s : state) : bool :=
  xorb (negb (test_failed s)) (test_expect_fail s)
  && xorb (negb (memory_error s)) (memory_expect_error s).

Definition _cspec_end (s : state) : bool * state :=
  if negb (test_in_progress s) then (false, s)
  else
    let s := end_checks s in
    let s := set_test_count (test_count s + 1) s in
    let s :=
      if end_passes s then set_test_passed_count (test_passed_count s + 1) s
      else
        let s :=
          if test_expect_fail s
          then _cspec_error_fn "expected to fail, but succeeded instead"
                 (set_test_expect_fail false s)
          else s in
        if memory_expect_error s
        then _cspec_error_fn "expected memory errors, but none were found" s
        else s in
    (true, set_test_in_progress false s).

Definition _cspec_active (s : state) : bool := test_in_progress s.

(** ** Directives *)

Definition _cspec_expect_to_fail (s : state) : bool * state :=
  (true, if param_no_expect_fail s then s else set_test_expect_fail true s).

(** The line argument is the literal [0xFFFFFFFF] converted to [int]. *)
Definition memory_directive_warning (s : state) : bool * state :=
  if negb (param_memory_test s) then
    let s := _cspec_warn_fn (-1)
               "warning: expecting memory errors, but memory testing is disabled" s in
    (true, set_test_expect_fail true s)
  else (false, s).

Definition _cspec_memory_expect_to_fail (s : state) : bool * state :=
  match memory_directive_warning s with
  | (true, s) => (negb (test_in_progress s), set_test_skip true s)
  | (false, s) =>
      (true, if param_no_expect_fail s then s else set_memory_expect_error true s)
  end.

Definition _cspec_memory_malloc_null (only_once : bool) (s : state)
  : bool * state :=
  match memory_directive_warning s with
  | (true, s) => (negb (test_in_progress s), set_test_skip true s)
  | (false, s) =>
      (true,
       set_memory_malloc_fail (if only_once then M_FAIL_ONCE else M_FAIL_ALWAYS) s)
  end.

(** The result is the [int] returned. *)
Definition _cspec_memory_malloc_count (s : state) : Z * state :=
  match memory_directive_warning s with
  | (true, s) => (-1, set_test_skip true s)
  | (false, s) => (memory_count_mallocs s, s)
  end.

Definition _cspec_memory_free_count (s : state) : Z * state :=
  match memory_directive_warning s with
  | (true, s) => (-1, set_test_skip true s)
  | (false, s) => (memory_count_frees s, s)
  end.

(** ** The runner *)

(** The single-letter switches.  [v], [n], [V], [s] and [p] set parameters
    of the printer. *)
Definition process_param_basic (c : Z) (s : state) : bool * state :=
  if (c =? 118) || (c =? 110) || (c =? 86) || (c =? 115) || (c =? 112)
  then (true, s)
  else if c =? 102 then (true, set_param_no_expect_fail true s)
  else if c =? 109 then (true, set_param_memory_test false s)
  else (false, s).

(** [test_function], [test_function_printed]: printing only. *)
Definition before_fn (s : state) : state :=
  (* assert(ctx_stack_top == 0); *)
  set_test_current_line 0 s.

Definition before_pass (s : state) : state :=
  let s := set_ctx_stack_index 0 s in
  let s := set_test_expect_fail false s in
  let s := set_test_skip false s in
  let s := memory_test_reset (param_memory_test s) s in
  let s := set_test_failed false s in
  set_test_warned false s.

(** The statics as the C runtime initialises them, with the parameters that
    [_cspec_run_all] sets before the first suite.  The host allocator is
    taken to succeed. *)
Definition initial_state : state := {|
  test_failed := false;
  test_warned := false;
  test_in_function := false;
  test_in_progress := false;
  test_expect_fail := false;
  test_skip := false;
  test_current_line := 0;
  test_count := 0;
  test_passed_count := 0;
  test_warnings_count := 0;
  param_line := 0;
  param_no_expect_fail := false;
  param_memory_test := true;
  memory := fun _ => 0;
  memory_ptr := 0;
  memory_records_null := true;
  memory_records := fun _ => mkRecord 0 0 false;
  memory_records_capacity := 0;
  memory_records_size := 0;
  memory_records_written := fun _ => false;
  memory_count_mallocs := 0;
  memory_count_frees := 0;
  memory_expect_error := false;
  memory_error := false;
  memory_malloc_fail := M_NORMAL;
  memory_malloc_forced_failures := 0;
  ctx_stack := fun i => mkContext (if i =? 0 then root_desc else 0) false;
  ctx_stack_index := 0;
  ctx_stack_top := 0;
  error_log := [];
  out_of_bounds := false;
  indeterminate_read := false;
  host_result := Ptr 65536
|}.

(** ** Group functions

    A group function is the body that [describe(NAME)] introduces.  Its
    [context(DESC) { ... }] and [it(DESC) { ... }] blocks are [for] loops
    around the calls below ([_context], [_test] in [cspec.h]); everything
    else in it is code of the test author.  [__LINE__] gives both calls of a
    context block the line of the [context] keyword.

    Code of the author is a state transformer that also says whether it left
    the group function with [return] (a failed [expect] and [test_fail] do). *)

Inductive item : Type :=
| Code (f : state -> bool * state)
| Test (line : Z) (body : state -> bool * state)
| Ctx (line : Z) (d : Z) (inner : items)
with items : Type :=
| inil
| icons (b : item) (bs : items).

(** The result says whether the group function has returned.

    [_context]: [for (i = 0; (i++ < 2) && _cspec_context_begin(line, desc);)
    if (i == 2) { if (_cspec_context_end(line)) return; } else BODY]

    [_test]: [for (i = 0; i++ < 1 && _cspec_begin(line, desc);) BODY] *)
Fixpoint run_item (b : item) (s : state) : bool * state :=
  match b with
  | Code f => f s
  | Test line body =>
      match _cspec_begin line s with
      | (true, s) => body s
      | (false, s) => (false, s)
      end
  | Ctx line d inner =>
      match _cspec_context_begin line d s with
      | (false, s) => (false, s)
      | (true, s) =>
          match run_items inner s with
          | (true, s) => (true, s)
          | (false, s) =>
              match _cspec_context_begin line d s with
              | (false, s) => (false, s)
              | (true, s) => _cspec_context_end line s
              end
          end
      end
  end
with run_items (bs : items) (s : state) : bool * state :=
  match bs with
  | inil => (false, s)
  | icons b rest =>
      match run_item b s with
      | (true, s) => (true, s)
      | (false, s) => run_items rest s
      end
  end.

(** The loop of [process_function]: passes over the group function until
    one ends with no test in progress and the line where it started.  The
    result is [None] when [fuel] passes were not enough. *)
Fixpoint passes (fuel : nat) (group_fn : items) (s : state) : option state :=
  match fuel with
  | O => None
  | S fuel =>
      let s := before_pass s in
      let prev_line := test_current_line s in
      let s := set_test_in_function true s in
      let s := snd (run_items group_fn s) in
      let s := set_test_in_function false s in
      if negb (test_in_progress s) && (prev_line =? test_current_line s)
      then Some s
      else passes fuel group_fn (snd (_cspec_end s))
  end.

Definition process_function (fuel : nat) (group_fn : items) (s : state)
  : option state :=
  match passes fuel group_fn (before_fn s) with
  | Some s => Some (context_clear_stack s)
  | None => None
  end.




(** A pass as [process_function] starts it: [before_pass], then
    [test_in_function = TRUE]. *)
Definition pass_start (s : state) : state :=
  set_test_in_function true (before_pass s).

(** * Properties *)

(** Projections of updated states, without touching the arithmetic. *)
Ltac fields :=
  cbn [test_failed test_warned test_in_function test_in_progress
    test_expect_fail test_skip test_current_line test_count
    test_passed_count test_warnings_count param_line param_no_expect_fail
    param_memory_test memory memory_ptr memory_records_null memory_records
    memory_records_capacity memory_records_size memory_records_written
    memory_count_mallocs memory_count_frees memory_expect_error memory_error
    memory_malloc_fail memory_malloc_forced_failures ctx_stack ctx_stack_index
    ctx_stack_top error_log out_of_bounds indeterminate_read host_result
    set_test_failed set_test_warned
    set_test_in_function set_test_in_progress set_test_expect_fail
    set_test_skip set_test_current_line set_test_count set_test_passed_count
    set_test_warnings_count set_param_line set_memory set_memory_ptr
    set_memory_records_null set_memory_records set_memory_records_capacity
    set_memory_records_size set_memory_records_written
    set_memory_count_mallocs set_memory_count_frees
    set_memory_expect_error set_memory_error set_memory_malloc_fail
    set_memory_malloc_forced_failures set_ctx_stack set_ctx_stack_index
    set_ctx_stack_top set_error_log set_out_of_bounds
    set_indeterminate_read fst snd].

Ltac fields_in H :=
  cbn [test_failed test_warned test_in_function test_in_progress
    test_expect_fail test_skip test_current_line test_count
    test_passed_count test_warnings_count param_line param_no_expect_fail
    param_memory_test memory memory_ptr memory_records_null memory_records
    memory_records_capacity memory_records_size memory_records_written
    memory_count_mallocs memory_count_frees memory_expect_error memory_error
    memory_malloc_fail memory_malloc_forced_failures ctx_stack ctx_stack_index
    ctx_stack_top error_log out_of_bounds indeterminate_read host_result
    set_test_failed set_test_warned
    set_test_in_function set_test_in_progress set_test_expect_fail
    set_test_skip set_test_current_line set_test_count set_test_passed_count
    set_test_warnings_count set_param_line set_memory set_memory_ptr
    set_memory_records_null set_memory_records set_memory_records_capacity
    set_memory_records_size set_memory_records_written
    set_memory_count_mallocs set_memory_count_frees
    set_memory_expect_error set_memory_error set_memory_malloc_fail
    set_memory_malloc_forced_failures set_ctx_stack set_ctx_stack_index
    set_ctx_stack_top set_error_log set_out_of_bounds
    set_indeterminate_read fst snd] in H.

(** Two states with the same variables are the same state. *)
Lemma state_ext (a b : state) :
  test_failed a = test_failed b ->
  test_warned a = test_warned b ->
  test_in_function a = test_in_function b ->
  test_in_progress a = test_in_progress b ->
  test_expect_fail a = test_expect_fail b ->
  test_skip a = test_skip b ->
  test_current_line a = test_current_line b ->
  test_count a = test_count b ->
  test_passed_count a = test_passed_count b ->
  test_warnings_count a = test_warnings_count b ->
  param_line a = param_line b ->
  param_no_expect_fail a = param_no_expect_fail b ->
  param_memory_test a = param_memory_test b ->
  memory a = memory b ->
  memory_ptr a = memory_ptr b ->
  memory_records_null a = memory_records_null b ->
  memory_records a = memory_records b ->
  memory_records_capacity a = memory_records_capacity b ->
  memory_records_size a = memory_records_size b ->
  memory_records_written a = memory_records_written b ->
  memory_count_mallocs a = memory_count_mallocs b ->
  memory_count_frees a = memory_count_frees b ->
  memory_expect_error a = memory_expect_error b ->
  memory_error a = memory_error b ->
  memory_malloc_fail a = memory_malloc_fail b ->
  memory_malloc_forced_failures a = memory_malloc_forced_failures b ->
  ctx_stack a = ctx_stack b ->
  ctx_stack_index a = ctx_stack_index b ->
  ctx_stack_top a = ctx_stack_top b ->
  error_log a = error_log b ->
  out_of_bounds a = out_of_bounds b ->
  indeterminate_read a = indeterminate_read b ->
  host_result a = host_result b ->
  a = b.
Proof.
  destruct a, b; cbn; intros; subst; reflexivity.
Qed.

(** ** Reading the record table *)

Lemma In_upto (n i : Z) : In i (upto n) <-> 0 <= i < n.
Proof.
  unfold upto. rewrite in_map_iff. split.
  - intros (k & <- & Hk). apply in_seq in Hk. lia.
  - intros Hi. exists (Z.to_nat i). split; [lia|]. apply in_seq. lia.
Qed.

Lemma table_written_spec (s : state) :
  table_written s = true <->
  forall i, 0 <= i < memory_records_size s ->
    memory_records_written s i = true.
Proof.
  unfold table_written. rewrite forallb_forall. split.
  - intros H i Hi. apply H, In_upto, Hi.
  - intros H i Hi. apply H, In_upto, Hi.
Qed.

Lemma read_slot_written (i : Z) (s : state) :
  memory_records_written s i = true -> read_slot i s = s.
Proof. intros H. unfold read_slot. rewrite H. reflexivity. Qed.

(** ** Raising errors touches the error flags and the trace only

    The checks that raise them read record slots on the way:
    [indeterminate_read] can go up with them. *)

Definition flagged (f m u : bool) (l : list event) (s : state) : state :=
  set_indeterminate_read u
    (set_error_log l (set_memory_error m (set_test_failed f s))).

Inductive raises (s : state) : state -> Prop :=
| raises_intro (f m u : bool) (l : list event) :
    (test_failed s = true -> f = true) ->
    (memory_error s = true -> m = true) ->
    (indeterminate_read s = true -> u = true) ->
    raises s (flagged f m u (error_log s ++ l) s).

Lemma raises_refl (s : state) : raises s s.
Proof.
  replace s with (flagged (test_failed s) (memory_error s)
                    (indeterminate_read s) (error_log s ++ []) s) at 2.
  - constructor; auto.
  - destruct s. unfold flagged. cbn. rewrite app_nil_r. reflexivity.
Qed.

Lemma raises_trans (s1 s2 s3 : state) :
  raises s1 s2 -> raises s2 s3 -> raises s1 s3.
Proof.
  intros [f m u l Hf Hm Hu] [f' m' u' l' Hf' Hm' Hu'].
  replace (flagged f' m' u'
             (error_log (flagged f m u (error_log s1 ++ l) s1) ++ l')
             (flagged f m u (error_log s1 ++ l) s1))
    with (flagged f' m' u' (error_log s1 ++ (l ++ l')) s1).
  - constructor; intros;
      [apply Hf', Hf | apply Hm', Hm | apply Hu', Hu]; assumption.
  - unfold flagged. cbn. rewrite app_assoc. reflexivity.
Qed.

Lemma raises_error_mem (msg : string) (s : state) :
  raises s (_cspec_error_mem msg s).
Proof.
  unfold _cspec_error_mem. destruct (test_in_progress s); [|apply raises_refl].
  exact (raises_intro s (test_failed s) true (indeterminate_read s)
           [MemError msg] (fun H => H) (fun _ => eq_refl) (fun H => H)).
Qed.

Lemma raises_error_fn (msg : string) (s : state) :
  raises s (_cspec_error_fn msg s).
Proof.
  unfold _cspec_error_fn. destruct (test_in_progress s); [|apply raises_refl].
  exact (raises_intro s true (memory_error s) (indeterminate_read s)
           [TestError msg] (fun _ => eq_refl) (fun H => H) (fun H => H)).
Qed.

Lemma raises_read_slot (i : Z) (s : state) : raises s (read_slot i s).
Proof.
  unfold read_slot. destruct (memory_records_written s i);
    [apply raises_refl|].
  replace (set_indeterminate_read true s)
    with (flagged (test_failed s) (memory_error s) true (error_log s ++ []) s).
  - constructor; auto.
  - destruct s. unfold flagged. cbn. rewrite app_nil_r. reflexivity.
Qed.

Lemma raises_fold {A : Type} (f : state -> A -> state) (l : list A) :
  (forall s x, raises s (f s x)) ->
  forall s, raises s (fold_left f l s).
Proof.
  intros Hf. induction l as [|x l IH]; intros s; cbn.
  - apply raises_refl.
  - eapply raises_trans; [apply Hf | apply IH].
Qed.

Lemma raises_if (b : bool) (s s1 s2 : state) :
  raises s s1 -> raises s s2 -> raises s (if b then s1 else s2).
Proof. destruct b; auto. Qed.

Create HintDb raises.
#[local] Hint Resolve raises_refl raises_error_mem raises_error_fn raises_if
  raises_read_slot : raises.

Lemma raises_check_record (s : state) (i : Z) : raises s (check_record s i).
Proof.
  unfold check_record. cbv zeta.
  eapply raises_trans; [apply (raises_read_slot i)|].
  generalize (read_slot i s). clear s. intros s.
  set (r := memory_records s i).
  assert (H1 : raises s (if memory_check_fence r s then s
                         else _cspec_error_mem "after: detected buffer over/underrun" s))
    by auto with raises.
  eapply raises_trans; [exact H1|].
  apply raises_if; [|auto with raises].
  unfold check_after_free. apply raises_fold. intros; auto with raises.
Qed.

Lemma raises_memory_checks (s : state) : raises s (memory_checks s).
Proof.
  unfold memory_checks.
  set (s1 := fold_left check_record (upto (memory_records_size s)) s).
  set (s2 := check_barriers s1).
  assert (H1 : raises s s1) by apply (raises_fold _ _ raises_check_record).
  assert (H2 : raises s1 s2).
  { apply raises_fold. intros; auto with raises. }
  eapply raises_trans; [exact (raises_trans _ _ _ H1 H2)|].
  auto with raises.
Qed.

Lemma raises_final_checks (s : state) : raises s (memory_final_checks s).
Proof.
  unfold memory_final_checks.
  eapply raises_trans; [apply raises_memory_checks|].
  cbv zeta. auto with raises.
Qed.

Lemma raises_end_checks (s : state) : raises s (end_checks s).
Proof.
  unfold end_checks. apply raises_if; [apply raises_final_checks | apply raises_refl].
Qed.

(** ** Test end: the pass/fail decision (C2) *)

(** The expectations are not touched by the final checks. *)
Lemma end_checks_expectations (s : state) :
  test_expect_fail (end_checks s) = test_expect_fail s
  /\ memory_expect_error (end_checks s) = memory_expect_error s
  /\ test_passed_count (end_checks s) = test_passed_count s
  /\ test_count (end_checks s) = test_count s.
Proof. destruct (raises_end_checks s). repeat split. Qed.

(** When the test has already failed, or memory testing is off, the decision
    is taken on the flags as they are on entry. *)
Lemma end_checks_skipped (s : state) :
  test_failed s = true \/ param_memory_test s = false -> end_checks s = s.
Proof.
  unfold end_checks. intros [H|H]; rewrite H; cbn; [reflexivity|].
  rewrite andb_false_r. reflexivity.
Qed.

Lemma end_passes_end_checks (s : state) :
  end_passes (set_test_count (test_count (end_checks s) + 1) (end_checks s))
  = negb (xorb (test_failed (end_checks s)) (test_expect_fail s))
    && negb (xorb (memory_error (end_checks s)) (memory_expect_error s)).
Proof.
  destruct (end_checks_expectations s) as (He & Hm & _).
  unfold end_passes. cbn. rewrite He, Hm.
  destruct (test_failed (end_checks s)), (test_expect_fail s),
    (memory_error (end_checks s)), (memory_expect_error s); reflexivity.
Qed.

Lemma end_passed_count (s : state) :
  test_in_progress s = true ->
  _cspec_end s = (true, snd (_cspec_end s))
  /\ test_count (snd (_cspec_end s)) = test_count s + 1
  /\ test_passed_count (snd (_cspec_end s))
     = test_passed_count s
       + (if end_passes (set_test_count (test_count (end_checks s) + 1) (end_checks s))
          then 1 else 0).
Proof.
  intros Hin. unfold _cspec_end. rewrite Hin. cbn [negb snd].
  destruct (end_checks_expectations s) as (_ & _ & Hp & Hc).
  set (d := set_test_count (test_count (end_checks s) + 1) (end_checks s)).
  split; [reflexivity|].
  assert (Hd : test_passed_count d = test_passed_count s
               /\ test_count d = test_count s + 1).
  { subst d. cbn. rewrite Hc. auto. }
  destruct Hd as [Hdp Hdc]. clearbody d.
  destruct (end_passes d).
  - cbn. rewrite Hdp, Hdc. auto.
  - unfold _cspec_error_fn.
    repeat match goal with
           | |- context [if ?b then _ else _] => destruct b; cbn
           end; rewrite ?Hdp, ?Hdc; split; lia.
Qed.

(** What a memory error leaves alone: everything but [memory_error] and the
    trace. *)
Definition mem_blind {B : Type} (g : state -> B) : Prop :=
  forall s m l, g (set_error_log l (set_memory_error m s)) = g s.

Lemma blind_error_mem {B : Type} (g : state -> B) (msg : string) (s : state) :
  mem_blind g -> g (_cspec_error_mem msg s) = g s.
Proof.
  intros Hg. unfold _cspec_error_mem, log.
  destruct (test_in_progress s); [|reflexivity].
  rewrite <- (Hg s true (error_log s ++ [MemError msg])). reflexivity.
Qed.

Lemma blind_fold {B A : Type} (g : state -> B) (f : state -> A -> state)
    (l : list A) :
  (forall s x, g (f s x) = g s) -> forall s, g (fold_left f l s) = g s.
Proof.
  intros Hf. induction l as [|x l IH]; intros s; cbn; [reflexivity|].
  rewrite IH. apply Hf.
Qed.

(** What the check of a record leaves alone: [indeterminate_read] can
    change as well. *)
Definition check_blind {B : Type} (g : state -> B) : Prop :=
  mem_blind g /\ forall s u, g (set_indeterminate_read u s) = g s.

Lemma blind_read_slot {B : Type} (g : state -> B) (s : state) (i : Z) :
  check_blind g -> g (read_slot i s) = g s.
Proof.
  intros [_ Hg]. unfold read_slot.
  destruct (memory_records_written s i); [reflexivity | apply Hg].
Qed.

Lemma blind_check_record {B : Type} (g : state -> B) (s : state) (i : Z) :
  check_blind g -> g (check_record s i) = g s.
Proof.
  intros Hc. pose proof (proj1 Hc) as Hg.
  unfold check_record, check_after_free. cbv zeta.
  rewrite <- (blind_read_slot g s i Hc).
  generalize (read_slot i s). clear s. intros s.
  destruct (is_free _).
  - rewrite blind_fold.
    + destruct (memory_check_fence _ _); [reflexivity | apply blind_error_mem, Hg].
    + intros s' j. destruct (_ =? _); [reflexivity | apply blind_error_mem, Hg].
  - rewrite blind_error_mem by exact Hg.
    destruct (memory_check_fence _ _); [reflexivity | apply blind_error_mem, Hg].
Qed.

Lemma blind_memory_checks {B : Type} (g : state -> B) (s : state) :
  check_blind g -> g (memory_checks s) = g s.
Proof.
  intros Hc. pose proof (proj1 Hc) as Hg.
  unfold memory_checks, check_barriers.
  match goal with
  | |- g (if ?c then ?a else _) = _ =>
      assert (Ha : g a = g s); [|destruct c; [exact Ha|
        rewrite blind_error_mem by exact Hg; exact Ha]]
  end.
  rewrite blind_fold.
  - apply blind_fold. intros; apply blind_check_record, Hc.
  - intros s' i. destruct (_ && _); [reflexivity | apply blind_error_mem, Hg].
Qed.

(** The final checks fail the test itself only for a forced allocation
    failure that was requested and never happened. *)
Lemma test_failed_final_checks (s : state) :
  test_failed (memory_final_checks s) =
  test_failed s
  || (test_in_progress s
      && (fail_level M_WAS_EXPECTED <=? fail_level (memory_malloc_fail s))
      && (memory_malloc_forced_failures s =? 0)).
Proof.
  unfold memory_final_checks. cbv zeta.
  pose proof (blind_memory_checks test_failed s
                (conj (fun _ _ _ => eq_refl) (fun _ _ => eq_refl))) as Hf.
  pose proof (blind_memory_checks test_in_progress s
                (conj (fun _ _ _ => eq_refl) (fun _ _ => eq_refl))) as Hp.
  pose proof (blind_memory_checks memory_malloc_fail s
                (conj (fun _ _ _ => eq_refl) (fun _ _ => eq_refl))) as Hl.
  pose proof (blind_memory_checks memory_malloc_forced_failures s
                (conj (fun _ _ _ => eq_refl) (fun _ _ => eq_refl))) as Hn.
  rewrite Hl, Hn. clear Hl Hn.
  rewrite <- andb_assoc.
  destruct ((_ <=? _) && (_ =? 0)).
  - unfold _cspec_error_fn. rewrite Hp.
    destruct (test_in_progress s); cbn; rewrite ?Hf;
      destruct (test_failed s); reflexivity.
  - rewrite Hf, andb_false_r, orb_false_r. reflexivity.
Qed.

(** On a table whose counted slots are all written the final checks make
    no indeterminate read. *)
Lemma blind_check_record_written {B : Type} (g : state -> B) (s : state)
    (i : Z) :
  mem_blind g -> memory_records_written s i = true ->
  g (check_record s i) = g s.
Proof.
  intros Hg Hw. unfold check_record, check_after_free.
  rewrite (read_slot_written i s Hw). cbv zeta.
  destruct (is_free _).
  - rewrite blind_fold.
    + destruct (memory_check_fence _ _); [reflexivity | apply blind_error_mem, Hg].
    + intros s' j. destruct (_ =? _); [reflexivity | apply blind_error_mem, Hg].
  - rewrite blind_error_mem by exact Hg.
    destruct (memory_check_fence _ _); [reflexivity | apply blind_error_mem, Hg].
Qed.

Lemma blind_records_written {B : Type} (g : state -> B) (l : list Z) :
  mem_blind g ->
  forall s,
    (forall i, In i l -> memory_records_written s i = true) ->
    g (fold_left check_record l s) = g s.
Proof.
  intros Hg. induction l as [|i l IH]; intros s Hw; cbn [fold_left];
    [reflexivity|].
  rewrite IH.
  - apply blind_check_record_written; [exact Hg|]. apply Hw. left. reflexivity.
  - intros j Hj.
    rewrite (blind_check_record memory_records_written s i
               (conj (fun _ _ _ => eq_refl) (fun _ _ => eq_refl))).
    apply Hw. right. exact Hj.
Qed.

Lemma final_checks_reads (s : state) :
  table_written s = true ->
  indeterminate_read (memory_final_checks s) = indeterminate_read s.
Proof.
  intros Htab.
  assert (Hg : mem_blind indeterminate_read) by (intros ? ? ?; reflexivity).
  assert (H : indeterminate_read (memory_checks s) = indeterminate_read s).
  { unfold memory_checks, check_barriers.
    match goal with
    | |- indeterminate_read (if ?c then ?a else _) = _ =>
        assert (Ha : indeterminate_read a = indeterminate_read s);
          [|destruct c; [exact Ha|
            rewrite blind_error_mem by exact Hg; exact Ha]]
    end.
    rewrite blind_fold.
    - apply blind_records_written; [exact Hg|].
      intros i Hi. apply In_upto in Hi.
      apply (proj1 (table_written_spec s) Htab), Hi.
    - intros s' i. destruct (_ && _); [reflexivity | apply blind_error_mem, Hg]. }
  unfold memory_final_checks. cbv zeta.
  revert H. generalize (memory_checks s). intros t H.
  unfold _cspec_error_fn, log.
  repeat match goal with
         | |- context [if ?b then _ else _] => destruct b; fields
         end; exact H.
Qed.

Lemma end_checks_reads (s : state) :
  end_defined s = true ->
  indeterminate_read (end_checks s) = indeterminate_read s.
Proof.
  unfold end_defined, end_checks. intros H.
  destruct (test_failed s); [reflexivity|].
  destruct (param_memory_test s); [|reflexivity].
  cbn [negb andb orb] in *. apply final_checks_reads, H.
Qed.

(** [_cspec_end] makes no indeterminate read where its behaviour is
    defined. *)
Lemma end_reads (s : state) :
  end_defined s = true ->
  indeterminate_read (snd (_cspec_end s)) = indeterminate_read s.
Proof.
  intros H. unfold _cspec_end.
  destruct (test_in_progress s); cbn [negb snd]; [|reflexivity].
  pose proof (end_checks_reads s H) as E.
  revert E. generalize (end_checks s). intros d E.
  unfold _cspec_error_fn, log.
  repeat match goal with
         | |- context [if ?b then _ else _] => destruct b; fields
         end; exact E.
Qed.

(** C2.  [_cspec_end] on a test in progress, with a record table the final
    checks can read ([end_defined]: they do not run, or every counted slot
    is written), increments [test_passed_count] exactly when (failed XOR
    expected-to-fail) is false and (memory-error XOR memory-error-expected)
    is false, the failure flags being those on which the function decides,
    that is after its final memory checks; otherwise the passed count is
    unchanged.  The run counter is incremented in both cases, and the call
    makes no indeterminate read. *)
Theorem end_counts_pass_iff (s : state) :
  test_in_progress s = true ->
  end_defined s = true ->
  let d := end_checks s in
  let s' := snd (_cspec_end s) in
  let matches :=
    xorb (test_failed d) (test_expect_fail s) = false
    /\ xorb (memory_error d) (memory_expect_error s) = false in
  (test_passed_count s' = test_passed_count s + 1 <-> matches)
  /\ (~ matches -> test_passed_count s' = test_passed_count s)
  /\ test_count s' = test_count s + 1
  /\ fst (_cspec_end s) = true
  /\ indeterminate_read s' = indeterminate_read s.
Proof.
  intros Hin Hdef d s' matches. subst s' matches d.
  pose proof (end_reads s Hdef) as Hread.
  destruct (end_passed_count s Hin) as (Hr & Hc & Hp).
  rewrite Hp, end_passes_end_checks.
  destruct (xorb (test_failed (end_checks s)) (test_expect_fail s)),
    (xorb (memory_error (end_checks s)) (memory_expect_error s)); cbn;
    (split; [split; [intros; try lia; auto | intros [? ?]; try discriminate; lia]|]);
    (split; [intros H; try lia; exfalso; apply H; auto|]);
    (split; [exact Hc | split; [rewrite Hr; reflexivity | exact Hread]]).
Qed.

Lemma end_counts_pass_iff_witness :
  let s := snd (_cspec_begin 10 (pass_start initial_state)) in
  test_in_progress s = true
  /\ end_defined s = true
  /\ test_passed_count (snd (_cspec_end s)) = test_passed_count s + 1.
Proof.
  split; [reflexivity|]. split; [reflexivity|].
  destruct (end_counts_pass_iff
              (snd (_cspec_begin 10 (pass_start initial_state)))
              eq_refl eq_refl)
    as [[_ Hpass] _].
  apply Hpass. split; vm_compute; reflexivity.
Defined.

(** ** Tests declared with [expect(to_fail)] (C3) *)

(** A test that is expected to fail, raises a memory error (it frees a
    pointer outside the arena) and fails no assertion is not counted as
    passed: the memory error does not stand in for the expected failure. *)
Lemma to_fail_memory_error_not_passed :
  let s0 := snd (_cspec_begin 10 (pass_start initial_state)) in
  let s := cspec_free (Ptr 5000) (snd (_cspec_expect_to_fail s0)) in
  test_in_progress s = true
  /\ test_expect_fail s = true
  /\ memory_error s = true
  /\ error_log s = [MemError "free: invalid pointer, out of bounds"]
  /\ end_defined s = true
  /\ test_count (snd (_cspec_end s)) = test_count s + 1
  /\ test_passed_count (snd (_cspec_end s)) = test_passed_count s.
Proof. vm_compute. repeat split. Qed.

(** C3, as the code has it.  At [_cspec_end], with a record table the
    final checks can read ([end_defined]), a test carrying the fail
    expectation is counted as passed exactly when it has failed (an
    assertion failure during the run, or the design error of the final
    checks) and its memory outcome is the expected one; it is counted as
    failed whenever it has not failed, whatever memory errors it raised.  A
    test that failed an assertion is judged on its flags as they are on
    entry; one that did not fail and armed no forced allocation failure
    stays not failed.  The call makes no indeterminate read. *)
Theorem to_fail_counts (s : state) :
  test_in_progress s = true ->
  test_expect_fail s = true ->
  end_defined s = true ->
  let d := end_checks s in
  let s' := snd (_cspec_end s) in
  (test_passed_count s' = test_passed_count s + 1 <->
     test_failed d = true /\ memory_error d = memory_expect_error s)
  /\ (test_failed d = false ->
      test_passed_count s' = test_passed_count s
      /\ test_count s' = test_count s + 1)
  /\ (test_failed s = true -> d = s)
  /\ (test_failed s = false -> memory_malloc_fail s = M_NORMAL ->
      test_failed d = false)
  /\ indeterminate_read s' = indeterminate_read s.
Proof.
  intros Hin He Hdef d s'. subst d s'.
  pose proof (end_reads s Hdef) as Hread.
  destruct (end_passed_count s Hin) as (_ & Hc & Hp).
  rewrite Hp, end_passes_end_checks, He.
  split; [|split; [|split; [|split; [|exact Hread]]]].
  - destruct (test_failed (end_checks s)), (memory_error (end_checks s)),
      (memory_expect_error s); cbn; split; intros H;
      try (exfalso; lia); try lia; try (split; reflexivity);
      destruct H; congruence.
  - intros ->. cbn. split; [lia | exact Hc].
  - intros Hf. apply end_checks_skipped. auto.
  - intros Hf Hl. unfold end_checks. rewrite Hf. cbn.
    destruct (param_memory_test s); [|exact Hf].
    rewrite test_failed_final_checks, Hf, Hl. cbn.
    rewrite andb_false_r. reflexivity.
Qed.

Lemma to_fail_counts_witness :
  let s0 := snd (_cspec_begin 10 (pass_start initial_state)) in
  let s := _cspec_error_fn "line 11: expected 2 == 3" (snd (_cspec_expect_to_fail s0)) in
  test_in_progress s = true
  /\ test_expect_fail s = true
  /\ end_defined s = true
  /\ test_passed_count (snd (_cspec_end s)) = test_passed_count s + 1.
Proof.
  split; [reflexivity|]. split; [reflexivity|]. split; [reflexivity|].
  destruct (to_fail_counts
              (_cspec_error_fn "line 11: expected 2 == 3"
                 (snd (_cspec_expect_to_fail
                         (snd (_cspec_begin 10 (pass_start initial_state))))))
              eq_refl eq_refl eq_refl) as [[_ Hpass] _].
  apply Hpass. split; vm_compute; reflexivity.
Defined.

(** ** Arena exhaustion cannot be expected (C10) *)

(** A memory error that the test does not expect fails it. *)
Lemma unexpected_memory_error_fails (s : state) :
  test_in_progress s = true ->
  memory_error s = true ->
  memory_expect_error s = false ->
  test_passed_count (snd (_cspec_end s)) = test_passed_count s
  /\ test_count (snd (_cspec_end s)) = test_count s + 1.
Proof.
  intros Hin Hm He.
  destruct (end_passed_count s Hin) as (_ & Hc & Hp).
  rewrite Hp, end_passes_end_checks, He.
  destruct (raises_end_checks s) as [f m u l _ Hm' _]. cbn.
  rewrite (Hm' Hm). rewrite andb_false_r. split; [lia | exact Hc].
Qed.

(** C10.  When [cspec_malloc] finds the arena too small for the request it
    clears [memory_expect_error] and then records the out-of-memory error,
    counting no record slot; so a test that declared
    [expect(memory_errors)], has every counted slot of its record table
    written (no allocation of it went wrong on a broken fence) and then
    exhausts the arena is counted as failed by [_cspec_end], whose final
    checks make no indeterminate read. *)
Theorem exhausted_malloc_fails_test (s0 : state) (sz : Z) :
  test_in_progress s0 = true ->
  sandbox_inactive s0 = false ->
  param_memory_test s0 = true ->
  table_written s0 = true ->
  fail_level (memory_malloc_fail s0) < fail_level M_FAIL_ONCE ->
  sz <> 0 ->
  wrap (memory_ptr s0 + memory_size_fence * 2 + sz)
    >= memory_size_max - memory_size_fence * 2 ->
  let s1 := snd (_cspec_memory_expect_to_fail s0) in
  let r := cspec_malloc sz s1 in
  fst r = NULL
  /\ memory_expect_error (snd r) = false
  /\ memory_error (snd r) = true
  /\ error_log (snd r) =
     error_log s0 ++
     [MemError "malloc: ran out of test memory space! Increase limit from 4096 bytes."]
  /\ table_written (snd r) = true
  /\ test_passed_count (snd (_cspec_end (snd r))) = test_passed_count s0
  /\ test_count (snd (_cspec_end (snd r))) = test_count s0 + 1
  /\ indeterminate_read (snd (_cspec_end (snd r))) = indeterminate_read s0.
Proof.
  intros Hin Hact Hpm Htab Hlvl Hsz Hfull s1 r.
  assert (Hs1 : s1 = s0 \/ s1 = set_memory_expect_error true s0).
  { subst s1. unfold _cspec_memory_expect_to_fail, memory_directive_warning.
    rewrite Hpm. cbn. destruct (param_no_expect_fail s0); auto. }
  assert (Hr : r = (NULL,
                    _cspec_error_mem
                      "malloc: ran out of test memory space! Increase limit from 4096 bytes."
                      (set_memory_expect_error false s0))).
  { subst r. unfold cspec_malloc.
    assert (E1 : sandbox_inactive s1 = false) by (destruct Hs1 as [-> | ->]; exact Hact).
    assert (E2 : memory_malloc_fail s1 = memory_malloc_fail s0)
      by (destruct Hs1 as [-> | ->]; reflexivity).
    assert (E3 : memory_ptr s1 = memory_ptr s0)
      by (destruct Hs1 as [-> | ->]; reflexivity).
    assert (E4 : set_memory_expect_error false s1 = set_memory_expect_error false s0)
      by (destruct Hs1 as [-> | ->]; reflexivity).
    rewrite E1, E2, E3, E4.
    destruct (Z.eqb_spec sz 0); [contradiction|].
    destruct (Z.leb_spec (fail_level M_FAIL_ONCE) (fail_level (memory_malloc_fail s0)));
      [lia|].
    destruct (Z.geb_spec (wrap (memory_ptr s0 + memory_size_fence * 2 + sz))
                (memory_size_max - memory_size_fence * 2)); [reflexivity | lia]. }
  rewrite Hr. cbn [fst snd].
  set (e := _cspec_error_mem
              "malloc: ran out of test memory space! Increase limit from 4096 bytes."
              (set_memory_expect_error false s0)).
  assert (He : e = set_memory_error true
                     (log (MemError
                             "malloc: ran out of test memory space! Increase limit from 4096 bytes.")
                        (set_memory_expect_error false s0))).
  { subst e. unfold _cspec_error_mem. cbn. rewrite Hin. reflexivity. }
  clearbody e. subst e.
  destruct (unexpected_memory_error_fails
              (set_memory_error true
                 (log (MemError
                         "malloc: ran out of test memory space! Increase limit from 4096 bytes.")
                    (set_memory_expect_error false s0))))
    as [Hp Hc]; try reflexivity; [exact Hin|].
  repeat split; [exact Htab | exact Hp | exact Hc |].
  apply (end_reads
           (set_memory_error true
              (log (MemError
                      "malloc: ran out of test memory space! Increase limit from 4096 bytes.")
                 (set_memory_expect_error false s0)))).
  unfold end_defined. apply orb_true_iff. right. exact Htab.
Qed.

Lemma exhausted_malloc_fails_test_witness :
  let s0 := snd (_cspec_begin 10 (pass_start initial_state)) in
  let s1 := snd (_cspec_memory_expect_to_fail s0) in
  memory_expect_error s1 = true
  /\ table_written s0 = true
  /\ fst (cspec_malloc 999999 s1) = NULL
  /\ test_passed_count (snd (_cspec_end (snd (cspec_malloc 999999 s1)))) = 0.
Proof.
  split; [reflexivity|]. split; [reflexivity|].
  destruct (exhausted_malloc_fails_test
              (snd (_cspec_begin 10 (pass_start initial_state))) 999999)
    as (H1 & _ & _ & _ & _ & H5 & _);
    try reflexivity; try (vm_compute; congruence).
  split; [exact H1 | exact H5].
Defined.

(** ** Byte operations in closed form *)

Fixpoint fill (m : Z -> Z) (a c : Z) (n : nat) : Z -> Z :=
  match n with
  | O => m
  | S k => fill (upd m a c) (a + 1) c k
  end.

Fixpoint copy (m : Z -> Z) (a t : Z) (n : nat) : Z -> Z :=
  match n with
  | O => m
  | S k => copy (upd m a (m t)) (a + 1) (t + 1) k
  end.

(** Some offset of [a .. a+n) lies outside [_memory]. *)
Fixpoint oob_span (a : Z) (n : nat) : bool :=
  match n with
  | O => false
  | S k => negb (in_memory a) || oob_span (a + 1) k
  end.

Lemma state_eta (s : state) :
  s = set_out_of_bounds (out_of_bounds s) (set_memory (memory s) s).
Proof. destruct s; reflexivity. Qed.

Lemma cspec_memset_eq (n : nat) : forall (a c : Z) (s : state),
  cspec_memset a c n s =
  set_out_of_bounds (out_of_bounds s || oob_span a n)
    (set_memory (fill (memory s) a c n) s).
Proof.
  induction n as [|k IH]; intros a c s; cbn [cspec_memset fill oob_span].
  - rewrite orb_false_r. apply state_eta.
  - rewrite IH. unfold store. cbn. rewrite orb_assoc. reflexivity.
Qed.

Lemma cspec_memcpy_eq (n : nat) : forall (a t : Z) (s : state),
  cspec_memcpy a t n s =
  set_out_of_bounds (out_of_bounds s || oob_span a n)
    (set_memory (copy (memory s) a t n) s).
Proof.
  induction n as [|k IH]; intros a t s; cbn [cspec_memcpy copy oob_span].
  - rewrite orb_false_r. apply state_eta.
  - rewrite IH. unfold store. cbn. rewrite orb_assoc. reflexivity.
Qed.

Lemma fill_spec (n : nat) : forall (m : Z -> Z) (a c i : Z),
  fill m a c n i =
  if (a <=? i) && (i <? a + Z.of_nat n) then c else m i.
Proof.
  induction n as [|k IH]; intros m a c i; cbn [fill].
  - destruct (Z.leb_spec a i), (Z.ltb_spec i (a + Z.of_nat 0)); cbn; auto; lia.
  - rewrite IH. unfold upd.
    destruct (Z.leb_spec (a + 1) i), (Z.ltb_spec i (a + 1 + Z.of_nat k)),
      (Z.leb_spec a i), (Z.ltb_spec i (a + Z.of_nat (S k))),
      (Z.eqb_spec i a); cbn; auto; lia.
Qed.

Lemma fill_in (m : Z -> Z) (a c i n : Z) :
  a <= i < a + n -> fill m a c (Z.to_nat n) i = c.
Proof.
  intros H. rewrite fill_spec.
  destruct (Z.leb_spec a i), (Z.ltb_spec i (a + Z.of_nat (Z.to_nat n)));
    cbn; auto; lia.
Qed.

Lemma fill_out (m : Z -> Z) (a c i n : Z) :
  i < a \/ a + n <= i -> fill m a c (Z.to_nat n) i = m i.
Proof.
  intros H. rewrite fill_spec.
  destruct (Z.leb_spec a i), (Z.ltb_spec i (a + Z.of_nat (Z.to_nat n)));
    cbn; auto; lia.
Qed.

Lemma oob_span_inside (n : nat) : forall a : Z,
  - memory_size_barrier <= a ->
  a + Z.of_nat n <= memory_size_max + memory_size_barrier ->
  oob_span a n = false.
Proof.
  induction n as [|k IH]; intros a Hlo Hhi; cbn [oob_span]; [reflexivity|].
  rewrite IH by lia. unfold in_memory.
  destruct (Z.leb_spec (- memory_size_barrier) a),
    (Z.ltb_spec a (memory_size_max + memory_size_barrier)); cbn; auto; lia.
Qed.

Lemma oob_span_outside (n : nat) : forall a : Z,
  (0 < n)%nat ->
  memory_size_max + memory_size_barrier < a + Z.of_nat n ->
  oob_span a n = true.
Proof.
  induction n as [|k IH]; intros a Hn Hhi; [lia|]. cbn [oob_span].
  destruct k as [|k].
  - unfold in_memory.
    destruct (Z.ltb_spec a (memory_size_max + memory_size_barrier)); [lia|].
    rewrite andb_false_r. reflexivity.
  - rewrite (IH (a + 1)) by lia. apply orb_true_r.
Qed.

Lemma copy_out (n : nat) : forall (m : Z -> Z) (a t i : Z),
  i < a \/ a + Z.of_nat n <= i -> copy m a t n i = m i.
Proof.
  induction n as [|k IH]; intros m a t i H; cbn [copy]; [reflexivity|].
  rewrite IH by lia. unfold upd. destruct (Z.eqb_spec i a); [lia | reflexivity].
Qed.

(** A forward copy from a disjoint source, or from a source below the
    destination... here only the disjoint and source-first cases are needed:
    the source bytes read are the original ones when the destination starts
    at or after the end of the source. *)
Lemma copy_in (n : nat) : forall (m : Z -> Z) (a t i : Z),
  t + Z.of_nat n <= a ->
  a <= i < a + Z.of_nat n ->
  copy m a t n i = m (t + (i - a)).
Proof.
  induction n as [|k IH]; intros m a t i Hd Hi; [lia|]. cbn [copy].
  destruct (Z.eq_dec i a) as [->|Hne].
  - rewrite copy_out by lia. unfold upd. rewrite Z.eqb_refl. f_equal. lia.
  - rewrite IH by lia. unfold upd.
    destruct (Z.eqb_spec (t + 1 + (i - (a + 1))) a); [lia|]. f_equal. lia.
Qed.

(** ** Binary search over the record table *)

Lemma bsearch_loop_sound (fuel : nat) : forall key base lo hi i,
  bsearch_loop fuel key base lo hi = Some i ->
  lo <= i < hi /\ block (base i) + memory_size_fence = key.
Proof.
  induction fuel as [|k IH]; intros key base lo hi i; cbn [bsearch_loop];
    [discriminate|].
  destruct (Z.ltb_spec lo hi); [|discriminate].
  assert (Hmid : lo <= (lo + hi) / 2 < hi).
  { split; [apply Z.div_le_lower_bound | apply Z.div_lt_upper_bound]; lia. }
  unfold memory_record_compare.
  destruct (Z.gtb_spec key (block (base ((lo + hi) / 2)) + memory_size_fence)).
  - cbn. intros H'. apply IH in H'. lia.
  - destruct (Z.ltb_spec key (block (base ((lo + hi) / 2)) + memory_size_fence)).
    + cbn. intros H'. apply IH in H'. lia.
    + cbn. intros H'. injection H' as <-. lia.
Qed.

Definition ascending (base : Z -> MemoryRecord) (lo hi : Z) : Prop :=
  forall i j, lo <= i -> i < j -> j < hi -> block (base i) < block (base j).

Lemma bsearch_loop_complete (fuel : nat) : forall key base lo hi i,
  ascending base lo hi ->
  lo <= i < hi ->
  block (base i) + memory_size_fence = key ->
  hi - lo < Z.of_nat fuel ->
  bsearch_loop fuel key base lo hi = Some i.
Proof.
  induction fuel as [|k IH]; intros key base lo hi i Hasc Hi Hkey Hfuel; [lia|].
  cbn [bsearch_loop].
  destruct (Z.ltb_spec lo hi); [|lia].
  assert (Hmid : lo <= (lo + hi) / 2 < hi).
  { split; [apply Z.div_le_lower_bound | apply Z.div_lt_upper_bound]; lia. }
  set (mid := (lo + hi) / 2) in *.
  unfold memory_record_compare.
  destruct (Z.gtb_spec key (block (base mid) + memory_size_fence)).
  - cbn. apply IH; try assumption; try lia.
    + intros a b Ha Hab Hb. apply Hasc; lia.
    + destruct (Z_lt_le_dec mid i); [lia|].
      destruct (Z.eq_dec i mid) as [->|]; [lia|].
      pose proof (Hasc i mid); lia.
  - destruct (Z.ltb_spec key (block (base mid) + memory_size_fence)).
    + cbn. apply IH; try assumption; try lia.
      * intros a b Ha Hab Hb. apply Hasc; lia.
      * destruct (Z_lt_le_dec i mid); [lia|].
        destruct (Z.eq_dec i mid) as [->|]; [lia|].
        pose proof (Hasc mid i); lia.
    + cbn. f_equal.
      destruct (Z.eq_dec i mid) as [->|]; [reflexivity|].
      destruct (Z_lt_le_dec i mid).
      * pose proof (Hasc i mid); lia.
      * pose proof (Hasc mid i); lia.
Qed.

Lemma bsearch_found (key : Z) (base : Z -> MemoryRecord) (nmemb i : Z) :
  ascending base 0 nmemb ->
  0 <= i < nmemb ->
  block (base i) + memory_size_fence = key ->
  bsearch key base nmemb = Some i.
Proof.
  intros Hasc Hi Hkey. unfold bsearch.
  apply bsearch_loop_complete; try assumption. lia.
Qed.

Lemma bsearch_none (key : Z) (base : Z -> MemoryRecord) (nmemb : Z) :
  (forall i, 0 <= i < nmemb -> block (base i) + memory_size_fence <> key) ->
  bsearch key base nmemb = None.
Proof.
  intros Hno. unfold bsearch.
  destruct (bsearch_loop _ key base 0 nmemb) as [i|] eqn:E; [|reflexivity].
  apply bsearch_loop_sound in E. destruct E as [Hi Hk]. destruct (Hno i Hi Hk).
Qed.

Arguments fill : simpl never.
Arguments cspec_memset : simpl never.
Arguments cspec_memcpy : simpl never.
Arguments memory_test_reset : simpl never.
#[local] Opaque cspec_memset cspec_memcpy fill copy oob_span.
Arguments copy : simpl never.
Arguments oob_span : simpl never.
Arguments upto : simpl never.

(** ** The layout of the record table *)

(** Live records lie in the usable region below [memory_ptr], one after the
    other, each with room for its two fences. *)
Record layout (s : state) : Prop := mkLayout {
  layout_size : 0 <= memory_records_size s;
  layout_ptr : 0 <= memory_ptr s <= memory_size_max;
  layout_rec : forall i, 0 <= i < memory_records_size s ->
    0 < size (memory_records s i)
    /\ 0 <= block (memory_records s i)
    /\ block (memory_records s i) + memory_size_fence * 2
       + size (memory_records s i) <= memory_ptr s;
  layout_next : forall i, 0 <= i -> i + 1 < memory_records_size s ->
    block (memory_records s i) + memory_size_fence * 2
    + size (memory_records s i) <= block (memory_records s (i + 1))
}.

Lemma layout_ascending (s : state) :
  layout s -> ascending (memory_records s) 0 (memory_records_size s).
Proof.
  intros L i j Hi Hij Hj.
  assert (H : forall k : nat,
             i + 1 + Z.of_nat k < memory_records_size s ->
             block (memory_records s i)
             < block (memory_records s (i + 1 + Z.of_nat k))).
  { induction k as [|k IH]; intros Hk.
    - replace (i + 1 + Z.of_nat 0) with (i + 1) by lia.
      pose proof (layout_next s L i Hi ltac:(lia)).
      pose proof (layout_rec s L i ltac:(lia)). unfold memory_size_fence in *. lia.
    - replace (i + 1 + Z.of_nat (S k)) with (i + 1 + Z.of_nat k + 1) by lia.
      pose proof (layout_next s L (i + 1 + Z.of_nat k) ltac:(lia) ltac:(lia)).
      pose proof (layout_rec s L (i + 1 + Z.of_nat k) ltac:(lia)).
      specialize (IH ltac:(lia)). unfold memory_size_fence in *. lia. }
  specialize (H (Z.to_nat (j - i - 1))).
  replace (i + 1 + Z.of_nat (Z.to_nat (j - i - 1))) with j in H by lia.
  apply H. lia.
Qed.

(** What [_cspec_error_mem] does while a test is in progress. *)
Definition raise (message : string) (s : state) : state :=
  set_memory_error true (log (MemError message) s).

Lemma error_mem_in_progress (message : string) (s : state) :
  test_in_progress s = true -> _cspec_error_mem message s = raise message s.
Proof. intros H. unfold _cspec_error_mem. rewrite H. reflexivity. Qed.

(** ** The slots the search reads *)

(** A read changes nothing but [indeterminate_read]. *)
Lemma read_slot_marks (i : Z) (s : state) :
  exists u, read_slot i s = set_indeterminate_read u s.
Proof.
  unfold read_slot. destruct (memory_records_written s i).
  - exists (indeterminate_read s). destruct s. reflexivity.
  - exists true. reflexivity.
Qed.

Lemma reads_mark (l : list Z) : forall s,
  exists u, fold_left (fun s i => read_slot i s) l s
            = set_indeterminate_read u s.
Proof.
  induction l as [|i l IH]; intros s; cbn [fold_left].
  - exists (indeterminate_read s). destruct s. reflexivity.
  - destruct (read_slot_marks i s) as [u ->].
    destruct (IH (set_indeterminate_read u s)) as [v ->].
    exists v. reflexivity.
Qed.

Lemma reads_written (l : list Z) (s : state) :
  (forall i, In i l -> memory_records_written s i = true) ->
  fold_left (fun s i => read_slot i s) l s = s.
Proof.
  intros H. induction l as [|i l IH]; cbn [fold_left]; [reflexivity|].
  rewrite read_slot_written by (apply H; left; reflexivity).
  apply IH. intros j Hj. apply H. right. exact Hj.
Qed.

Lemma bsearch_probes_range (fuel : nat) : forall key base lo hi j,
  In j (bsearch_probes fuel key base lo hi) -> lo <= j < hi.
Proof.
  induction fuel as [|k IH]; intros key base lo hi j; cbn [bsearch_probes];
    [intros []|].
  destruct (Z.ltb_spec lo hi); [|intros []].
  assert (Hmid : lo <= (lo + hi) / 2 < hi).
  { split; [apply Z.div_le_lower_bound | apply Z.div_lt_upper_bound]; lia. }
  cbv zeta. intros [<- | H']; [exact Hmid|].
  destruct (_ =? 0); [destruct H'|].
  destruct (_ <? 0); apply IH in H'; lia.
Qed.

Lemma search_reads_written (key : Z) (s : state) :
  table_written s = true -> search_reads key s = s.
Proof.
  intros H. unfold search_reads. apply reads_written.
  intros i Hi. apply bsearch_probes_range in Hi.
  apply (proj1 (table_written_spec s) H). exact Hi.
Qed.

Lemma search_reads_marks (key : Z) (s : state) :
  exists u, search_reads key s = set_indeterminate_read u s.
Proof. unfold search_reads. apply reads_mark. Qed.

(** ** [cspec_free] (C7) *)

(** The state after [cspec_free] has found record [i]. *)
Definition freed (i : Z) (s : state) : state :=
  let record := memory_records s i in
  let s := if is_free record
           then _cspec_error_mem "free: pointer already freed" s else s in
  let s := if memory_check_fence record s then s
           else _cspec_error_mem "free: broken fence" s in
  let s := cspec_memset (block record + memory_size_fence) byte_F
             (Z.to_nat (size record)) s in
  let s := set_memory_records
             (upd (memory_records s) i
                (mkRecord (size record) (block record) true)) s in
  set_memory_count_frees (memory_count_frees s + 1) s.

(** On a table sorted by address the search finds the record whose payload
    starts at the pointer. *)
Lemma free_finds (s : state) (i : Z) :
  sandbox_inactive s = false ->
  ascending (memory_records s) 0 (memory_records_size s) ->
  0 <= i < memory_records_size s ->
  0 <= block (memory_records s i) + memory_size_fence < memory_size_max ->
  cspec_free (Ptr (block (memory_records s i) + memory_size_fence)) s
  = freed i (search_reads (block (memory_records s i) + memory_size_fence) s).
Proof.
  intros Hact Hasc Hi Hin.
  set (p := block (memory_records s i) + memory_size_fence) in *.
  unfold cspec_free. rewrite Hact.
  destruct (Z.ltb_spec p 0); [subst p; lia|].
  destruct (Z.geb_spec p memory_size_max); [subst p; lia|].
  cbn [orb]. cbv zeta.
  destruct (search_reads_marks p s) as [u E]. rewrite E. fields.
  subst p. rewrite (bsearch_found _ _ _ i Hasc Hi eq_refl).
  reflexivity.
Qed.

(** The mark of an indeterminate read goes through [freed] untouched. *)
Lemma error_mem_marked (msg : string) (u : bool) (s : state) :
  _cspec_error_mem msg (set_indeterminate_read u s)
  = set_indeterminate_read u (_cspec_error_mem msg s).
Proof.
  unfold _cspec_error_mem. fields. destruct (test_in_progress s); reflexivity.
Qed.

Lemma freed_marked (i : Z) (u : bool) (s : state) :
  freed i (set_indeterminate_read u s) = set_indeterminate_read u (freed i s).
Proof.
  unfold freed. fields. set (r := memory_records s i).
  assert (H : forall a,
             (let b := if memory_check_fence r (set_indeterminate_read u a)
                       then set_indeterminate_read u a
                       else _cspec_error_mem "free: broken fence"
                              (set_indeterminate_read u a) in
              let c := cspec_memset (block r + memory_size_fence) byte_F
                         (Z.to_nat (size r)) b in
              set_memory_count_frees (memory_count_frees c + 1)
                (set_memory_records
                   (upd (memory_records c) i
                      (mkRecord (size r) (block r) true)) c))
             = set_indeterminate_read u
                 (let b := if memory_check_fence r a then a
                           else _cspec_error_mem "free: broken fence" a in
                  let c := cspec_memset (block r + memory_size_fence) byte_F
                             (Z.to_nat (size r)) b in
                  set_memory_count_frees (memory_count_frees c + 1)
                    (set_memory_records
                       (upd (memory_records c) i
                          (mkRecord (size r) (block r) true)) c))).
  { intros a. cbv zeta.
    change (memory_check_fence r (set_indeterminate_read u a))
      with (memory_check_fence r a).
    rewrite error_mem_marked.
    destruct (memory_check_fence r a); rewrite !cspec_memset_eq; reflexivity. }
  cbv zeta in H.
  destruct (is_free r).
  - rewrite error_mem_marked. apply H.
  - apply H.
Qed.

(** With a table laid out by the allocator; what the search has read is
    all that can differ. *)
Lemma free_found_marked (s : state) (i : Z) :
  sandbox_inactive s = false ->
  layout s ->
  0 <= i < memory_records_size s ->
  exists u,
    cspec_free (Ptr (block (memory_records s i) + memory_size_fence)) s
    = set_indeterminate_read u (freed i s).
Proof.
  intros Hact L Hi.
  pose proof (layout_rec s L i Hi) as (Hsz & Hb & He).
  pose proof (layout_ptr s L) as Hp.
  rewrite free_finds;
    [| exact Hact | apply layout_ascending, L | exact Hi
     | unfold memory_size_fence, memory_size_max in *; lia].
  destruct (search_reads_marks
              (block (memory_records s i) + memory_size_fence) s) as [u ->].
  exists u. apply freed_marked.
Qed.

Lemma free_found (s : state) (i : Z) :
  sandbox_inactive s = false ->
  layout s ->
  table_written s = true ->
  0 <= i < memory_records_size s ->
  cspec_free (Ptr (block (memory_records s i) + memory_size_fence)) s
  = freed i s.
Proof.
  intros Hact L Htab Hi.
  pose proof (layout_rec s L i Hi) as (Hsz & Hb & He).
  pose proof (layout_ptr s L) as Hp.
  rewrite free_finds;
    [| exact Hact | apply layout_ascending, L | exact Hi
     | unfold memory_size_fence, memory_size_max in *; lia].
  rewrite search_reads_written by exact Htab. reflexivity.
Qed.

Lemma freed_raises (s : state) (i : Z) :
  test_in_progress s = true ->
  let r := memory_records s i in
  let s' := freed i s in
  error_log s' =
    error_log s
    ++ (if is_free r then [MemError "free: pointer already freed"] else [])
    ++ (if memory_check_fence r s then [] else [MemError "free: broken fence"])
  /\ memory_error s' =
     memory_error s || is_free r || negb (memory_check_fence r s)
  /\ memory s' =
     fill (memory s) (block r + memory_size_fence) byte_F (Z.to_nat (size r))
  /\ memory_records s' =
     upd (memory_records s) i (mkRecord (size r) (block r) true)
  /\ memory_count_frees s' = memory_count_frees s + 1
  /\ memory_count_mallocs s' = memory_count_mallocs s
  /\ memory_records_size s' = memory_records_size s
  /\ memory_ptr s' = memory_ptr s
  /\ out_of_bounds s' =
     out_of_bounds s
     || oob_span (block r + memory_size_fence) (Z.to_nat (size r))
  /\ memory_malloc_fail s' = memory_malloc_fail s
  /\ memory_malloc_forced_failures s' = memory_malloc_forced_failures s
  /\ memory_records_written s' = memory_records_written s
  /\ indeterminate_read s' = indeterminate_read s.
Proof.
  intros Hin r s'. subst s'. unfold freed. fold r.
  assert (Hfence : forall msg,
             memory_check_fence r
               (if is_free r then _cspec_error_mem msg s else s)
             = memory_check_fence r s).
  { intros msg. destruct (is_free r); [|reflexivity].
    rewrite error_mem_in_progress by exact Hin. reflexivity. }
  rewrite Hfence. rewrite cspec_memset_eq.
  destruct (is_free r), (memory_check_fence r s);
    rewrite ?error_mem_in_progress
      by (rewrite ?error_mem_in_progress by exact Hin; exact Hin);
    cbn; rewrite ?orb_false_r, ?orb_true_r, ?app_nil_r, <- ?app_assoc;
    repeat split; reflexivity.
Qed.

Lemma freed_effect (s : state) (i : Z) :
  test_in_progress s = true ->
  layout s ->
  0 <= i < memory_records_size s ->
  let r := memory_records s i in
  let s' := freed i s in
  error_log s' =
    error_log s
    ++ (if is_free r then [MemError "free: pointer already freed"] else [])
    ++ (if memory_check_fence r s then [] else [MemError "free: broken fence"])
  /\ memory_error s' =
     memory_error s || is_free r || negb (memory_check_fence r s)
  /\ memory s' =
     fill (memory s) (block r + memory_size_fence) byte_F (Z.to_nat (size r))
  /\ memory_records s' =
     upd (memory_records s) i (mkRecord (size r) (block r) true)
  /\ memory_count_frees s' = memory_count_frees s + 1
  /\ memory_count_mallocs s' = memory_count_mallocs s
  /\ memory_records_size s' = memory_records_size s
  /\ memory_ptr s' = memory_ptr s
  /\ out_of_bounds s' = out_of_bounds s
  /\ memory_malloc_fail s' = memory_malloc_fail s
  /\ memory_malloc_forced_failures s' = memory_malloc_forced_failures s.
Proof.
  intros Hin L Hi r s'.
  pose proof (layout_rec s L i Hi) as (Hsz & Hb & He). fold r in Hsz, Hb, He.
  pose proof (layout_ptr s L) as Hp.
  assert (Hoob : oob_span (block r + memory_size_fence) (Z.to_nat (size r)) = false).
  { apply oob_span_inside; unfold memory_size_fence, memory_size_max,
      memory_size_barrier in *; lia. }
  destruct (freed_raises s i Hin)
    as (H1 & H2 & H3 & H4 & H5 & H6 & H7 & H8 & H9 & H10 & H11 & _).
  fold r in H9. rewrite Hoob, orb_false_r in H9.
  repeat split; assumption.
Qed.

Lemma freed_table (i : Z) (s : state) :
  test_in_progress s = true ->
  table_written (freed i s) = table_written s
  /\ indeterminate_read (freed i s) = indeterminate_read s.
Proof.
  intros Hin.
  destruct (freed_raises s i Hin)
    as (_ & _ & _ & _ & _ & _ & Hsz & _ & _ & _ & _ & Hw & Hir).
  split; [|exact Hir]. unfold table_written. rewrite Hsz, Hw. reflexivity.
Qed.

(** Both fences of a record are whole: seven bytes ['b'] before the
    payload, seven bytes ['e'] after it. *)
Definition fences_whole (r : MemoryRecord) (s : state) : Prop :=
  forall k, 0 <= k < memory_size_fence ->
    memory s (block r + k) = byte_b
    /\ memory s (block r + memory_size_fence + size r + k) = byte_e.

Lemma check_fence_whole (r : MemoryRecord) (s : state) :
  memory_check_fence r s = true <-> fences_whole r s.
Proof.
  unfold memory_check_fence, fences_whole. rewrite forallb_forall. split.
  - intros H k Hk. assert (Hi : In k (upto memory_size_fence)).
    { unfold upto. apply in_map_iff. exists (Z.to_nat k). split; [lia|].
      apply in_seq. lia. }
    specialize (H k Hi).
    apply andb_true_iff in H. destruct H as [H1 H2].
    apply Z.eqb_eq in H1, H2.
    replace (block r + memory_size_fence + size r + k)
      with (block r + k + memory_size_fence + size r) by lia. auto.
  - intros H k Hk. unfold upto in Hk. apply in_map_iff in Hk.
    destruct Hk as (n & <- & Hn). apply in_seq in Hn.
    destruct (H (Z.of_nat n) ltac:(lia)) as [-> H2].
    replace (block r + Z.of_nat n + memory_size_fence + size r)
      with (block r + memory_size_fence + size r + Z.of_nat n) by lia.
    rewrite H2. reflexivity.
Qed.

(** C7.  [cspec_free] during a test.  Freeing NULL does nothing.  A pointer
    outside the usable region raises the invalid-free error "out of bounds"
    and nothing else happens; so does, with the error "not malloc result", a
    pointer inside it that is the payload start of no record.  For the
    payload start of a record of a table sorted by address (the order the
    binary search presupposes), the record lying inside the arena: the
    double-free error is raised exactly when the record is marked free, the
    corruption error exactly when a byte of one of its fences is not the
    fence byte; a live record with whole fences raises nothing; and in each
    of these cases the payload is overwritten with ['F'], the record is
    marked free and the free counter goes up by one.  Where the search
    reads the table, every counted slot is taken to be written: the call
    then reads written slots only. *)
Theorem free_raises_exactly (s : state) :
  sandbox_inactive s = false ->
  test_in_progress s = true ->
  cspec_free NULL s = s
  /\ (forall p, p < 0 \/ memory_size_max <= p ->
        cspec_free (Ptr p) s = raise "free: invalid pointer, out of bounds" s)
  /\ (forall p, 0 <= p < memory_size_max ->
        table_written s = true ->
        (forall i, 0 <= i < memory_records_size s ->
           block (memory_records s i) + memory_size_fence <> p) ->
        cspec_free (Ptr p) s
        = raise "free: invalid pointer, not malloc result" s)
  /\ (forall i, 0 <= i < memory_records_size s ->
        table_written s = true ->
        ascending (memory_records s) 0 (memory_records_size s) ->
        let r := memory_records s i in
        let p := block r + memory_size_fence in
        0 <= block r ->
        0 <= size r ->
        p + size r + memory_size_fence <= memory_size_max ->
        let s' := cspec_free (Ptr p) s in
        let double :=
          if is_free r then [MemError "free: pointer already freed"] else [] in
        (fences_whole r s ->
           error_log s' = error_log s ++ double
           /\ memory_error s' = memory_error s || is_free r)
        /\ (~ fences_whole r s ->
            error_log s' =
              error_log s ++ double ++ [MemError "free: broken fence"]
            /\ memory_error s' = true)
        /\ (forall j, 0 <= j < size r -> memory s' (p + j) = byte_F)
        /\ (forall a, a < p \/ p + size r <= a -> memory s' a = memory s a)
        /\ memory_records s' i = mkRecord (size r) (block r) true
        /\ (forall j, j <> i -> memory_records s' j = memory_records s j)
        /\ memory_count_frees s' = memory_count_frees s + 1
        /\ memory_records_size s' = memory_records_size s
        /\ out_of_bounds s' = out_of_bounds s
        /\ indeterminate_read s' = indeterminate_read s).
Proof.
  intros Hact Hin. split; [|split; [|split]].
  - unfold cspec_free. rewrite Hact. reflexivity.
  - intros p Hp. unfold cspec_free. rewrite Hact.
    destruct (Z.ltb_spec p 0), (Z.geb_spec p memory_size_max); cbn [orb];
      try (apply error_mem_in_progress, Hin); lia.
  - intros p Hp Htab Hno. unfold cspec_free. rewrite Hact.
    destruct (Z.ltb_spec p 0), (Z.geb_spec p memory_size_max); cbn [orb]; try lia.
    cbv zeta. rewrite search_reads_written by exact Htab.
    rewrite (bsearch_none _ _ _ Hno). apply error_mem_in_progress, Hin.
  - intros i Hi Htab Hasc r p Hb Hsz Hfit s' double. subst s' double p r.
    rewrite (free_finds s i Hact Hasc Hi)
      by (unfold memory_size_fence, memory_size_max in *; lia).
    rewrite search_reads_written by exact Htab.
    destruct (freed_raises s i Hin)
      as (Hlog & Herr & Hmem & Hrec & Hfr & _ & Hsize & _ & Hoob & _ & _ & _
          & Hir).
    revert Hb Hsz Hfit Hlog Herr Hmem Hrec Hfr Hsize Hoob Hir.
    generalize (freed i s). generalize (memory_records s i).
    intros r s' Hb Hsz Hfit Hlog Herr Hmem Hrec Hfr Hsize Hoob Hir.
    rewrite oob_span_inside, orb_false_r in Hoob
      by (unfold memory_size_fence, memory_size_max, memory_size_barrier in *;
          lia).
    pose proof (check_fence_whole r s) as Hw.
    repeat split; try assumption.
    + rewrite Hlog. apply Hw in H. rewrite H, app_nil_r. reflexivity.
    + rewrite Herr. apply Hw in H. rewrite H. apply orb_false_r.
    + rewrite Hlog.
      destruct (memory_check_fence r s); [|reflexivity].
      destruct H. apply Hw. reflexivity.
    + rewrite Herr.
      destruct (memory_check_fence r s); [|apply orb_true_r].
      destruct H. apply Hw. reflexivity.
    + intros j Hj. rewrite Hmem. apply fill_in. lia.
    + intros a Ha. rewrite Hmem. apply fill_out. lia.
    + rewrite Hrec. unfold upd. rewrite Z.eqb_refl. reflexivity.
    + intros j Hj. rewrite Hrec. unfold upd.
      destruct (Z.eqb_spec j i); [contradiction | reflexivity].
Qed.

(** ** Reset and allocation *)

(** A sandbox as [memory_test_reset] leaves it, with a test in progress. *)
Record fresh (s : state) : Prop := mkFresh {
  fresh_active : sandbox_inactive s = false;
  fresh_in_progress : test_in_progress s = true;
  fresh_size : memory_records_size s = 0;
  fresh_capacity : 0 < memory_records_capacity s;
  fresh_ptr : memory_ptr s = 0;
  fresh_mallocs : memory_count_mallocs s = 0;
  fresh_frees : memory_count_frees s = 0;
  fresh_fail : memory_malloc_fail s = M_NORMAL;
  fresh_no_error : memory_error s = false;
  fresh_barrier : forall i, 0 <= i < memory_size_barrier ->
    memory s (i - memory_size_barrier) = byte_FF
    /\ memory s (i + memory_size_max) = byte_FF
}.

(** Case analysis on every integer comparison of the goal. *)
Ltac cases_Z :=
  repeat match goal with
         | |- context [Z.leb ?a ?b] => destruct (Z.leb_spec a b)
         | |- context [Z.ltb ?a ?b] => destruct (Z.ltb_spec a b)
         | |- context [Z.geb ?a ?b] => destruct (Z.geb_spec a b)
         | |- context [Z.gtb ?a ?b] => destruct (Z.gtb_spec a b)
         | |- context [Z.eqb ?a ?b] => destruct (Z.eqb_spec a b)
         end.

Ltac consts :=
  unfold memory_size_fence, memory_size_max, memory_size_barrier in *.

Lemma reset_memory (s : state) (i : Z) :
  memory (memory_test_reset true s) i =
  if (memory_size_max <=? i) && (i <? memory_size_max + memory_size_barrier)
  then byte_FF
  else if (0 <=? i) && (i <? memory_size_max) then byte_X
  else if (- memory_size_barrier <=? i) && (i <? 0) then byte_FF
  else memory s i.
Proof.
  unfold memory_test_reset. cbn [negb]. cbv zeta. rewrite !cspec_memset_eq.
  cbn [memory set_memory set_out_of_bounds].
  match goal with
  | |- context [memory (if ?c then ?a else ?b)] =>
      replace (memory (if c then a else b)) with (memory s)
        by (destruct c; reflexivity)
  end.
  rewrite !fill_spec, !Z2Nat.id by (consts; lia).
  cases_Z; cbn; try reflexivity; consts; lia.
Qed.

Lemma reset_in_bounds (s : state) :
  out_of_bounds (memory_test_reset true s) = out_of_bounds s.
Proof.
  unfold memory_test_reset. cbn [negb]. cbv zeta. rewrite !cspec_memset_eq.
  cbn [out_of_bounds set_memory set_out_of_bounds].
  rewrite !oob_span_inside by (consts; lia).
  rewrite !orb_false_r. destruct (memory_records_null _); reflexivity.
Qed.

Lemma reset_fields (s : state) :
  let t := memory_test_reset true s in
  memory_records_size t = 0
  /\ memory_ptr t = 0
  /\ memory_count_mallocs t = 0
  /\ memory_count_frees t = 0
  /\ memory_error t = false
  /\ memory_expect_error t = false
  /\ memory_malloc_fail t = M_NORMAL
  /\ memory_malloc_forced_failures t = 0
  /\ memory_records_null t
     = memory_records_null s && pointer_eqb (host_result s) NULL
  /\ memory_records_capacity t
     = (if memory_records_null s then 16 else memory_records_capacity s)
  /\ test_in_progress t = test_in_progress s
  /\ test_in_function t = test_in_function s
  /\ error_log t = error_log s.
Proof.
  unfold memory_test_reset. cbn [negb]. cbv zeta. rewrite !cspec_memset_eq.
  destruct s. cbn -[Z.to_nat fill oob_span].
  destruct memory_records_null0; cbn -[Z.to_nat fill oob_span]; repeat split.
Qed.

(** The engine's view of a state: what the context stack and the test
    begin/end functions read. *)
Record same_engine (s t : state) : Prop := mkSameEngine {
  same_in_progress : test_in_progress t = test_in_progress s;
  same_line : test_current_line t = test_current_line s;
  same_index : ctx_stack_index t = ctx_stack_index s;
  same_top : ctx_stack_top t = ctx_stack_top s;
  same_stack : ctx_stack t = ctx_stack s
}.

Lemma reset_same_engine (enable : bool) (s : state) :
  same_engine s (memory_test_reset enable s)
  /\ param_line (memory_test_reset enable s) = param_line s.
Proof.
  unfold memory_test_reset. destruct enable; cbn [negb]; cbv zeta.
  - rewrite !cspec_memset_eq.
    destruct s. cbn -[Z.to_nat fill oob_span].
    destruct memory_records_null0; cbn -[Z.to_nat fill oob_span];
      split; [constructor| |constructor|]; reflexivity.
  - split; [constructor|]; reflexivity.
Qed.

Lemma reset_barriers (s : state) (i : Z) :
  - memory_size_barrier <= i < 0
  \/ memory_size_max <= i < memory_size_max + memory_size_barrier ->
  memory (memory_test_reset true s) i = byte_FF.
Proof.
  intros Hi. rewrite reset_memory.
  cases_Z; cbn; try reflexivity; consts; lia.
Qed.

Lemma reset_usable (s : state) (i : Z) :
  0 <= i < memory_size_max ->
  memory (memory_test_reset true s) i = byte_X.
Proof.
  intros Hi. rewrite reset_memory.
  cases_Z; cbn; try reflexivity; consts; lia.
Qed.

#[local] Opaque memory_test_reset.

(** The sandbox that [before_pass] hands to a test is fresh, provided the
    record table exists or the host allocator can supply it. *)
Lemma fresh_after_reset (s : state) :
  (memory_records_null s = false /\ 0 < memory_records_capacity s)
  \/ (memory_records_null s = true /\ host_result s <> NULL) ->
  fresh (set_test_in_progress true
           (set_test_in_function true (memory_test_reset true s))).
Proof.
  intros Hrec.
  pose proof (reset_fields s) as H. cbv zeta in H.
  pose proof (reset_barriers s) as Hb.
  revert H Hb. generalize (memory_test_reset true s).
  intros t (Hsz & Hp & Hm & Hf & He & _ & Hl & _ & Hn & Hc & _) Hb.
  constructor; cbn; try assumption; try reflexivity.
  - unfold sandbox_inactive. cbn. rewrite Hn, orb_false_r.
    destruct Hrec as [[-> _] | [_ Hh]]; [reflexivity|].
    destruct (host_result s); [congruence|]. apply andb_false_r.
  - rewrite Hc. destruct Hrec as [[-> ?] | [-> _]]; [assumption | lia].
  - intros i Hi. split; apply Hb; consts; lia.
Qed.

Lemma wrap_small (z : Z) : 0 <= z < 2 ^ 64 -> wrap z = z.
Proof. intros H. unfold wrap. apply Z.mod_small. exact H. Qed.

(** The state after a [cspec_malloc] that succeeds. *)
Definition allocated (sz : Z) (s : state) : state :=
  let b := memory_ptr s in
  let i := memory_records_size s in
  set_memory_ptr (b + memory_size_fence * 2 + sz)
    (set_memory
       (fill
          (fill (fill (memory s) b byte_b (Z.to_nat memory_size_fence))
             (b + memory_size_fence) byte_N (Z.to_nat sz))
          (b + memory_size_fence + sz) byte_e (Z.to_nat memory_size_fence))
       (set_memory_records_written (upd (memory_records_written s) i true)
          (set_memory_records (upd (memory_records s) i (mkRecord sz b false))
             (set_memory_records_size (i + 1)
                (set_memory_records_capacity
                   (if memory_records_size s >=? memory_records_capacity s
                    then memory_records_capacity s * 3 / 2
                    else memory_records_capacity s)
                   (set_memory_count_mallocs (memory_count_mallocs s + 1)
                      s)))))).

Lemma malloc_ok (sz : Z) (s : state) :
  sandbox_inactive s = false ->
  0 < sz ->
  fail_level (memory_malloc_fail s) < fail_level M_FAIL_ONCE ->
  0 <= memory_ptr s ->
  memory_ptr s + memory_size_fence * 2 + sz
    < memory_size_max - memory_size_fence * 2 ->
  memory_records_size s < memory_records_capacity s \/ host_result s <> NULL ->
  memory_ptr s = 0 \/ preceding_fence_ok s = true ->
  cspec_malloc sz s = (Ptr (memory_ptr s + memory_size_fence), allocated sz s).
Proof.
  intros Hact Hsz Hlvl Hp Hfit Hcap Hfence. unfold cspec_malloc.
  rewrite Hact.
  destruct (Z.eqb_spec sz 0); [lia|].
  destruct (Z.leb_spec (fail_level M_FAIL_ONCE) (fail_level (memory_malloc_fail s)));
    [lia|].
  rewrite wrap_small by (consts; lia).
  destruct (Z.geb_spec (memory_ptr s + memory_size_fence * 2 + sz)
              (memory_size_max - memory_size_fence * 2)); [lia|].
  cbv zeta.
  cbn [memory_records_size memory_records_capacity host_result
       set_memory_count_mallocs].
  assert (Hgrow : (memory_records_size s >=? memory_records_capacity s)
                  && pointer_eqb (host_result s) NULL = false).
  { destruct (Z.geb_spec (memory_records_size s) (memory_records_capacity s));
      [|reflexivity].
    destruct Hcap as [|Hh]; [lia|]. destruct (host_result s); [congruence|reflexivity]. }
  rewrite Hgrow.
  match goal with
  | |- (if negb (memory_ptr ?t =? 0) && negb (preceding_fence_ok ?t) then _ else _) = _ =>
      assert (Hpf : negb (memory_ptr t =? 0) && negb (preceding_fence_ok t) = false)
  end.
  { unfold preceding_fence_ok.
    destruct (Z.geb_spec (memory_records_size s) (memory_records_capacity s));
      cbn [memory_ptr memory set_memory_records_size set_memory_records_capacity
           set_memory_count_mallocs];
      (destruct Hfence as [-> | Hok]; [reflexivity|];
       unfold preceding_fence_ok in Hok; rewrite Hok; apply andb_false_r). }
  rewrite Hpf. rewrite !cspec_memset_eq.
  unfold allocated.
  assert (H1 : oob_span (memory_ptr s) (Z.to_nat memory_size_fence) = false)
    by (apply oob_span_inside; consts; lia).
  assert (H2 : oob_span (memory_ptr s + memory_size_fence) (Z.to_nat sz) = false)
    by (apply oob_span_inside; consts; lia).
  assert (H3 : oob_span (memory_ptr s + memory_size_fence + sz)
                 (Z.to_nat memory_size_fence) = false)
    by (apply oob_span_inside; consts; lia).
  revert H1 H2 H3.
  generalize (Z.to_nat memory_size_fence), (Z.to_nat sz).
  intros nf nsz H1 H2 H3.
  destruct (memory_records_size s >=? memory_records_capacity s);
    (apply f_equal2; [fields; reflexivity|]);
    apply state_ext; fields; rewrite ?H1, ?H2, ?H3, ?orb_false_r;
    reflexivity.
Qed.

Lemma allocated_written (sz : Z) (s : state) :
  table_written s = true ->
  0 <= memory_records_size s ->
  table_written (allocated sz s) = true.
Proof.
  intros H H0. apply table_written_spec. unfold allocated. fields.
  intros i Hi. unfold upd.
  destruct (Z.eqb_spec i (memory_records_size s)); [reflexivity|].
  apply (proj1 (table_written_spec s) H). lia.
Qed.

Lemma fresh_written (s : state) : fresh s -> table_written s = true.
Proof.
  intros F. unfold table_written. rewrite (fresh_size s F). reflexivity.
Qed.

(** ** When the final checks find nothing *)

Lemma fold_left_fixed {A : Type} (f : state -> A -> state) (l : list A)
    (s : state) :
  (forall x, In x l -> f s x = s) -> fold_left f l s = s.
Proof.
  induction l as [|x l IH]; intros H; cbn; [reflexivity|].
  rewrite (H x (or_introl eq_refl)). apply IH. intros y Hy. apply H. now right.
Qed.

Lemma check_fence_spec (r : MemoryRecord) (s : state) :
  memory_check_fence r s = true <->
  forall i, 0 <= i < memory_size_fence ->
    memory s (block r + i) = byte_b
    /\ memory s (block r + i + memory_size_fence + size r) = byte_e.
Proof.
  unfold memory_check_fence. rewrite forallb_forall. split.
  - intros H i Hi. specialize (H i (proj2 (In_upto _ _) Hi)).
    apply andb_true_iff in H. destruct H as [H1 H2].
    apply Z.eqb_eq in H1, H2. auto.
  - intros H i Hi. apply In_upto in Hi. destruct (H i Hi) as [-> ->].
    reflexivity.
Qed.

(** The final checks leave the state as it is, raising nothing, when every
    counted slot is written, every record has whole fences, is freed and
    still holds the poison pattern, both barriers are whole, the counts
    agree and no forced failure is pending. *)
Lemma final_checks_clean (s : state) :
  table_written s = true ->
  (forall i, 0 <= i < memory_records_size s ->
     let r := memory_records s i in
     memory_check_fence r s = true
     /\ is_free r = true
     /\ forall j, 0 <= j < size r ->
          memory s (block r + memory_size_fence + j) = byte_F) ->
  (forall i, 0 <= i < memory_size_barrier ->
     memory s (i - memory_size_barrier) = byte_FF
     /\ memory s (i + memory_size_max) = byte_FF) ->
  memory_count_mallocs s = memory_count_frees s ->
  fail_level (memory_malloc_fail s) < fail_level M_WAS_EXPECTED
  \/ memory_malloc_forced_failures s <> 0 ->
  memory_final_checks s = s.
Proof.
  intros Htab Hrec Hbar Hcount Hfail.
  assert (H1 : fold_left check_record (upto (memory_records_size s)) s = s).
  { apply fold_left_fixed. intros i Hi. apply In_upto in Hi.
    destruct (Hrec i Hi) as (Hf & Hfree & Hp).
    unfold check_record.
    rewrite read_slot_written
      by (apply (proj1 (table_written_spec s) Htab), Hi).
    cbv zeta. rewrite Hf, Hfree. unfold check_after_free.
    apply fold_left_fixed. intros j Hj. apply In_upto in Hj.
    rewrite (Hp j Hj), Z.eqb_refl. reflexivity. }
  assert (H2 : check_barriers s = s).
  { unfold check_barriers. apply fold_left_fixed. intros i Hi.
    apply In_upto in Hi. destruct (Hbar i Hi) as [-> ->]. reflexivity. }
  unfold memory_final_checks, memory_checks. cbv zeta.
  rewrite H1, H2, Hcount, Z.eqb_refl.
  destruct Hfail as [Hl | Hn].
  - destruct (Z.leb_spec (fail_level M_WAS_EXPECTED)
                (fail_level (memory_malloc_fail s))); [lia | reflexivity].
  - destruct (Z.eqb_spec (memory_malloc_forced_failures s) 0); [lia|].
    rewrite andb_false_r. reflexivity.
Qed.

(** ** Test code writing into a block *)

(** [buffer[off] = byte] for each pair, [buffer] being the payload at [p]. *)
Definition user_writes (p : Z) (writes : list (Z * Z)) (s : state) : state :=
  fold_left (fun s w => store (p + fst w) (snd w) s) writes s.

Definition written (p : Z) (writes : list (Z * Z)) (m : Z -> Z) : Z -> Z :=
  fold_left (fun m w => upd m (p + fst w) (snd w)) writes m.

Lemma written_outside (p n : Z) (writes : list (Z * Z)) :
  Forall (fun w => 0 <= fst w < n) writes ->
  forall m a, a < p \/ p + n <= a -> written p writes m a = m a.
Proof.
  induction 1 as [|w ws Hw _ IH]; intros m a Ha; cbn; [reflexivity|].
  unfold written in IH. rewrite IH by exact Ha. unfold upd.
  destruct (Z.eqb_spec a (p + fst w)); [lia | reflexivity].
Qed.

Lemma user_writes_inside (p n : Z) (writes : list (Z * Z)) :
  Forall (fun w => 0 <= fst w < n) writes ->
  - memory_size_barrier <= p ->
  p + n <= memory_size_max + memory_size_barrier ->
  forall s,
    user_writes p writes s = set_memory (written p writes (memory s)) s.
Proof.
  intros Hw Hlo Hhi. induction Hw as [|w ws Hw _ IH]; intros s; cbn.
  - destruct s; reflexivity.
  - unfold user_writes in IH. rewrite IH. unfold store. cbn.
    replace (in_memory (p + fst w)) with true.
    + destruct s; cbn. rewrite orb_false_r. reflexivity.
    + symmetry. unfold in_memory. apply andb_true_iff.
      split; [apply Z.leb_le | apply Z.ltb_lt]; lia.
Qed.

(** ** Allocate, use, free (C4) *)

(** C4.  In a fresh sandbox during a test, for every size [n] that fits
    ([0 < n] and [n + 14 < 4082]), [cspec_malloc n] returns the non-NULL
    payload pointer [memory + 7]; after any writes of the test into payload
    offsets [[0, n)] and [cspec_free] of that pointer, the final checks raise
    nothing: they leave the state as it is, with no memory error recorded,
    an unchanged trace, one allocation and one release counted, and no store
    outside the arena. *)
Theorem malloc_free_clean (s : state) (n : Z) (writes : list (Z * Z)) :
  fresh s ->
  0 < n < memory_size_max - memory_size_fence * 4 ->
  Forall (fun w => 0 <= fst w < n) writes ->
  let p := memory_size_fence in
  fst (cspec_malloc n s) = Ptr p
  /\ let s1 := snd (cspec_malloc n s) in
     let s2 := user_writes p writes s1 in
     let s3 := cspec_free (Ptr p) s2 in
     memory_final_checks s3 = s3
     /\ memory_error s3 = false
     /\ error_log s3 = error_log s
     /\ out_of_bounds s3 = out_of_bounds s
     /\ memory_count_mallocs s3 = 1
     /\ memory_count_frees s3 = 1.
Proof.
  intros F Hn Hw p.
  assert (Hm : cspec_malloc n s = (Ptr p, allocated n s)).
  { rewrite malloc_ok.
    - rewrite (fresh_ptr s F). reflexivity.
    - apply (fresh_active s F).
    - lia.
    - rewrite (fresh_fail s F). cbn. lia.
    - rewrite (fresh_ptr s F). lia.
    - rewrite (fresh_ptr s F). consts. lia.
    - left. rewrite (fresh_size s F). apply (fresh_capacity s F).
    - left. apply (fresh_ptr s F). }
  rewrite Hm. cbn [fst snd]. split; [reflexivity|].
  rewrite (user_writes_inside p n writes Hw) by (subst p; consts; lia).
  assert (Hrec0 : memory_records (allocated n s) 0 = mkRecord n 0 false).
  { unfold allocated. fields. rewrite (fresh_size s F), (fresh_ptr s F).
    reflexivity. }
  assert (Hsize : memory_records_size (allocated n s) = 1).
  { unfold allocated. fields. rewrite (fresh_size s F). reflexivity. }
  assert (Hptr : memory_ptr (allocated n s) = memory_size_fence * 2 + n).
  { unfold allocated. fields. rewrite (fresh_ptr s F). lia. }
  assert (Hmem1 : forall a,
             memory (allocated n s) a =
             if (0 <=? a) && (a <? memory_size_fence) then byte_b
             else if (memory_size_fence <=? a) && (a <? memory_size_fence + n)
             then byte_N
             else if (memory_size_fence + n <=? a)
                     && (a <? memory_size_fence * 2 + n) then byte_e
             else memory s a).
  { intros a. unfold allocated. cbn [memory set_memory set_memory_ptr].
    rewrite (fresh_ptr s F), !fill_spec, !Z2Nat.id by (consts; lia).
    cases_Z; cbn; try reflexivity; consts; lia. }
  assert (Hact : sandbox_inactive (allocated n s) = false).
  { unfold allocated. fields. apply (fresh_active s F). }
  assert (Hin : test_in_progress (allocated n s) = true).
  { unfold allocated. fields. apply (fresh_in_progress s F). }
  assert (Htab1 : table_written (allocated n s) = true).
  { apply (allocated_written n s (fresh_written s F)).
    rewrite (fresh_size s F). lia. }
  assert (Hcm : memory_count_mallocs (allocated n s) = 1).
  { unfold allocated. fields. rewrite (fresh_mallocs s F). reflexivity. }
  assert (Hcf : memory_count_frees (allocated n s) = 0).
  { unfold allocated. fields. apply (fresh_frees s F). }
  assert (Hfl : fail_level (memory_malloc_fail (allocated n s)) = 0).
  { unfold allocated. fields. rewrite (fresh_fail s F). reflexivity. }
  assert (Herr1 : memory_error (allocated n s) = false).
  { unfold allocated. fields. apply (fresh_no_error s F). }
  assert (Hlog1 : error_log (allocated n s) = error_log s).
  { unfold allocated. fields. reflexivity. }
  assert (Hoob1 : out_of_bounds (allocated n s) = out_of_bounds s).
  { unfold allocated. fields. reflexivity. }
  revert Hrec0 Hsize Hptr Hmem1 Hact Hin Htab1 Hcm Hcf Hfl Herr1 Hlog1 Hoob1.
  generalize (allocated n s).
  intros t Hrec0 Hsize Hptr Hmem1 Hact Hin Htab1 Hcm Hcf Hfl Herr1 Hlog1 Hoob1.
  assert (Hmem : forall a, a < p \/ p + n <= a ->
                   memory (set_memory (written p writes (memory t)) t) a
                   = memory t a).
  { intros a Ha. cbn [memory set_memory].
    apply (written_outside p n writes Hw). exact Ha. }
  assert (Htab2 : table_written (set_memory (written p writes (memory t)) t)
                  = true).
  { unfold table_written in *. fields. exact Htab1. }
  assert (E : forall s2, s2 = set_memory (written p writes (memory t)) t ->
     memory_records s2 0 = mkRecord n 0 false
     /\ memory_records_size s2 = 1
     /\ memory_ptr s2 = memory_size_fence * 2 + n
     /\ sandbox_inactive s2 = false
     /\ test_in_progress s2 = true
     /\ memory_count_mallocs s2 = 1
     /\ memory_count_frees s2 = 0
     /\ fail_level (memory_malloc_fail s2) = 0
     /\ memory_error s2 = false
     /\ error_log s2 = error_log s
     /\ out_of_bounds s2 = out_of_bounds s).
  { intros s2 ->. fields. repeat split; assumption. }
  specialize (E _ eq_refl).
  revert Hmem Htab2 E.
  generalize (set_memory (written p writes (memory t)) t).
  intros s2 Hmem Htab2
    (Hrec2 & Hsize2 & Hptr2 & Hact2 & Hin2 & Hcm2 & Hcf2 & Hfl2 & Herr2 & Hlog2
     & Hoob2).
  clear Hrec0 Hsize Hptr Hact Hin Htab1 Hcm Hcf Hfl Herr1 Hlog1 Hoob1.
  assert (L : layout s2).
  { constructor; rewrite ?Hsize2, ?Hptr2; try (consts; lia).
    intros i Hi. assert (i = 0) by lia. subst i. rewrite Hrec2. cbn.
    consts. lia. }
  assert (Hfence : memory_check_fence (mkRecord n 0 false) s2 = true).
  { apply check_fence_spec. cbn [block size]. intros i Hi.
    rewrite !Hmem by (subst p; consts; lia). rewrite !Hmem1.
    split; cases_Z; cbn; try reflexivity; consts; lia. }
  pose proof (free_found s2 0 Hact2 L Htab2 ltac:(lia)) as Hfree.
  rewrite Hrec2 in Hfree. cbn [block] in Hfree.
  change (0 + memory_size_fence) with p in Hfree. rewrite Hfree.
  pose proof (freed_effect s2 0 Hin2 L ltac:(lia)) as Heff. cbv zeta in Heff.
  rewrite Hrec2 in Heff. cbn [is_free block size] in Heff.
  rewrite Hfence in Heff.
  destruct (freed_table 0 s2 Hin2) as [Htab3 _]. rewrite Htab2 in Htab3.
  revert Heff Htab3. generalize (freed 0 s2).
  intros s3 (Hlog & Herr & Hmemf & Hrecf & Hfr & Hma & Hsz & _ & Hoob & Hlv & _)
    Htab3.
  cbn [negb app] in Hlog, Herr.
  rewrite app_nil_r in Hlog. rewrite !orb_false_r in Herr.
  assert (Hbar : forall i, 0 <= i < memory_size_barrier ->
             memory s3 (i - memory_size_barrier) = byte_FF
             /\ memory s3 (i + memory_size_max) = byte_FF).
  { intros i Hi. rewrite Hmemf.
    rewrite !fill_out by (consts; lia).
    rewrite !Hmem by (subst p; consts; lia). rewrite !Hmem1.
    destruct (fresh_barrier s F i Hi) as [Hb1 Hb2].
    split; cases_Z; cbn; try assumption; consts; lia. }
  split; [|repeat split].
  - apply final_checks_clean.
    + exact Htab3.
    + rewrite Hsz, Hsize2. intros i Hi. assert (i = 0) by lia. subst i.
      rewrite Hrecf. unfold upd. cbn [Z.eqb size block is_free].
      split; [|split; [reflexivity|]].
      * apply check_fence_spec. cbn [block size]. intros i Hi'.
        rewrite Hmemf, !fill_out by (consts; lia).
        rewrite !Hmem by (subst p; consts; lia). rewrite !Hmem1.
        split; cases_Z; cbn; try reflexivity; consts; lia.
      * intros j Hj. rewrite Hmemf. apply fill_in. lia.
    + exact Hbar.
    + rewrite Hfr, Hma, Hcm2, Hcf2. reflexivity.
    + left. rewrite Hlv, Hfl2. cbn. lia.
  - rewrite Herr. exact Herr2.
  - rewrite Hlog. exact Hlog2.
  - rewrite Hoob. exact Hoob2.
  - rewrite Hma. exact Hcm2.
  - rewrite Hfr, Hcf2. reflexivity.
Qed.

(** The sandbox of the first test of a run. *)
Definition first_test : state :=
  set_test_in_progress true
    (set_test_in_function true (memory_test_reset true initial_state)).

Lemma fresh_first_test : fresh first_test.
Proof.
  apply fresh_after_reset. right. split; [reflexivity | discriminate].
Qed.

Lemma malloc_free_clean_witness :
  fresh first_test
  /\ 0 < 5 < memory_size_max - memory_size_fence * 4
  /\ fst (cspec_malloc 5 first_test) = Ptr memory_size_fence
  /\ memory_error
       (cspec_free (Ptr memory_size_fence)
          (user_writes memory_size_fence [(0, 33); (4, 33)]
             (snd (cspec_malloc 5 first_test)))) = false.
Proof.
  split; [exact fresh_first_test|].
  split; [unfold memory_size_max, memory_size_fence; lia|].
  destruct (malloc_free_clean first_test 5 [(0, 33); (4, 33)] fresh_first_test)
    as (Hp & _ & He & _).
  - unfold memory_size_max, memory_size_fence; lia.
  - repeat constructor; cbn; lia.
  - split; [exact Hp | exact He].
Defined.

(** ** The layout is kept *)

Lemma layout_fresh (s : state) : fresh s -> layout s.
Proof.
  intros F. constructor; rewrite ?(fresh_size s F), ?(fresh_ptr s F);
    try (consts; lia); intros; lia.
Qed.

Lemma layout_allocated (sz : Z) (s : state) :
  layout s ->
  0 < sz ->
  memory_ptr s + memory_size_fence * 2 + sz
    < memory_size_max - memory_size_fence * 2 ->
  layout (allocated sz s).
Proof.
  intros L Hsz Hfit. pose proof (layout_size s L) as H0.
  pose proof (layout_ptr s L) as Hp.
  constructor; unfold allocated; fields; try (consts; lia).
  - intros i Hi. unfold upd. destruct (Z.eqb_spec i (memory_records_size s)).
    + cbn [size block]. consts. lia.
    + pose proof (layout_rec s L i ltac:(lia)). consts. lia.
  - intros i Hi Hi2. unfold upd.
    destruct (Z.eqb_spec i (memory_records_size s)); [lia|].
    destruct (Z.eqb_spec (i + 1) (memory_records_size s)).
    + cbn [size block]. pose proof (layout_rec s L i ltac:(lia)). consts. lia.
    + apply (layout_next s L); lia.
Qed.

Lemma first_malloc :
  cspec_malloc 5 first_test = (Ptr memory_size_fence, allocated 5 first_test).
Proof.
  pose proof fresh_first_test as F.
  rewrite malloc_ok.
  - rewrite (fresh_ptr _ F). reflexivity.
  - apply (fresh_active _ F).
  - lia.
  - rewrite (fresh_fail _ F). cbn. lia.
  - rewrite (fresh_ptr _ F). lia.
  - rewrite (fresh_ptr _ F). consts. lia.
  - left. rewrite (fresh_size _ F). apply (fresh_capacity _ F).
  - left. apply (fresh_ptr _ F).
Qed.

Lemma layout_first_malloc : layout (allocated 5 first_test).
Proof.
  apply layout_allocated; [apply layout_fresh, fresh_first_test | lia |].
  rewrite (fresh_ptr _ fresh_first_test). consts. lia.
Qed.

Lemma allocated_in_test (sz : Z) (s : state) :
  sandbox_inactive (allocated sz s) = sandbox_inactive s
  /\ test_in_progress (allocated sz s) = test_in_progress s.
Proof. split; reflexivity. Qed.

(** A test that allocates five bytes and writes one byte too many: the
    first byte of the trailing fence is overwritten.  The block is then
    freed twice. *)
Lemma free_raises_exactly_witness :
  let s := store 12 0 (allocated 5 first_test) in
  let s1 := cspec_free (Ptr 7) s in
  sandbox_inactive s = false
  /\ test_in_progress s = true
  /\ ~ fences_whole (memory_records s 0) s
  /\ is_free (memory_records s 0) = false
  /\ error_log s1 = [MemError "free: broken fence"]
  /\ memory_records s1 0 = mkRecord 5 0 true
  /\ memory_count_frees s1 = 1
  /\ error_log (cspec_free (Ptr 7) s1) =
     [MemError "free: broken fence"; MemError "free: pointer already freed";
      MemError "free: broken fence"]
  /\ cspec_free NULL s = s
  /\ cspec_free (Ptr 5000) s = raise "free: invalid pointer, out of bounds" s.
Proof.
  intros s s1.
  assert (Ea : sandbox_inactive s = false) by (vm_compute; reflexivity).
  assert (Ei : test_in_progress s = true) by (vm_compute; reflexivity).
  assert (Ea1 : sandbox_inactive s1 = false) by (vm_compute; reflexivity).
  assert (Ei1 : test_in_progress s1 = true) by (vm_compute; reflexivity).
  assert (Hbroken : forall t, memory t 12 = 0 -> memory_records t 0 = mkRecord 5 0 false
                              \/ memory_records t 0 = mkRecord 5 0 true ->
                              ~ fences_whole (memory_records t 0) t).
  { intros t Hm Hr Hw. assert (H0 : 0 <= 0 < memory_size_fence) by (unfold memory_size_fence; lia).
    destruct (Hw 0 H0) as [_ He].
    destruct Hr as [Hr | Hr]; rewrite Hr in He; cbn in He;
      rewrite Hm in He; discriminate. }
  assert (Hb : ~ fences_whole (memory_records s 0) s).
  { apply Hbroken; [|left]; vm_compute; reflexivity. }
  assert (Hb1 : ~ fences_whole (memory_records s1 0) s1).
  { apply Hbroken; [|right]; vm_compute; reflexivity. }
  assert (Hone : forall t, memory_records_size t = 1 ->
                   0 <= 0 < memory_records_size t
                   /\ ascending (memory_records t) 0 (memory_records_size t)).
  { intros t E. rewrite E. split; [lia|]. intros i j Hi Hij Hj. lia. }
  destruct (Hone s) as [Hi Hasc]; [vm_compute; reflexivity|].
  destruct (Hone s1) as [Hi1 Hasc1]; [vm_compute; reflexivity|].
  destruct (free_raises_exactly s Ea Ei) as (N & O & _ & F).
  destruct (free_raises_exactly s1 Ea1 Ei1) as (_ & _ & _ & F1).
  specialize (F 0 Hi ltac:(vm_compute; reflexivity) Hasc).
  specialize (F1 0 Hi1 ltac:(vm_compute; reflexivity) Hasc1).
  cbv zeta in F, F1.
  assert (Er : memory_records s 0 = mkRecord 5 0 false) by (vm_compute; reflexivity).
  assert (Er1 : memory_records s1 0 = mkRecord 5 0 true) by (vm_compute; reflexivity).
  rewrite Er in F. rewrite Er1 in F1. cbn [block size is_free] in F, F1.
  change (0 + memory_size_fence) with 7 in F, F1.
  destruct F as (_ & Flog & _ & _ & Frec & _ & Ffr & _);
    [lia | lia | unfold memory_size_fence, memory_size_max; lia|].
  destruct F1 as (_ & Flog1 & _);
    [lia | lia | unfold memory_size_fence, memory_size_max; lia|].
  rewrite <- Er in Flog. rewrite <- Er1 in Flog1.
  destruct (Flog Hb) as [L _]. destruct (Flog1 Hb1) as [L1 _].
  fold s1 in L, L1, Frec, Ffr. rewrite L in L1.
  assert (El : error_log s = []) by (vm_compute; reflexivity).
  assert (Ef : memory_count_frees s = 0) by (vm_compute; reflexivity).
  rewrite El in L, L1. rewrite Ef in Ffr.
  split; [exact Ea|]. split; [exact Ei|]. split; [exact Hb|].
  split; [rewrite Er; reflexivity|].
  split; [exact L|]. split; [exact Er1|]. split; [exact Ffr|].
  split; [exact L1|]. split; [exact N|].
  apply O. right. unfold memory_size_max. lia.
Defined.

(** ** Freeing twice (C9) *)

Lemma memory_checks_clean (s : state) :
  table_written s = true ->
  (forall i, 0 <= i < memory_records_size s ->
     let r := memory_records s i in
     memory_check_fence r s = true
     /\ is_free r = true
     /\ forall j, 0 <= j < size r ->
          memory s (block r + memory_size_fence + j) = byte_F) ->
  (forall i, 0 <= i < memory_size_barrier ->
     memory s (i - memory_size_barrier) = byte_FF
     /\ memory s (i + memory_size_max) = byte_FF) ->
  memory_checks s =
  if memory_count_mallocs s =? memory_count_frees s then s
  else _cspec_error_mem "after: mismatched malloc/free calls" s.
Proof.
  intros Htab Hrec Hbar.
  assert (H1 : fold_left check_record (upto (memory_records_size s)) s = s).
  { apply fold_left_fixed. intros i Hi. apply In_upto in Hi.
    destruct (Hrec i Hi) as (Hf & Hfree & Hp).
    unfold check_record.
    rewrite read_slot_written
      by (apply (proj1 (table_written_spec s) Htab), Hi).
    cbv zeta. rewrite Hf, Hfree. unfold check_after_free.
    apply fold_left_fixed. intros j Hj. apply In_upto in Hj.
    rewrite (Hp j Hj), Z.eqb_refl. reflexivity. }
  assert (H2 : check_barriers s = s).
  { unfold check_barriers. apply fold_left_fixed. intros i Hi.
    apply In_upto in Hi. destruct (Hbar i Hi) as [-> ->]. reflexivity. }
  unfold memory_checks. cbv zeta. rewrite H1, H2. reflexivity.
Qed.

(** The first block of a fresh sandbox, right after its allocation. *)
Lemma first_block (s : state) (n : Z) :
  fresh s ->
  0 < n < memory_size_max - memory_size_fence * 4 ->
  let s1 := allocated n s in
  cspec_malloc n s = (Ptr memory_size_fence, s1)
  /\ layout s1
  /\ sandbox_inactive s1 = false
  /\ test_in_progress s1 = true
  /\ memory_records_size s1 = 1
  /\ memory_records s1 0 = mkRecord n 0 false
  /\ memory_count_mallocs s1 = 1
  /\ memory_count_frees s1 = 0
  /\ memory_malloc_fail s1 = M_NORMAL
  /\ memory_error s1 = false
  /\ error_log s1 = error_log s
  /\ out_of_bounds s1 = out_of_bounds s
  /\ forall a,
       memory s1 a =
       if (0 <=? a) && (a <? memory_size_fence) then byte_b
       else if (memory_size_fence <=? a) && (a <? memory_size_fence + n)
       then byte_N
       else if (memory_size_fence + n <=? a)
               && (a <? memory_size_fence * 2 + n) then byte_e
       else memory s a.
Proof.
  intros F Hn s1. subst s1.
  split; [|split; [|repeat split]].
  - rewrite malloc_ok.
    + rewrite (fresh_ptr s F). reflexivity.
    + apply (fresh_active s F).
    + lia.
    + rewrite (fresh_fail s F). cbn. lia.
    + rewrite (fresh_ptr s F). lia.
    + rewrite (fresh_ptr s F). consts. lia.
    + left. rewrite (fresh_size s F). apply (fresh_capacity s F).
    + left. apply (fresh_ptr s F).
  - apply layout_allocated; [apply layout_fresh, F | lia |].
    rewrite (fresh_ptr s F). consts. lia.
  - apply (fresh_active s F).
  - apply (fresh_in_progress s F).
  - unfold allocated. fields. rewrite (fresh_size s F). reflexivity.
  - unfold allocated. fields. rewrite (fresh_size s F), (fresh_ptr s F).
    reflexivity.
  - unfold allocated. fields. rewrite (fresh_mallocs s F). reflexivity.
  - apply (fresh_frees s F).
  - apply (fresh_fail s F).
  - apply (fresh_no_error s F).
  - intros a. unfold allocated. fields.
    rewrite (fresh_ptr s F), !fill_spec, !Z2Nat.id by (consts; lia).
    cases_Z; cbn; try reflexivity; consts; lia.
Qed.

Lemma layout_freed (s : state) (i : Z) :
  test_in_progress s = true ->
  layout s ->
  0 <= i < memory_records_size s ->
  layout (freed i s).
Proof.
  intros Hin L Hi.
  pose proof (freed_effect s i Hin L Hi) as H. cbv zeta in H.
  destruct H as (_ & _ & _ & Hrec & _ & _ & Hsz & Hp & _).
  constructor; rewrite ?Hsz, ?Hp, ?Hrec.
  - apply (layout_size s L).
  - apply (layout_ptr s L).
  - intros k Hk. unfold upd. destruct (Z.eqb_spec k i); subst;
      cbn [size block]; apply (layout_rec s L); assumption.
  - intros k Hk Hk2. unfold upd.
    destruct (Z.eqb_spec k i), (Z.eqb_spec (k + 1) i); subst;
      cbn [size block]; try lia; apply (layout_next s L); lia.
Qed.

Lemma freed_in_test (s : state) (i : Z) :
  test_in_progress (freed i s) = test_in_progress s
  /\ sandbox_inactive (freed i s) = sandbox_inactive s.
Proof.
  unfold freed. cbv zeta. rewrite cspec_memset_eq. unfold sandbox_inactive.
  fields.
  destruct (memory_check_fence _ _), (is_free _);
    rewrite ?(blind_error_mem test_in_progress) by (intros ? ? ?; reflexivity);
    rewrite ?(blind_error_mem memory_records_null) by (intros ? ? ?; reflexivity);
    rewrite ?(blind_error_mem test_in_function) by (intros ? ? ?; reflexivity);
    rewrite ?(blind_error_mem test_in_progress) by (intros ? ? ?; reflexivity);
    rewrite ?(blind_error_mem memory_records_null) by (intros ? ? ?; reflexivity);
    rewrite ?(blind_error_mem test_in_function) by (intros ? ? ?; reflexivity);
    split; reflexivity.
Qed.

(** C9.  Freeing the first block of a fresh sandbox twice: the second
    [cspec_free] reports the double free and still goes on to poison the
    payload again, mark the record free and count a second release; the
    final checks then see one allocation against two releases and raise the
    mismatch error on top. *)
Theorem double_free_falls_through (s : state) (n : Z) :
  fresh s ->
  0 < n < memory_size_max - memory_size_fence * 4 ->
  let p := Ptr memory_size_fence in
  let s1 := snd (cspec_malloc n s) in
  let s2 := cspec_free p s1 in
  let s3 := cspec_free p s2 in
  fst (cspec_malloc n s) = p
  /\ error_log s2 = error_log s
  /\ memory_count_frees s2 = 1
  /\ error_log s3 = error_log s ++ [MemError "free: pointer already freed"]
  /\ memory_error s3 = true
  /\ (forall j, 0 <= j < n -> memory s3 (memory_size_fence + j) = byte_F)
  /\ is_free (memory_records s3 0) = true
  /\ memory_count_mallocs s3 = 1
  /\ memory_count_frees s3 = 2
  /\ memory_final_checks s3 =
     raise "after: mismatched malloc/free calls" s3.
Proof.
  intros F Hn p s1 s2 s3. subst s3 s2 s1 p.
  pose proof (first_block s n F Hn) as H. cbv zeta in H.
  destruct H as (Hm & L1 & Ha1 & Hi1 & Hsz1 & Hr1 & Hma1 & Hfr1 & Hlv1 & He1
                 & Hlog1 & _ & Hmem1).
  rewrite Hm. cbn [fst snd]. split; [reflexivity|].
  assert (Ht1 : table_written (allocated n s) = true).
  { apply (allocated_written n s (fresh_written s F)).
    rewrite (fresh_size s F). lia. }
  revert L1 Ha1 Hi1 Hsz1 Hr1 Hma1 Hfr1 Hlv1 He1 Hlog1 Hmem1 Ht1.
  generalize (allocated n s).
  intros s1 L1 Ha1 Hi1 Hsz1 Hr1 Hma1 Hfr1 Hlv1 He1 Hlog1 Hmem1 Ht1.
  assert (Hf1 : memory_check_fence (mkRecord n 0 false) s1 = true).
  { apply check_fence_spec. cbn [block size]. intros i Hi. rewrite !Hmem1.
    split; cases_Z; cbn; try reflexivity; consts; lia. }
  (* the first free *)
  pose proof (free_found s1 0 Ha1 L1 Ht1 ltac:(lia)) as E1.
  rewrite Hr1 in E1. cbn [block] in E1.
  change (0 + memory_size_fence) with memory_size_fence in E1. rewrite E1.
  pose proof (freed_effect s1 0 Hi1 L1 ltac:(lia)) as H. cbv zeta in H.
  rewrite Hr1 in H. cbn [is_free block size] in H. rewrite Hf1 in H.
  pose proof (layout_freed s1 0 Hi1 L1 ltac:(lia)) as L2.
  destruct (freed_in_test s1 0) as [Hi2 Ha2]. rewrite Hi1 in Hi2. rewrite Ha1 in Ha2.
  destruct (freed_table 0 s1 Hi1) as [Ht2 _]. rewrite Ht1 in Ht2.
  revert H L2 Hi2 Ha2 Ht2. generalize (freed 0 s1).
  intros s2 (Hlog2 & Herr2 & Hmem2 & Hrec2 & Hfr2 & Hma2 & Hsz2 & _ & _ & Hlv2 & Hff2)
    L2 Hi2 Ha2 Ht2.
  cbn [app negb] in Hlog2, Herr2. rewrite app_nil_r in Hlog2.
  rewrite !orb_false_r in Herr2.
  assert (Hr2 : memory_records s2 0 = mkRecord n 0 true).
  { rewrite Hrec2. reflexivity. }
  assert (Hbytes2 : forall a,
             memory s2 a =
             if (memory_size_fence <=? a) && (a <? memory_size_fence + n)
             then byte_F else memory s1 a).
  { intros a. rewrite Hmem2, fill_spec, Z2Nat.id by lia.
    replace (0 + memory_size_fence) with memory_size_fence by lia. reflexivity. }
  assert (Hf2 : memory_check_fence (mkRecord n 0 true) s2 = true).
  { apply check_fence_spec. cbn [block size]. intros i Hi.
    rewrite !Hbytes2, !Hmem1.
    split; cases_Z; cbn; try reflexivity; consts; lia. }
  split; [congruence|]. split; [lia|].
  (* the second free *)
  pose proof (free_found s2 0 Ha2 L2 Ht2 ltac:(lia)) as E2.
  rewrite Hr2 in E2. cbn [block] in E2.
  change (0 + memory_size_fence) with memory_size_fence in E2. rewrite E2.
  pose proof (freed_effect s2 0 Hi2 L2 ltac:(lia)) as H. cbv zeta in H.
  rewrite Hr2 in H. cbn [is_free block size] in H. rewrite Hf2 in H.
  destruct (freed_in_test s2 0) as [Hi3 _]. rewrite Hi2 in Hi3.
  destruct (freed_table 0 s2 Hi2) as [Ht3 _]. rewrite Ht2 in Ht3.
  revert H Hi3 Ht3. generalize (freed 0 s2).
  intros s3 (Hlog3 & Herr3 & Hmem3 & Hrec3 & Hfr3 & Hma3 & Hsz3 & _ & _ & Hlv3 & Hff3)
    Hi3 Ht3.
  cbn [app negb] in Hlog3, Herr3.
  rewrite orb_true_r in Herr3. cbn [orb] in Herr3.
  assert (Hbytes3 : forall a,
             memory s3 a =
             if (memory_size_fence <=? a) && (a <? memory_size_fence + n)
             then byte_F else memory s1 a).
  { intros a. rewrite Hmem3, fill_spec, Z2Nat.id, Hbytes2 by lia.
    replace (0 + memory_size_fence) with memory_size_fence by lia.
    destruct ((memory_size_fence <=? a) && (a <? memory_size_fence + n));
      reflexivity. }
  assert (Hr3 : memory_records s3 0 = mkRecord n 0 true).
  { rewrite Hrec3. reflexivity. }
  repeat split.
  - rewrite Hlog3, Hlog2, Hlog1. reflexivity.
  - exact Herr3.
  - intros j Hj. rewrite Hbytes3.
    cases_Z; cbn; try reflexivity; lia.
  - rewrite Hr3. reflexivity.
  - lia.
  - lia.
  - unfold memory_final_checks. cbv zeta. rewrite memory_checks_clean.
    + replace (memory_count_mallocs s3 =? memory_count_frees s3) with false
        by (symmetry; apply Z.eqb_neq; lia).
      rewrite error_mem_in_progress by exact Hi3.
      unfold raise, log. fields. rewrite Hlv3, Hlv2, Hlv1. reflexivity.
    + exact Ht3.
    + rewrite Hsz3, Hsz2, Hsz1. intros i Hi. assert (i = 0) by lia. subst i.
      cbv zeta. rewrite Hr3. cbn [size block is_free].
      split; [|split; [reflexivity|]].
      * apply check_fence_spec. cbn [block size]. intros i Hi'.
        rewrite !Hbytes3, !Hmem1.
        split; cases_Z; cbn; try reflexivity; consts; lia.
      * intros j Hj. rewrite Hbytes3. cases_Z; cbn; try reflexivity; lia.
    + intros i Hi. rewrite !Hbytes3, !Hmem1.
      destruct (fresh_barrier s F i Hi) as [Hb1 Hb2].
      split; cases_Z; cbn; try assumption; consts; lia.
Qed.

Lemma double_free_falls_through_witness :
  fresh first_test
  /\ memory_count_frees
       (cspec_free (Ptr memory_size_fence)
          (cspec_free (Ptr memory_size_fence) (snd (cspec_malloc 5 first_test))))
     = 2.
Proof.
  split; [exact fresh_first_test|].
  assert (H5 : 0 < 5 < memory_size_max - memory_size_fence * 4)
    by (unfold memory_size_max, memory_size_fence; lia).
  exact (proj1 (proj2 (proj2 (proj2 (proj2 (proj2 (proj2 (proj2 (proj2
           (double_free_falls_through first_test 5 fresh_first_test H5)))))))))).
Defined.

(** ** Resizing the last block in place (C6) *)

(** C6.  The in-place path of [cspec_realloc] never checks the room left
    in the arena.  Growing the only block of a fresh sandbox from 8 to 5000
    bytes: the block is the last record, its fences are whole and no forced
    failure is armed; a [cspec_malloc] of 5000 bytes in the same state is
    refused with "ran out of test memory space"; the [cspec_realloc] returns
    the pointer and raises no error, and its stores of the fence and of the
    dirty bytes run beyond the end of [_memory]. *)
Lemma realloc_grows_out_of_memory :
  let s := snd (cspec_malloc 8 first_test) in
  let r := memory_records s (memory_records_size s - 1) in
  let p := block r + memory_size_fence in
  let s' := snd (cspec_realloc (Ptr p) 5000 s) in
  fst (cspec_malloc 8 first_test) = Ptr p
  /\ p = 7
  /\ size r = 8
  /\ table_written s = true
  /\ memory_check_fence r s = true
  /\ memory_malloc_fail s = M_NORMAL
  /\ out_of_bounds s = false
  /\ fst (cspec_malloc 5000 s) = NULL
  /\ error_log (snd (cspec_malloc 5000 s)) =
     [MemError
        "malloc: ran out of test memory space! Increase limit from 4096 bytes."]
  /\ fst (cspec_realloc (Ptr p) 5000 s) = Ptr p
  /\ error_log s' = []
  /\ memory_error s' = false
  /\ memory_ptr s' = 5014
  /\ out_of_bounds s' = true.
Proof. vm_compute. repeat split. Qed.

(** X30.  Resizing the last block in place, inside the usable region.
    When every counted slot of the record table is written, [p] is the
    payload of the last record, of size [m], both fences of the record are
    whole, no forced failure is armed, [n <> m], and the block at its old
    and at its new size ends, trailing fence included, inside the usable
    region: [cspec_realloc p n] returns [p]; the payload bytes at offsets
    below [min m n] are unchanged; the trailing fence is rewritten at offset
    [n]; when growing, offsets [[m, n)] hold ['N']; when shrinking, the
    [m - n] bytes behind the new fence hold ['X']; the record has size [n],
    [memory_ptr] ends the block, no error is raised, nothing is stored
    outside the arena and no unwritten slot is read. *)
Theorem realloc_in_place (s : state) (n : Z) :
  let last := memory_records_size s - 1 in
  let r := memory_records s last in
  let p := block r + memory_size_fence in
  let m := size r in
  sandbox_inactive s = false ->
  table_written s = true ->
  0 < memory_records_size s ->
  fail_level (memory_malloc_fail s) < fail_level M_FAIL_ONCE ->
  fences_whole r s ->
  n <> m ->
  0 <= n ->
  0 <= m ->
  0 <= block r ->
  p + Z.max m n + memory_size_fence <= memory_size_max ->
  let s' := snd (cspec_realloc (Ptr p) n s) in
  fst (cspec_realloc (Ptr p) n s) = Ptr p
  /\ (forall j, 0 <= j < Z.min m n -> memory s' (p + j) = memory s (p + j))
  /\ (forall i, 0 <= i < memory_size_fence -> memory s' (p + n + i) = byte_e)
  /\ (m < n -> forall j, m <= j < n -> memory s' (p + j) = byte_N)
  /\ (n < m -> forall j, 0 <= j < m - n ->
        memory s' (p + n + memory_size_fence + j) = byte_X)
  /\ memory_records s' last = mkRecord n (block r) (is_free r)
  /\ memory_ptr s' = p + n + memory_size_fence
  /\ out_of_bounds s' = out_of_bounds s
  /\ indeterminate_read s' = indeterminate_read s
  /\ error_log s' = error_log s.
Proof.
  intros last r p m Hact Htab Hsz Hlvl Hwhole Hnm Hn Hm Hblock Hroom s'.
  assert (Hfence : memory_check_fence r s = true)
    by (apply check_fence_whole, Hwhole).
  assert (Hread : read_slot last s = s).
  { apply read_slot_written, (proj1 (table_written_spec s) Htab).
    subst last. lia. }
  assert (Hlo : - memory_size_barrier <= p) by (subst p; consts; lia).
  assert (Hhi : p + Z.max m n + memory_size_fence
                <= memory_size_max + memory_size_barrier)
    by (consts; lia).
  clear Hblock Hroom Hwhole.
  assert (E : cspec_realloc (Ptr p) n s =
              (Ptr p,
               set_memory_ptr (p + n + memory_size_fence)
                 (set_memory_records
                    (upd (memory_records s) last (mkRecord n (block r) (is_free r)))
                    (if n >? m then
                       cspec_memset (p + m) byte_N (Z.to_nat (n - m))
                         (cspec_memset (p + n) byte_e (Z.to_nat memory_size_fence) s)
                     else
                       cspec_memset (p + n + memory_size_fence) byte_X
                         (Z.to_nat (m - n))
                         (cspec_memset (p + n) byte_e (Z.to_nat memory_size_fence) s))))).
  { unfold cspec_realloc. rewrite Hact.
    destruct (Z.eqb_spec (memory_records_size s) 0); [lia|].
    cbv zeta. fold last. fold r.
    destruct (Z.leb_spec (fail_level M_FAIL_ONCE) (fail_level (memory_malloc_fail s)));
      [lia|].
    rewrite Hread.
    fold p. rewrite Z.eqb_refl, Hfence. cbn [negb].
    fold m. destruct (Z.eqb_spec n m); [contradiction|].
    destruct (n >? m); rewrite !cspec_memset_eq; reflexivity. }
  subst s'. rewrite E. cbn [fst snd]. split; [reflexivity|].
  destruct (Z.gtb_spec n m); rewrite !cspec_memset_eq; fields;
    rewrite !oob_span_inside by (consts; lia); rewrite !orb_false_r;
    (repeat split;
     [ intros j Hj; rewrite !fill_spec, !Z2Nat.id by (consts; lia);
       cases_Z; cbn; try reflexivity; consts; lia
     | intros i Hi; rewrite !fill_spec, !Z2Nat.id by (consts; lia);
       cases_Z; cbn; try reflexivity; consts; lia
     | intros Hlt j Hj; rewrite !fill_spec, !Z2Nat.id by (consts; lia);
       cases_Z; cbn; try reflexivity; consts; lia
     | intros Hlt j Hj; rewrite !fill_spec, !Z2Nat.id by (consts; lia);
       cases_Z; cbn; try reflexivity; consts; lia
     | unfold upd; rewrite Z.eqb_refl; reflexivity ]).
Qed.

Lemma realloc_in_place_witness :
  let s := allocated 8 first_test in
  let r := memory_records s (memory_records_size s - 1) in
  let p := block r + memory_size_fence in
  table_written s = true
  /\ fences_whole r s
  /\ size r = 8
  /\ fst (cspec_realloc (Ptr p) 16 s) = Ptr p
  /\ forall j, 8 <= j < 16 ->
       memory (snd (cspec_realloc (Ptr p) 16 s)) (p + j) = byte_N.
Proof.
  intros s r p.
  assert (Htab : table_written s = true) by (vm_compute; reflexivity).
  assert (Hfence : fences_whole r s).
  { apply check_fence_whole. vm_compute. reflexivity. }
  assert (Hsize : size r = 8) by (vm_compute; reflexivity).
  split; [exact Htab|]. split; [exact Hfence|]. split; [exact Hsize|].
  destruct (realloc_in_place s 16) as (H1 & _ & _ & H4 & _).
  - vm_compute; reflexivity.
  - exact Htab.
  - vm_compute; reflexivity.
  - vm_compute; reflexivity.
  - exact Hfence.
  - vm_compute; discriminate.
  - lia.
  - vm_compute; discriminate.
  - vm_compute; discriminate.
  - vm_compute; discriminate.
  - split; [exact H1|]. intros j Hj. apply H4.
    + fold r. rewrite Hsize. lia.
    + fold r. rewrite Hsize. exact Hj.
Defined.

(** ** Resizing an earlier block (C5) *)

(** Two blocks of four bytes, [a] then [b]; the test fills [a] with ['A']
    and resizes it to eight bytes.  [a] is not the last record, so
    [cspec_realloc] allocates a third block, but it copies from and frees
    the record it looked up before, which is the last one, [b]:
    - the new payload starts with the leading fence of [b], not with the
      bytes of [a];
    - the copy is [size + 14] bytes long and runs over the trailing fence of
      the new block;
    - [a] stays allocated and [b] is marked free. *)
Lemma realloc_fallback_uses_last_record :
  let s1 := snd (cspec_malloc 4 first_test) in
  let a := fst (cspec_malloc 4 first_test) in
  let b := fst (cspec_malloc 4 s1) in
  let s2 := snd (cspec_malloc 4 s1) in
  let s3 := user_writes 7 [(0, 65); (1, 65); (2, 65); (3, 65)] s2 in
  let q := fst (cspec_realloc a 8 s3) in
  let s4 := snd (cspec_realloc a 8 s3) in
  a = Ptr 7 /\ b = Ptr 25 /\ q = Ptr 43
  /\ map (fun j => memory s3 (7 + j)) (upto 4) = [65; 65; 65; 65]
  /\ map (fun j => memory s4 (43 + j)) (upto 8)
     = [byte_b; byte_b; byte_b; byte_b; byte_b; byte_b; byte_b; byte_N]
  /\ is_free (memory_records s4 0) = false
  /\ is_free (memory_records s4 1) = true
  /\ memory_check_fence (memory_records s4 2) s4 = false
  /\ memory_count_mallocs s4 = 3
  /\ memory_count_frees s4 = 1.
Proof. vm_compute. repeat split. Qed.

(** ** The context stack stays within bounds (C8) *)

Lemma before_pass_engine (s : state) :
  test_in_progress (before_pass s) = test_in_progress s
  /\ test_current_line (before_pass s) = test_current_line s
  /\ ctx_stack_index (before_pass s) = 0
  /\ ctx_stack_top (before_pass s) = ctx_stack_top s
  /\ ctx_stack (before_pass s) = ctx_stack s
  /\ param_line (before_pass s) = param_line s.
Proof.
  unfold before_pass. cbv zeta. fields.
  set (s0 := set_test_skip false (set_test_expect_fail false (set_ctx_stack_index 0 s))).
  destruct (reset_same_engine (param_memory_test s) s0) as [[H1 H2 H3 H4 H5] H6].
  rewrite H1, H2, H3, H4, H5, H6. repeat split.
Qed.

Lemma end_engine (s : state) :
  test_in_progress (snd (_cspec_end s)) = false
  /\ test_current_line (snd (_cspec_end s)) = test_current_line s
  /\ ctx_stack_index (snd (_cspec_end s)) = ctx_stack_index s
  /\ ctx_stack_top (snd (_cspec_end s)) = ctx_stack_top s
  /\ ctx_stack (snd (_cspec_end s)) = ctx_stack s
  /\ param_line (snd (_cspec_end s)) = param_line s.
Proof.
  unfold _cspec_end. destruct (test_in_progress s) eqn:Hin; cbn [negb snd].
  - destruct (raises_end_checks s) as [f m u l _ _ _].
    unfold _cspec_error_fn, end_passes, flagged, log. fields.
    repeat match goal with
           | |- context [if ?b then _ else _] => destruct b; fields
           end; repeat split; reflexivity.
  - rewrite Hin. repeat split.
Qed.

(** C8.  A call of [_cspec_context_end] with only the root frame on the
    stack pops the root: the assertion that guards the pop,
    [assert(ctx_stack_top != 0)], is compiled out, the call returns TRUE and
    the top of the stack and the cursor into it become -1. *)
Lemma bare_leave_pops_root :
  ctx_stack_top initial_state = 0
  /\ _cspec_context_end 5 initial_state
     = (true, snd (_cspec_context_end 5 initial_state))
  /\ ctx_stack_top (snd (_cspec_context_end 5 initial_state)) = -1
  /\ ctx_stack_index (snd (_cspec_context_end 5 initial_state)) = -1.
Proof. repeat split. Qed.

(** The calls that reach the context stack from a group function and from
    the runner.  A context block calls [_cspec_context_begin] when it is
    entered and, once its body is done, a second time; only when that second
    call returns TRUE does it call [_cspec_context_end]. *)
Inductive engine_call : Type :=
| Enter (line d : Z)
| Leave (line d : Z)
| BeginTest (line : Z)
| EndTest
| NewPass
| NewGroup.

Definition context_leave (line d : Z) (s : state) : state :=
  match _cspec_context_begin line d s with
  | (true, s) => snd (_cspec_context_end line s)
  | (false, s) => s
  end.

Definition engine_step (s : state) (c : engine_call) : state :=
  match c with
  | Enter line d => snd (_cspec_context_begin line d s)
  | Leave line d => context_leave line d s
  | BeginTest line => snd (_cspec_begin line s)
  | EndTest => snd (_cspec_end s)
  | NewPass => before_pass s
  | NewGroup => context_clear_stack s
  end.

(** The description of a context block is a literal of its own, never the
    root's. *)
Definition block_call (c : engine_call) : Prop :=
  match c with
  | Enter _ d | Leave _ d => d <> root_desc
  | _ => True
  end.

Definition stack_ok (s : state) : Prop :=
  0 <= ctx_stack_index s <= ctx_stack_top s
  /\ ctx_stack_top s < cspec_ctx_stack_size_max
  /\ desc (ctx_stack s 0) = root_desc.

(** The five ways through [_cspec_context_begin]. *)
Inductive begin_spec (line d : Z) (s : state) : bool -> state -> Prop :=
| begin_busy :
    test_in_progress s = true ->
    begin_spec line d s false s
| begin_replay :
    test_in_progress s = false ->
    ctx_stack_index s < ctx_stack_top s ->
    desc (ctx_stack s (ctx_stack_index s + 1)) = d ->
    begin_spec line d s true (set_ctx_stack_index (ctx_stack_index s + 1) s)
| begin_current :
    test_in_progress s = false ->
    ~ (ctx_stack_index s < ctx_stack_top s
       /\ desc (ctx_stack s (ctx_stack_index s + 1)) = d) ->
    desc (ctx_stack s (ctx_stack_index s)) = d ->
    begin_spec line d s true s
| begin_past :
    test_in_progress s = false ->
    ~ (ctx_stack_index s < ctx_stack_top s
       /\ desc (ctx_stack s (ctx_stack_index s + 1)) = d) ->
    desc (ctx_stack s (ctx_stack_index s)) <> d ->
    test_current_line s > line ->
    begin_spec line d s false s
| begin_full (s' : state) :
    test_in_progress s = false ->
    ~ (ctx_stack_index s < ctx_stack_top s
       /\ desc (ctx_stack s (ctx_stack_index s + 1)) = d) ->
    desc (ctx_stack s (ctx_stack_index s)) <> d ->
    test_current_line s <= line ->
    ctx_stack_top s + 1 >= cspec_ctx_stack_size_max ->
    test_in_progress s' = false ->
    test_current_line s' = line ->
    ctx_stack_index s' = ctx_stack_index s ->
    ctx_stack_top s' = ctx_stack_top s ->
    ctx_stack s' = ctx_stack s ->
    error_log s' =
      error_log s
      ++ [Warning line
            "context error:%c Too many nested contexts - maximum depth allowed: 20";
          Warning line
            "%cStack limit can be increased by defining cspec_ctx_stack_size_max"] ->
    begin_spec line d s false s'
| begin_push (s' : state) :
    test_in_progress s = false ->
    ~ (ctx_stack_index s < ctx_stack_top s
       /\ desc (ctx_stack s (ctx_stack_index s + 1)) = d) ->
    desc (ctx_stack s (ctx_stack_index s)) <> d ->
    test_current_line s <= line ->
    ctx_stack_top s + 1 < cspec_ctx_stack_size_max ->
    test_in_progress s' = false ->
    test_current_line s' = line ->
    ctx_stack_index s' = ctx_stack_top s + 1 ->
    ctx_stack_top s' = ctx_stack_top s + 1 ->
    ctx_stack s' =
      upd (ctx_stack s) (ctx_stack_top s + 1)
        (mkContext d (line =? param_line s)) ->
    begin_spec line d s true s'.

Lemma context_begin_spec (line d : Z) (s : state) :
  begin_spec line d s (fst (_cspec_context_begin line d s))
    (snd (_cspec_context_begin line d s)).
Proof.
  unfold _cspec_context_begin.
  destruct (test_in_progress s) eqn:Hin; [cbn [fst snd]; apply begin_busy, Hin|].
  destruct ((ctx_stack_index s <? ctx_stack_top s)
            && (desc (ctx_stack s (ctx_stack_index s + 1)) =? d)) eqn:Hrep.
  { cbn [fst snd]. apply andb_true_iff in Hrep. destruct Hrep as [H1 H2].
    apply Z.ltb_lt in H1. apply Z.eqb_eq in H2.
    apply begin_replay; assumption. }
  assert (Hnrep : ~ (ctx_stack_index s < ctx_stack_top s
                     /\ desc (ctx_stack s (ctx_stack_index s + 1)) = d)).
  { intros [H1 H2]. apply Z.ltb_lt in H1. apply Z.eqb_eq in H2.
    rewrite H1, H2 in Hrep. discriminate. }
  destruct (Z.eqb_spec (desc (ctx_stack s (ctx_stack_index s))) d) as [Hc|Hc];
    [cbn [fst snd]; apply begin_current; assumption|].
  destruct (Z.gtb_spec (test_current_line s) line) as [Hl|Hl];
    [cbn [fst snd]; apply begin_past; try assumption; lia|].
  cbv zeta.
  set (s1 := set_test_current_line line
               (if line =? param_line s then set_param_line 0 s else s)).
  assert (E : test_in_progress s1 = false /\ test_current_line s1 = line
              /\ ctx_stack_index s1 = ctx_stack_index s
              /\ ctx_stack_top s1 = ctx_stack_top s
              /\ ctx_stack s1 = ctx_stack s
              /\ error_log s1 = error_log s).
  { subst s1. destruct (line =? param_line s); fields; auto 10. }
  destruct E as (E1 & E2 & E3 & E4 & E5 & E6). clearbody s1.
  rewrite E4.
  destruct (Z.geb_spec (ctx_stack_top s + 1) cspec_ctx_stack_size_max).
  - cbn [fst snd]. unfold _cspec_warn_fn, log.
    assert (Hgt : (line >? line) = false)
      by (destruct (Z.gtb_spec line line); [lia | reflexivity]).
    destruct (test_warned s1) eqn:Hw;
      repeat (fields; rewrite ?E2, ?Hgt, ?Hw, ?andb_false_r);
      (apply begin_full; fields; try assumption; try lia;
       rewrite E6, <- app_assoc; reflexivity).
  - cbn [fst snd]. apply begin_push; try assumption; try lia; fields;
      rewrite ?E4, ?E5; try assumption; reflexivity.
Qed.

Lemma stack_ok_begin (line d : Z) (s : state) :
  stack_ok s ->
  stack_ok (snd (_cspec_context_begin line d s))
  /\ (fst (_cspec_context_begin line d s) = true ->
      d <> root_desc ->
      test_in_progress (snd (_cspec_context_begin line d s)) = false
      /\ 0 < ctx_stack_top (snd (_cspec_context_begin line d s))).
Proof.
  intros (Hi & Ht & Hr).
  destruct (context_begin_spec line d s); unfold stack_ok.
  - split; [auto | discriminate].
  - fields. split; [repeat split; auto; lia|]. intros _ _. split; [assumption | lia].
  - split; [auto|]. intros _ Hd. split; [assumption|].
    destruct (Z.eq_dec (ctx_stack_index s) 0) as [E|]; [|lia].
    exfalso. apply Hd. rewrite <- H1, E. exact Hr.
  - split; [auto | discriminate].
  - rewrite H6, H7, H8. split; [auto | discriminate].
  - rewrite H6, H7, H8. unfold upd.
    destruct (Z.eqb_spec 0 (ctx_stack_top s + 1)); [lia|].
    split; [repeat split; auto; lia|]. intros _ _. split; [assumption | lia].
Qed.

Lemma stack_ok_step (s : state) (c : engine_call) :
  stack_ok s -> block_call c -> stack_ok (engine_step s c).
Proof.
  intros Hok Hc. destruct c as [line d | line d | line | | |]; cbn [engine_step].
  - apply stack_ok_begin, Hok.
  - unfold context_leave.
    destruct (stack_ok_begin line d s Hok) as [Hok' Hpos].
    destruct (_cspec_context_begin line d s) as [[|] s1]; cbn [fst snd] in *;
      [|exact Hok'].
    destruct (Hpos eq_refl Hc) as [Hin Htop].
    destruct Hok' as (Hi & Ht & Hr).
    unfold _cspec_context_end, stack_ok. rewrite Hin. cbv zeta.
    destruct (requested_context _); fields; repeat split; auto; lia.
  - unfold _cspec_begin, stack_ok.
    repeat match goal with
           | |- context [if ?b then _ else _] => destruct b; fields
           end; exact Hok.
  - destruct (end_engine s) as (_ & _ & Hi & Ht & Hs & _).
    unfold stack_ok. rewrite Hi, Ht, Hs. exact Hok.
  - destruct (before_pass_engine s) as (_ & _ & Hi & Ht & Hs & _).
    unfold stack_ok. rewrite Hi, Ht, Hs. destruct Hok as (? & ? & ?).
    repeat split; auto; lia.
  - unfold context_clear_stack, stack_ok. fields. destruct Hok as (? & ? & ?).
    unfold cspec_ctx_stack_size_max. repeat split; auto; lia.
Qed.

(** X31.  The context stack under the calls a group function makes.
    Through any sequence of context-block calls ([_cspec_context_begin] on entry; on the way out
    [_cspec_context_begin] again and [_cspec_context_end] only after it
    returned TRUE), test begins and ends, and per-pass and per-group resets,
    [0 <= ctx_stack_index <= ctx_stack_top < cspec_ctx_stack_size_max] holds
    and the root frame stays at index 0.  A first-time entry with the stack at
    its last slot logs the two capacity warnings and returns FALSE, leaving
    the stack as it is. *)
Theorem context_stack_bounded (s : state) (calls : list engine_call) :
  stack_ok s ->
  Forall block_call calls ->
  stack_ok (fold_left engine_step calls s)
  /\ forall line d,
       let s1 := fold_left engine_step calls s in
       test_in_progress s1 = false ->
       ctx_stack_index s1 = ctx_stack_top s1 ->
       desc (ctx_stack s1 (ctx_stack_index s1)) <> d ->
       test_current_line s1 <= line ->
       ctx_stack_top s1 + 1 >= cspec_ctx_stack_size_max ->
       let r := _cspec_context_begin line d s1 in
       fst r = false
       /\ ctx_stack_top (snd r) = ctx_stack_top s1
       /\ ctx_stack_index (snd r) = ctx_stack_index s1
       /\ ctx_stack (snd r) = ctx_stack s1
       /\ error_log (snd r) =
          error_log s1
          ++ [Warning line
                "context error:%c Too many nested contexts - maximum depth allowed: 20";
              Warning line
                "%cStack limit can be increased by defining cspec_ctx_stack_size_max"].
Proof.
  intros Hok Hcalls. split.
  - revert s Hok. induction Hcalls as [|c cs Hc _ IH]; intros s Hok; cbn;
      [exact Hok|].
    apply IH, stack_ok_step; assumption.
  - intros line d s1. generalize s1. clear. intros s Hin Hidx Hd Hcur Hfull r.
    subst r. destruct (context_begin_spec line d s); try congruence; try lia.
    repeat split; assumption.
Qed.

Lemma context_stack_bounded_witness :
  stack_ok initial_state
  /\ stack_ok (fold_left engine_step
                 [NewPass; Enter 10 100; BeginTest 11; EndTest; NewPass;
                  Enter 10 100; Leave 10 100; NewGroup]
                 initial_state).
Proof.
  assert (H0 : stack_ok initial_state).
  { unfold stack_ok, cspec_ctx_stack_size_max. cbn. repeat split; lia. }
  split; [exact H0|].
  apply (context_stack_bounded initial_state); [exact H0|].
  repeat constructor; cbn; unfold root_desc; lia.
Defined.

(** ** Termination of [process_function] (C1) *)

(** *** Well-formed group functions *)

(** Code of the test author does not reach into the engine: the statics of
    [cspec.c] are out of its sight. *)
Definition keeps (f : state -> bool * state) : Prop :=
  forall s, same_engine s (snd (f s)).

Fixpoint keeps_item (b : item) : Prop :=
  match b with
  | Code f => keeps f
  | Test _ body => keeps body
  | Ctx _ _ inner => keeps_all inner
  end
with keeps_all (bs : items) : Prop :=
  match bs with
  | inil => True
  | icons b rest => keeps_item b /\ keeps_all rest
  end.







Scheme item_mut := Induction for item Sort Prop
  with items_mut := Induction for items Sort Prop.
Combined Scheme item_items_ind from item_mut, items_mut.




(** *** The open contexts *)





(** *** The measure *)
















(** *** One call at a time *)

Lemma begin_test_idle (line : Z) (s : state) :
  test_in_progress s = false ->
  (line <= test_current_line s /\ _cspec_begin line s = (false, s))
  \/ (test_current_line s < line
      /\ fst (_cspec_begin line s) = test_in_progress (snd (_cspec_begin line s))
      /\ test_current_line (snd (_cspec_begin line s)) = line
      /\ ctx_stack_index (snd (_cspec_begin line s)) = ctx_stack_index s
      /\ ctx_stack_top (snd (_cspec_begin line s)) = ctx_stack_top s
      /\ ctx_stack (snd (_cspec_begin line s)) = ctx_stack s).
Proof.
  intros Hin. unfold _cspec_begin. rewrite Hin.
  destruct (Z.geb_spec (test_current_line s) line); [left; split; [lia | reflexivity]|].
  right. split; [lia|]. cbv zeta.
  destruct (_ && _); fields; repeat split.
Qed.

Lemma context_end_idle (line : Z) (s : state) :
  test_in_progress s = false ->
  fst (_cspec_context_end line s) = true
  /\ test_in_progress (snd (_cspec_context_end line s)) = false
  /\ test_current_line (snd (_cspec_context_end line s)) = line + 1
  /\ ctx_stack_top (snd (_cspec_context_end line s)) = ctx_stack_top s - 1
  /\ ctx_stack_index (snd (_cspec_context_end line s)) = ctx_stack_top s - 1
  /\ ctx_stack (snd (_cspec_context_end line s)) = ctx_stack s.
Proof.
  intros Hin. unfold _cspec_context_end. rewrite Hin. cbv zeta.
  destruct (requested_context _); fields; rewrite Hin; repeat split.
Qed.

(** While a test is in progress nothing in the group function moves the
    engine. *)
Lemma busy_run :
  (forall b s, keeps_item b -> test_in_progress s = true ->
               same_engine s (snd (run_item b s)))
  /\ (forall bs s, keeps_all bs -> test_in_progress s = true ->
                   same_engine s (snd (run_items bs s))).
Proof.
  assert (Hrefl : forall s, same_engine s s) by (intros; constructor; reflexivity).
  assert (Htrans : forall s t u, same_engine s t -> same_engine t u -> same_engine s u).
  { intros s t u [] []. constructor; congruence. }
  apply item_items_ind; cbn [run_item run_items keeps_item keeps_all];
    intros.
  - apply H.
  - unfold _cspec_begin. rewrite H0. apply Hrefl.
  - unfold _cspec_context_begin. rewrite H1. apply Hrefl.
  - apply Hrefl.
  - destruct H1 as [Hb Hr]. specialize (H s Hb H2).
    destruct (run_item b s) as [[|] s1]; cbn [snd] in *; [exact H|].
    eapply Htrans; [exact H|]. apply H0; [exact Hr|].
    rewrite (same_in_progress _ _ H). exact H2.
Qed.

(** *** What one pass does *)















(** The part of [_context] after the first [_cspec_context_begin] said
    [TRUE]: the body, then the second round of the loop. *)
Definition ctx_tail (line d : Z) (inner : items) (s : state) : bool * state :=
  match run_items inner s with
  | (true, s) => (true, s)
  | (false, s) =>
      match _cspec_context_begin line d s with
      | (false, s) => (false, s)
      | (true, s) => _cspec_context_end line s
      end
  end.

Lemma run_item_ctx (line d : Z) (inner : items) (s : state) :
  run_item (Ctx line d inner) s =
  match _cspec_context_begin line d s with
  | (false, s) => (false, s)
  | (true, s) => ctx_tail line d inner s
  end.
Proof. reflexivity. Qed.


Lemma leave_pop (line d : Z) (s : state) :
  test_in_progress s = false ->
  ctx_stack_index s = ctx_stack_top s ->
  desc (ctx_stack s (ctx_stack_index s)) = d ->
  exists s',
    match _cspec_context_begin line d s with
    | (false, s) => (false, s)
    | (true, s) => _cspec_context_end line s
    end = (true, s')
    /\ test_in_progress s' = false
    /\ test_current_line s' = line + 1
    /\ ctx_stack_top s' = ctx_stack_top s - 1
    /\ ctx_stack_index s' = ctx_stack_top s - 1
    /\ ctx_stack s' = ctx_stack s.
Proof.
  intros Hin Hidx Hd.
  pose proof (context_begin_spec line d s) as Hb.
  destruct (_cspec_context_begin line d s) as [ret s1]. cbn [fst snd] in Hb.
  destruct Hb; try congruence; try lia.
  destruct (context_end_idle line s Hin) as (E1 & E2 & E3 & E4 & E5 & E6).
  exists (snd (_cspec_context_end line s)).
  split; [|auto 6].
  destruct (_cspec_context_end line s) as [r t]. cbn [fst snd] in *.
  congruence.
Qed.

Section Measure.

Variables (lo L dsc d : Z) (inner : items).




End Measure.










(** *** The loop *)

Lemma passes_step (fuel : nat) (group_fn : items) (s : state) :
  passes (S fuel) group_fn s =
  if negb (test_in_progress
             (set_test_in_function false
                (snd (run_items group_fn (pass_start s)))))
     && (test_current_line (before_pass s)
         =? test_current_line
              (set_test_in_function false
                 (snd (run_items group_fn (pass_start s)))))
  then Some (set_test_in_function false
               (snd (run_items group_fn (pass_start s))))
  else passes fuel group_fn
         (snd (_cspec_end
                 (set_test_in_function false
                    (snd (run_items group_fn (pass_start s)))))).
Proof. reflexivity. Qed.


Lemma pass_start_engine (s : state) :
  test_in_progress (pass_start s) = test_in_progress s
  /\ test_current_line (pass_start s) = test_current_line s
  /\ ctx_stack_index (pass_start s) = 0
  /\ ctx_stack_top (pass_start s) = ctx_stack_top s
  /\ ctx_stack (pass_start s) = ctx_stack s.
Proof.
  destruct (before_pass_engine s) as (H1 & H2 & H3 & H4 & H5 & _).
  unfold pass_start. revert H1 H2 H3 H4 H5. generalize (before_pass s).
  intros t H1 H2 H3 H4 H5. fields. auto.
Qed.

(** The state a pass ends in, and the one the next pass starts from. *)
Definition pass_result (group_fn : items) (s : state) : state :=
  set_test_in_function false (snd (run_items group_fn (pass_start s))).

Definition pass_next (group_fn : items) (s : state) : state :=
  snd (_cspec_end (pass_result group_fn s)).



(** *** The record table stays written *)





Lemma raises_table (s t : state) :
  raises s t ->
  memory_records_size t = memory_records_size s
  /\ memory_records_written t = memory_records_written s.
Proof. intros [f m u l _ _ _]. split; reflexivity. Qed.






#[local] Transparent memory_test_reset.


#[local] Opaque memory_test_reset.

















(** Two contexts with the same two contexts inside, as the tests of the
    library are written ([context("tests succeed")],
    [context("tests fail")] under each feature), and a test after them. *)
Definition no_code (s : state) : bool * state := (false, s).

Definition sample_group : items :=
  icons (Ctx 10 2
           (icons (Ctx 11 3 (icons (Test 12 no_code) inil))
           (icons (Ctx 14 4 (icons (Test 15 no_code) inil)) inil)))
 (icons (Ctx 20 5
           (icons (Ctx 21 3 (icons (Test 22 no_code) inil))
           (icons (Ctx 24 4 (icons (Test 25 no_code) inil)) inil)))
 (icons (Test 30 no_code) inil)).





(** * Further properties *)

(** ** The string functions *)

Definition nul_free (s : list Z) : Prop := Forall (fun c => c <> 0) s.

Lemma strcmp_loop_eq (A : list Z) : forall B,
  nul_free A -> nul_free B -> (strcmp_loop A B = true <-> A = B).
Proof.
  induction A as [|a A IH]; intros [|b B] HA HB; cbn [strcmp_loop hd].
  - split; reflexivity.
  - inversion HB; subst. split; [|discriminate].
    intros H. apply Z.eqb_eq in H. congruence.
  - inversion HA; subst. split; [|discriminate].
    intros H. apply Z.eqb_eq in H. congruence.
  - inversion HA; subst. inversion HB; subst.
    destruct (Z.eqb_spec a 0); [contradiction|].
    destruct (Z.eqb_spec b 0); [contradiction|]. cbn [negb andb].
    destruct (Z.eqb_spec a b) as [->|Hab]; cbn [negb].
    + rewrite IH by assumption. split; congruence.
    + split; [discriminate | congruence].
Qed.

(** X1. [cspec_strcmp] says whether two strings are equal (TRUE when they
    are, unlike the C library's [strcmp]): two [NULL]s are equal, a [NULL]
    equals no string, and two strings are equal when they have the same
    characters. *)
Theorem strcmp_decides_equality (A B : list Z) :
  nul_free A -> nul_free B ->
  (cspec_strcmp (Some A) (Some B) = true <-> A = B)
  /\ cspec_strcmp None None = true
  /\ cspec_strcmp None (Some B) = false
  /\ cspec_strcmp (Some A) None = false.
Proof.
  intros HA HB. split; [|repeat split].
  apply strcmp_loop_eq; assumption.
Qed.

Lemma strcmp_decides_equality_witness :
  cspec_strcmp (Some [45; 104]) (Some [45; 104]) = true
  /\ cspec_strcmp (Some [45; 104]) (Some [45; 45; 104]) = false.
Proof.
  assert (H1 : nul_free [45; 104]) by (repeat constructor; lia).
  assert (H2 : nul_free [45; 45; 104]) by (repeat constructor; lia).
  split.
  - destruct (strcmp_decides_equality [45; 104] [45; 104] H1 H1) as [[_ H] _].
    apply H. reflexivity.
  - destruct (strcmp_decides_equality [45; 104] [45; 45; 104] H1 H2)
      as [[H _] _].
    destruct (cspec_strcmp (Some [45; 104]) (Some [45; 45; 104]));
      [|reflexivity].
    specialize (H eq_refl). discriminate.
Defined.

Lemma strlen_loop_spec (s : list Z) : forall ret t,
  nul_free s -> hd 0 t = 0 ->
  0 <= ret -> ret + Z.of_nat (List.length s) < 2 ^ 32 ->
  strlen_loop (s ++ t) ret = ret + Z.of_nat (List.length s).
Proof.
  induction s as [|c s IH]; intros ret t Hs Ht Hr Hb.
  - cbn [app List.length]. destruct t as [|c t]; cbn in *; [lia|].
    subst c. cbn. lia.
  - inversion Hs; subst. cbn [app strlen_loop].
    destruct (Z.eqb_spec c 0); [contradiction|].
    cbn [List.length] in Hb. rewrite Nat2Z.inj_succ in Hb.
    unfold wrap32. rewrite Z.mod_small by lia.
    rewrite IH; auto; try lia. cbn [List.length]. lia.
Qed.

Lemma strlen_whole (s : list Z) :
  nul_free s -> Z.of_nat (List.length s) < 2 ^ 32 ->
  cspec_strlen s = Z.of_nat (List.length s).
Proof.
  intros Hs Hb. unfold cspec_strlen.
  rewrite <- (app_nil_r s) at 1. rewrite strlen_loop_spec; auto; lia.
Qed.

(** X2. [cspec_strlen] counts the characters before the first NUL, whatever
    the memory holds after it. *)
Theorem strlen_counts_to_nul (s t : list Z) :
  nul_free s -> Z.of_nat (List.length s) < 2 ^ 32 ->
  cspec_strlen (s ++ 0 :: t) = Z.of_nat (List.length s)
  /\ cspec_strlen s = Z.of_nat (List.length s).
Proof.
  intros Hs Hb. split; [|apply strlen_whole; assumption].
  unfold cspec_strlen. rewrite strlen_loop_spec; auto; lia.
Qed.

Lemma strlen_counts_to_nul_witness :
  cspec_strlen ([99; 46; 99] ++ 0 :: [120; 120]) = 3.
Proof.
  assert (H1 : nul_free [99; 46; 99]) by (repeat constructor; lia).
  assert (H2 : Z.of_nat (List.length [99; 46; 99]) < 2 ^ 32) by (cbn; lia).
  destruct (strlen_counts_to_nul [99; 46; 99] [120; 120] H1 H2) as [H _].
  exact H.
Defined.

Lemma forallb_nth_eq (s e : list Z) :
  List.length s = List.length e ->
  (forallb (fun i => nth i s 0 =? nth i e 0) (seq 0 (List.length e)) = true
   <-> s = e).
Proof.
  intros Hl. rewrite forallb_forall. split.
  - intros H. apply (nth_ext s e 0 0 Hl). intros n Hn.
    apply Z.eqb_eq, H, in_seq. lia.
  - intros -> i _. apply Z.eqb_refl.
Qed.

(** X3. [cspec_strrstr] says whether a string ends with another: no string
    ends a [NULL], every string ends with [NULL], and otherwise the second
    string must be a suffix of the first. *)
Theorem strrstr_decides_suffix (s e : list Z) :
  nul_free s -> nul_free e ->
  Z.of_nat (List.length s) < 2 ^ 32 -> Z.of_nat (List.length e) < 2 ^ 32 ->
  (cspec_strrstr (Some s) (Some e) = true <-> exists p, s = p ++ e)
  /\ cspec_strrstr None (Some e) = false
  /\ cspec_strrstr (Some s) None = true.
Proof.
  intros Hs He Bs Be. split; [|split; reflexivity].
  unfold cspec_strrstr.
  rewrite (strlen_whole s Hs Bs), (strlen_whole e He Be).
  destruct (Z.gtb_spec (Z.of_nat (List.length e)) (Z.of_nat (List.length s))) as [Hgt|Hle].
  - split; [discriminate|]. intros [p ->]. rewrite length_app in Hgt. lia.
  - rewrite Nat2Z.id, <- Nat2Z.inj_sub, Nat2Z.id by lia.
    rewrite forallb_nth_eq by (rewrite length_skipn; lia).
    split.
    + intros H. exists (firstn (List.length s - List.length e) s).
      rewrite <- H at 2. symmetry. apply firstn_skipn.
    + intros [p ->]. rewrite length_app.
      replace (List.length p + List.length e - List.length e)%nat with (List.length p) by lia.
      rewrite skipn_app, skipn_all, Nat.sub_diag. reflexivity.
Qed.

Lemma strrstr_decides_suffix_witness :
  cspec_strrstr (Some [97; 46; 99]) (Some [46; 99]) = true.
Proof.
  assert (H1 : nul_free [97; 46; 99]) by (repeat constructor; lia).
  assert (H2 : nul_free [46; 99]) by (repeat constructor; lia).
  assert (H3 : Z.of_nat (List.length [97; 46; 99]) < 2 ^ 32) by (cbn; lia).
  assert (H4 : Z.of_nat (List.length [46; 99]) < 2 ^ 32) by (cbn; lia).
  destruct (strrstr_decides_suffix [97; 46; 99] [46; 99] H1 H2 H3 H4)
    as [[_ H] _].
  apply H. exists [97]. reflexivity.
Defined.

(** The number a string of digits writes, and the sign that the ['-']
    before it leave. *)
Definition digits_value (ds : list Z) (r : Z) : Z :=
  fold_left (fun r c => r * 10 + (c - 48)) ds r.

Definition flips (pre : list Z) : Z :=
  if Nat.even (count_occ Z.eq_dec pre 45) then 1 else -1.

Lemma digits_value_ge (ds : list Z) : forall r,
  Forall (fun c => cspec_isdigit c = true) ds -> 0 <= r ->
  r <= digits_value ds r.
Proof.
  induction ds as [|c ds IH]; intros r Hd Hr; cbn; [lia|].
  inversion Hd as [|? ? Hc Hds]; subst. unfold cspec_isdigit in Hc.
  apply andb_true_iff in Hc. destruct Hc as [H1 H2].
  apply Z.leb_le in H1. apply Z.leb_le in H2.
  specialize (IH (r * 10 + (c - 48)) Hds). unfold digits_value in IH. lia.
Qed.

Lemma atoi_digits_spec (ds tail : list Z) : forall r,
  Forall (fun c => cspec_isdigit c = true) ds ->
  cspec_isdigit (hd 0 tail) = false ->
  0 <= r -> digits_value ds r <= INT_MAX ->
  atoi_digits (ds ++ tail) r = Some (digits_value ds r).
Proof.
  induction ds as [|c ds IH]; intros r Hd Ht Hr Hb.
  - cbn [app digits_value fold_left]. destruct tail as [|c t]; [reflexivity|].
    cbn [hd] in Ht. cbn [atoi_digits]. rewrite Ht, andb_false_r. reflexivity.
  - inversion Hd as [|? ? Hc Hds]; subst. cbn [app atoi_digits].
    rewrite Hc. unfold cspec_isdigit in Hc.
    apply andb_true_iff in Hc. destruct Hc as [H1 H2].
    apply Z.leb_le in H1. apply Z.leb_le in H2.
    destruct (Z.eqb_spec c 0); [lia|]. cbn [negb andb].
    cbn [digits_value fold_left] in Hb |- *.
    pose proof (digits_value_ge ds (r * 10 + (c - 48)) Hds) as Hge.
    unfold digits_value in Hge, IH.
    destruct (Z.leb_spec (r * 10 + (c - 48)) INT_MAX); [|lia].
    apply IH; auto; lia.
Qed.

Lemma flips_cons (c : Z) (pre : list Z) :
  flips (c :: pre) = (if c =? 45 then -1 else 1) * flips pre.
Proof.
  unfold flips. cbn [count_occ].
  destruct (Z.eq_dec c 45) as [->|Hc].
  - rewrite Nat.even_succ, <- Nat.negb_even.
    destruct (Nat.even _); reflexivity.
  - destruct (Z.eqb_spec c 45); [contradiction|].
    destruct (Nat.even _); reflexivity.
Qed.

Lemma atoi_skip_spec (pre rest : list Z) : forall sign,
  Forall (fun c => c <> 0 /\ cspec_isdigit c = false) pre ->
  match rest with
  | [] => True
  | c :: _ => c = 0 \/ cspec_isdigit c = true
  end ->
  atoi_skip (pre ++ rest) sign = (rest, sign * flips pre).
Proof.
  induction pre as [|c pre IH]; intros sign Hp Hr.
  - cbn [app]. unfold flips. cbn. rewrite Z.mul_1_r.
    destruct rest as [|c t]; [reflexivity|]. cbn [atoi_skip].
    destruct (Z.eqb_spec c 0); [reflexivity|].
    destruct Hr as [Hr | Hr]; [contradiction|]. rewrite Hr.
    unfold cspec_isdigit in Hr. apply andb_true_iff in Hr.
    destruct Hr as [H1 H2]. apply Z.leb_le in H1.
    destruct (Z.eqb_spec c 45); [lia | reflexivity].
  - inversion Hp as [|? ? [Hc Hd] Hps]; subst. cbn [app atoi_skip].
    destruct (Z.eqb_spec c 0); [contradiction|]. rewrite Hd.
    rewrite IH by assumption. rewrite flips_cons.
    destruct (c =? 45); f_equal; lia.
Qed.

(** X4. [cspec_atoi] skips to the first digit and reads the digits from
    there; every ['-'] it skipped turns the sign, so that two of them give a
    positive number; [NULL] reads as 0. *)
Theorem atoi_reads_number (pre ds tail : list Z) :
  Forall (fun c => c <> 0 /\ cspec_isdigit c = false) pre ->
  Forall (fun c => cspec_isdigit c = true) ds ->
  cspec_isdigit (hd 0 tail) = false ->
  ds <> [] \/ hd 0 tail = 0 ->
  digits_value ds 0 <= INT_MAX ->
  cspec_atoi (Some (pre ++ ds ++ tail)) = Some (digits_value ds 0 * flips pre)
  /\ cspec_atoi None = Some 0.
Proof.
  intros Hp Hd Ht Hn Hb. split; [|reflexivity].
  unfold cspec_atoi. rewrite atoi_skip_spec; [|exact Hp|].
  - rewrite atoi_digits_spec by (assumption || lia). f_equal. lia.
  - destruct ds as [|c ds]; cbn [app].
    + destruct tail as [|c t]; [exact I|]. cbn [hd] in Hn.
      destruct Hn as [Hn | Hn]; [congruence | left; exact Hn].
    + right. inversion Hd; assumption.
Qed.

Lemma atoi_reads_number_witness :
  cspec_atoi (Some ([58; 45; 45] ++ [49; 50] ++ [120])) = Some 12.
Proof.
  assert (H1 : Forall (fun c => c <> 0 /\ cspec_isdigit c = false) [58; 45; 45]).
  { repeat constructor; lia. }
  assert (H2 : Forall (fun c => cspec_isdigit c = true) [49; 50]).
  { repeat constructor. }
  assert (H3 : cspec_isdigit (hd 0 [120]) = false) by reflexivity.
  assert (H4 : [49; 50] <> [] \/ hd 0 [120] = 0) by (left; discriminate).
  assert (H5 : digits_value [49; 50] 0 <= INT_MAX).
  { unfold INT_MAX. cbn. lia. }
  destruct (atoi_reads_number [58; 45; 45] [49; 50] [120] H1 H2 H3 H4 H5)
    as [H _].
  exact H.
Defined.

(** ** The memory sandbox *)

(** X5. [memory_test_reset(TRUE)] gives every pass the same sandbox: the
    usable region holds ['X'], the two barriers [0xFF], the counters, the
    record table and the directives are cleared, and no byte outside
    [_memory] is written. *)
Theorem reset_wipes_sandbox (s : state) :
  let t := memory_test_reset true s in
  (forall i, 0 <= i < memory_size_max -> memory t i = byte_X)
  /\ (forall i, - memory_size_barrier <= i < 0
                \/ memory_size_max <= i < memory_size_max + memory_size_barrier ->
                memory t i = byte_FF)
  /\ (forall i, i < - memory_size_barrier
                \/ memory_size_max + memory_size_barrier <= i ->
                memory t i = memory s i)
  /\ out_of_bounds t = out_of_bounds s
  /\ memory_records_size t = 0
  /\ memory_ptr t = 0
  /\ memory_count_mallocs t = 0
  /\ memory_count_frees t = 0
  /\ memory_error t = false
  /\ memory_expect_error t = false
  /\ memory_malloc_fail t = M_NORMAL
  /\ memory_malloc_forced_failures t = 0
  /\ error_log t = error_log s.
Proof.
  intros t. subst t.
  destruct (reset_fields s) as (F1 & F2 & F3 & F4 & F5 & F6 & F7 & F8 & _ & _ & _ & _ & F9).
  split; [intros i Hi; apply reset_usable, Hi|].
  split; [intros i Hi; apply reset_barriers, Hi|].
  split.
  { intros i Hi. rewrite reset_memory.
    cases_Z; cbn; try reflexivity; consts; lia. }
  split; [apply reset_in_bounds|]. auto 12.
Qed.

Lemma reset_wipes_sandbox_witness :
  memory (memory_test_reset true initial_state) 5 = byte_X
  /\ memory (memory_test_reset true initial_state) (-3) = byte_FF.
Proof.
  pose proof (reset_wipes_sandbox initial_state) as H. cbv zeta in H.
  destruct H as (H1 & H2 & _). split.
  - apply H1. unfold memory_size_max. lia.
  - apply H2. left. unfold memory_size_barrier. lia.
Defined.

Lemma allocated_memory (sz : Z) (s : state) (a : Z) :
  0 < sz ->
  memory (allocated sz s) a =
  let b := memory_ptr s in
  if (b <=? a) && (a <? b + memory_size_fence) then byte_b
  else if (b + memory_size_fence <=? a) && (a <? b + memory_size_fence + sz)
  then byte_N
  else if (b + memory_size_fence + sz <=? a)
          && (a <? b + memory_size_fence * 2 + sz) then byte_e
  else memory s a.
Proof.
  intros Hsz. unfold allocated. fields. cbv zeta.
  rewrite !fill_spec, !Z2Nat.id by (consts; lia).
  cases_Z; cbn; try reflexivity; consts; lia.
Qed.

(** X6. A successful [cspec_malloc] puts the block at [memory_ptr]: seven
    ['b'], the payload filled with ['N'], seven ['e']; it returns the
    address of the payload, appends the record, moves [memory_ptr] past the
    block, touches no byte outside it, and leaves the records laid out one
    after the other. *)
Theorem malloc_places_block (sz : Z) (s : state) :
  sandbox_inactive s = false ->
  layout s ->
  0 < sz ->
  fail_level (memory_malloc_fail s) < fail_level M_FAIL_ONCE ->
  memory_ptr s + memory_size_fence * 2 + sz
    < memory_size_max - memory_size_fence * 2 ->
  memory_records_size s < memory_records_capacity s \/ host_result s <> NULL ->
  memory_ptr s = 0 \/ preceding_fence_ok s = true ->
  let b := memory_ptr s in
  let r := cspec_malloc sz s in
  fst r = Ptr (b + memory_size_fence)
  /\ memory_check_fence (mkRecord sz b false) (snd r) = true
  /\ (forall j, 0 <= j < sz ->
        memory (snd r) (b + memory_size_fence + j) = byte_N)
  /\ (forall a, a < b \/ b + memory_size_fence * 2 + sz <= a ->
        memory (snd r) a = memory s a)
  /\ memory_records_size (snd r) = memory_records_size s + 1
  /\ memory_records (snd r) (memory_records_size s) = mkRecord sz b false
  /\ (forall i, i <> memory_records_size s ->
        memory_records (snd r) i = memory_records s i)
  /\ memory_ptr (snd r) = b + memory_size_fence * 2 + sz
  /\ memory_count_mallocs (snd r) = memory_count_mallocs s + 1
  /\ out_of_bounds (snd r) = out_of_bounds s
  /\ error_log (snd r) = error_log s
  /\ layout (snd r).
Proof.
  intros Hact Hlay Hsz Hfail Hfit Hcap Hfence b r. subst b r.
  pose proof (layout_ptr s Hlay) as Hptr.
  rewrite malloc_ok by (assumption || lia). cbn [fst snd].
  split; [reflexivity|].
  split.
  { apply check_fence_spec. cbn [block size]. intros i Hi.
    rewrite !allocated_memory by lia. cbv zeta.
    split; cases_Z; cbn; try reflexivity; consts; lia. }
  split.
  { intros j Hj. rewrite allocated_memory by lia. cbv zeta.
    cases_Z; cbn; try reflexivity; consts; lia. }
  split.
  { intros a Ha. rewrite allocated_memory by lia. cbv zeta.
    cases_Z; cbn; try reflexivity; consts; lia. }
  split; [unfold allocated; fields; reflexivity|].
  split; [unfold allocated, upd; fields; rewrite Z.eqb_refl; reflexivity|].
  split.
  { intros i Hi. unfold allocated, upd. fields.
    destruct (Z.eqb_spec i (memory_records_size s)); [contradiction|].
    reflexivity. }
  split; [unfold allocated; fields; reflexivity|].
  split; [unfold allocated; fields; reflexivity|].
  split; [unfold allocated; fields; reflexivity|].
  split; [unfold allocated; fields; reflexivity|].
  apply layout_allocated; assumption.
Qed.

Lemma malloc_places_block_witness :
  fst (cspec_malloc 5 first_test) = Ptr memory_size_fence
  /\ memory_ptr (snd (cspec_malloc 5 first_test)) = 19.
Proof.
  pose proof fresh_first_test as F.
  assert (H1 : sandbox_inactive first_test = false) by apply (fresh_active _ F).
  assert (H2 : layout first_test) by apply (layout_fresh _ F).
  assert (H3 : 0 < 5) by lia.
  assert (H4 : fail_level (memory_malloc_fail first_test)
               < fail_level M_FAIL_ONCE).
  { rewrite (fresh_fail _ F). cbn. lia. }
  assert (H5 : memory_ptr first_test + memory_size_fence * 2 + 5
               < memory_size_max - memory_size_fence * 2).
  { rewrite (fresh_ptr _ F). consts. lia. }
  assert (H6 : memory_records_size first_test
               < memory_records_capacity first_test
               \/ host_result first_test <> NULL).
  { left. rewrite (fresh_size _ F). apply (fresh_capacity _ F). }
  assert (H7 : memory_ptr first_test = 0
               \/ preceding_fence_ok first_test = true).
  { left. apply (fresh_ptr _ F). }
  destruct (malloc_places_block 5 first_test H1 H2 H3 H4 H5 H6 H7)
    as (R1 & _ & _ & _ & _ & _ & _ & R2 & _).
  rewrite (fresh_ptr _ F) in R1, R2. split; [exact R1 | exact R2].
Defined.

(** A run of allocations, the pointers returned in order. *)
Fixpoint mallocs (sizes : list Z) (s : state) : list pointer * state :=
  match sizes with
  | [] => ([], s)
  | sz :: rest =>
      let (p, s) := cspec_malloc sz s in
      let (ps, s) := mallocs rest s in
      (p :: ps, s)
  end.

Lemma malloc_forced (sz : Z) (s : state) :
  sandbox_inactive s = false ->
  fail_level M_FAIL_ONCE <= fail_level (memory_malloc_fail s) ->
  sz <> 0 ->
  cspec_malloc sz s = (NULL, forced_failure s).
Proof.
  intros Hact Hfail Hsz. unfold cspec_malloc. rewrite Hact.
  destruct (Z.eqb_spec sz 0); [contradiction|].
  destruct (Z.leb_spec (fail_level M_FAIL_ONCE)
              (fail_level (memory_malloc_fail s))); [reflexivity | lia].
Qed.

(** X8. With [test_malloc_fail_always] in force every allocation of the
    test returns [NULL]; each one is counted as a forced failure, none as a
    malloc, and none raises an error. *)
Theorem malloc_fails_always (sizes : list Z) (s : state) :
  sandbox_inactive s = false ->
  memory_malloc_fail s = M_FAIL_ALWAYS ->
  Forall (fun sz => sz <> 0) sizes ->
  let r := mallocs sizes s in
  fst r = map (fun _ => NULL) sizes
  /\ snd r
     = set_memory_malloc_forced_failures
         (memory_malloc_forced_failures s + Z.of_nat (List.length sizes)) s.
Proof.
  intros Hact Hfail Hs. revert s Hact Hfail.
  induction Hs as [|sz rest Hsz _ IH]; intros s Hact Hfail.
  - cbn. rewrite Z.add_0_r. split; [reflexivity|]. destruct s; reflexivity.
  - assert (Hlvl : fail_level M_FAIL_ONCE <= fail_level (memory_malloc_fail s)).
    { rewrite Hfail. cbn. lia. }
    cbn [mallocs]. rewrite (malloc_forced sz s Hact Hlvl Hsz).
    unfold forced_failure. rewrite Hfail.
    set (s1 := set_memory_malloc_forced_failures
                 (memory_malloc_forced_failures s + 1) s).
    specialize (IH s1 Hact Hfail). cbv zeta in IH.
    destruct (mallocs rest s1) as [ps s2]. cbn [fst snd] in *.
    destruct IH as (I1 & I3). cbn [map List.length].
    rewrite Nat2Z.inj_succ. subst s1. fields_in I3.
    split; [f_equal; exact I1|].
    rewrite I3.
    replace (memory_malloc_forced_failures s + 1 + Z.of_nat (List.length rest))
      with (memory_malloc_forced_failures s + Z.succ (Z.of_nat (List.length rest)))
      by lia.
    reflexivity.
Qed.

Lemma malloc_fails_always_witness :
  let s := snd (_cspec_memory_malloc_null false first_test) in
  fst (mallocs [4; 8; 16] s) = [NULL; NULL; NULL]
  /\ memory_malloc_forced_failures (snd (mallocs [4; 8; 16] s)) = 3.
Proof.
  intros s.
  assert (H1 : sandbox_inactive s = false) by (vm_compute; reflexivity).
  assert (H2 : memory_malloc_fail s = M_FAIL_ALWAYS) by (vm_compute; reflexivity).
  assert (H3 : Forall (fun sz => sz <> 0) [4; 8; 16]) by (repeat constructor; lia).
  assert (H4 : memory_malloc_forced_failures s = 0) by (vm_compute; reflexivity).
  destruct (malloc_fails_always [4; 8; 16] s H1 H2 H3) as (R1 & R2).
  split; [exact R1|]. rewrite R2, H4. reflexivity.
Defined.

(** X9. [test_malloc_fail_once] fails one allocation and no more: the first
    [cspec_malloc] after the directive returns [NULL] and leaves the
    sandbox as it was but for the directive, now [M_WAS_EXPECTED], and the
    count of forced failures; the next one is served from the arena. *)
Theorem malloc_fails_once (sz sz' : Z) (s : state) :
  sandbox_inactive s = false ->
  param_memory_test s = true ->
  layout s ->
  sz <> 0 -> 0 < sz' ->
  memory_ptr s + memory_size_fence * 2 + sz'
    < memory_size_max - memory_size_fence * 2 ->
  memory_records_size s < memory_records_capacity s \/ host_result s <> NULL ->
  memory_ptr s = 0 \/ preceding_fence_ok s = true ->
  let s1 := snd (_cspec_memory_malloc_null true s) in
  let r := cspec_malloc sz s1 in
  fst (_cspec_memory_malloc_null true s) = true
  /\ fst r = NULL
  /\ snd r
     = set_memory_malloc_forced_failures (memory_malloc_forced_failures s + 1)
         (set_memory_malloc_fail M_WAS_EXPECTED s)
  /\ fst (cspec_malloc sz' (snd r)) = Ptr (memory_ptr s + memory_size_fence).
Proof.
  intros Hact Hpar Hlay Hsz Hsz' Hfit Hcap Hfence s1 r. subst s1 r.
  unfold _cspec_memory_malloc_null, memory_directive_warning.
  rewrite Hpar. cbn [negb fst snd].
  split; [reflexivity|].
  set (s1 := set_memory_malloc_fail M_FAIL_ONCE s).
  assert (Hact1 : sandbox_inactive s1 = false) by exact Hact.
  assert (Hlvl : fail_level M_FAIL_ONCE <= fail_level (memory_malloc_fail s1)).
  { cbn. lia. }
  rewrite (malloc_forced sz s1 Hact1 Hlvl Hsz).
  cbn [fst snd]. unfold forced_failure. subst s1. fields.
  split; [reflexivity|]. split; [destruct s; reflexivity|].
  rewrite malloc_ok; fields; try assumption; try (cbn; lia).
  - reflexivity.
  - apply (layout_ptr s Hlay).
Qed.

Lemma malloc_fails_once_witness :
  fst (cspec_malloc 4 (snd (_cspec_memory_malloc_null true first_test))) = NULL
  /\ fst (cspec_malloc 8
            (snd (cspec_malloc 4
                    (snd (_cspec_memory_malloc_null true first_test)))))
     = Ptr memory_size_fence.
Proof.
  pose proof fresh_first_test as F.
  assert (H1 : sandbox_inactive first_test = false) by apply (fresh_active _ F).
  assert (H2 : param_memory_test first_test = true) by (vm_compute; reflexivity).
  assert (H3 : layout first_test) by apply (layout_fresh _ F).
  assert (H4 : 4 <> 0) by lia.
  assert (H5 : 0 < 8) by lia.
  assert (H6 : memory_ptr first_test + memory_size_fence * 2 + 8
               < memory_size_max - memory_size_fence * 2).
  { rewrite (fresh_ptr _ F). consts. lia. }
  assert (H7 : memory_records_size first_test
               < memory_records_capacity first_test
               \/ host_result first_test <> NULL).
  { left. rewrite (fresh_size _ F). apply (fresh_capacity _ F). }
  assert (H8 : memory_ptr first_test = 0
               \/ preceding_fence_ok first_test = true).
  { left. apply (fresh_ptr _ F). }
  destruct (malloc_fails_once 4 8 first_test H1 H2 H3 H4 H5 H6 H7 H8)
    as (_ & R1 & _ & R2).
  rewrite (fresh_ptr _ F) in R2. split; [exact R1 | exact R2].
Defined.

Lemma allocated_fields (sz : Z) (s : state) :
  let t := allocated sz s in
  memory_records t
  = upd (memory_records s) (memory_records_size s)
      (mkRecord sz (memory_ptr s) false)
  /\ memory_records_size t = memory_records_size s + 1
  /\ memory_ptr t = memory_ptr s + memory_size_fence * 2 + sz
  /\ out_of_bounds t = out_of_bounds s
  /\ indeterminate_read t = indeterminate_read s
  /\ error_log t = error_log s.
Proof. unfold allocated. fields. repeat split. Qed.

(** X10. A successful [cspec_calloc] returns a block of [ct * sel] bytes,
    all zero, between two whole fences. *)
Theorem calloc_zeroes_block (ct sel : Z) (s : state) :
  sandbox_inactive s = false ->
  layout s ->
  0 < ct * sel < 2 ^ 64 ->
  fail_level (memory_malloc_fail s) < fail_level M_FAIL_ONCE ->
  memory_ptr s + memory_size_fence * 2 + ct * sel
    < memory_size_max - memory_size_fence * 2 ->
  memory_records_size s < memory_records_capacity s \/ host_result s <> NULL ->
  memory_ptr s = 0 \/ preceding_fence_ok s = true ->
  let b := memory_ptr s in
  let r := cspec_calloc ct sel s in
  fst r = Ptr (b + memory_size_fence)
  /\ (forall j, 0 <= j < ct * sel ->
        memory (snd r) (b + memory_size_fence + j) = 0)
  /\ memory_check_fence (mkRecord (ct * sel) b false) (snd r) = true
  /\ memory_records (snd r) (memory_records_size s)
     = mkRecord (ct * sel) b false
  /\ out_of_bounds (snd r) = out_of_bounds s.
Proof.
  intros Hact Hlay Hsz Hfail Hfit Hcap Hfence b r. subst b r.
  pose proof (layout_ptr s Hlay) as Hptr.
  unfold cspec_calloc. rewrite Hact, wrap_small by lia.
  rewrite malloc_ok by (assumption || lia).
  rewrite cspec_memset_eq.
  pose proof (fun a => allocated_memory (ct * sel) s a (proj1 Hsz)) as Hm.
  destruct (allocated_fields (ct * sel) s) as (Hrec & _ & _ & Hoob & _).
  cbv zeta in Hm.
  revert Hm Hrec Hoob. generalize (allocated (ct * sel) s).
  intros t Hm Hrec Hoob. cbn [fst snd]. fields.
  rewrite oob_span_inside by (rewrite ?Z2Nat.id; consts; lia).
  split; [reflexivity|].
  split.
  { intros j Hj. rewrite fill_in by lia. reflexivity. }
  split.
  { apply check_fence_spec. cbn [block size]. fields. intros i Hi.
    rewrite !fill_out by (consts; lia).
    rewrite !Hm.
    split; cases_Z; cbn; try reflexivity; consts; lia. }
  split.
  { rewrite Hrec. unfold upd. rewrite Z.eqb_refl. reflexivity. }
  rewrite Hoob. apply orb_false_r.
Qed.

Lemma calloc_zeroes_block_witness :
  fst (cspec_calloc 4 2 first_test) = Ptr memory_size_fence
  /\ memory (snd (cspec_calloc 4 2 first_test)) (memory_size_fence + 7) = 0.
Proof.
  pose proof fresh_first_test as F.
  assert (H1 : sandbox_inactive first_test = false) by apply (fresh_active _ F).
  assert (H2 : layout first_test) by apply (layout_fresh _ F).
  assert (H3 : 0 < 4 * 2 < 2 ^ 64) by lia.
  assert (H4 : fail_level (memory_malloc_fail first_test)
               < fail_level M_FAIL_ONCE).
  { rewrite (fresh_fail _ F). cbn. lia. }
  assert (H5 : memory_ptr first_test + memory_size_fence * 2 + 4 * 2
               < memory_size_max - memory_size_fence * 2).
  { rewrite (fresh_ptr _ F). consts. lia. }
  assert (H6 : memory_records_size first_test
               < memory_records_capacity first_test
               \/ host_result first_test <> NULL).
  { left. rewrite (fresh_size _ F). apply (fresh_capacity _ F). }
  assert (H7 : memory_ptr first_test = 0
               \/ preceding_fence_ok first_test = true).
  { left. apply (fresh_ptr _ F). }
  destruct (calloc_zeroes_block 4 2 first_test H1 H2 H3 H4 H5 H6 H7)
    as (R1 & R2 & _).
  rewrite (fresh_ptr _ F) in R1, R2.
  split; [exact R1 | apply (R2 7); lia].
Defined.

Lemma raises_keeps (s s' : state) :
  raises s s' ->
  (memory_error s = true -> memory_error s' = true)
  /\ (forall e, In e (error_log s) -> In e (error_log s'))
  /\ test_in_progress s' = test_in_progress s
  /\ memory_records s' = memory_records s
  /\ memory s' = memory s.
Proof.
  destruct 1 as [f m u l Hf Hm Hu]. unfold flagged. fields.
  split; [exact Hm|]. split; [|auto].
  intros e He. apply in_or_app. left. exact He.
Qed.

(** Once errors have been raised, a written slot is still written. *)
Lemma raised_read_slot (s sa : state) (i : Z) :
  raises s sa -> table_written s = true ->
  0 <= i < memory_records_size s ->
  read_slot i sa = sa.
Proof.
  intros Ra Htab Hi. apply read_slot_written.
  destruct (raises_table _ _ Ra) as [_ Hw]. rewrite Hw.
  apply (proj1 (table_written_spec s) Htab), Hi.
Qed.

(** What the check of one record raises stays raised to the end of
    [memory_final_checks]. *)
Lemma record_check_raised (s : state) (i : Z) (e : event) :
  0 <= i < memory_records_size s ->
  (forall sa, raises s sa ->
     memory_error (check_record sa i) = true
     /\ In e (error_log (check_record sa i))) ->
  memory_error (memory_final_checks s) = true
  /\ In e (error_log (memory_final_checks s)).
Proof.
  intros Hi Hrec.
  destruct (in_split i (upto (memory_records_size s)))
    as (l1 & l2 & Hsplit); [apply In_upto, Hi|].
  unfold memory_final_checks, memory_checks. rewrite Hsplit, fold_left_app.
  cbn [fold_left].
  set (sa := fold_left check_record l1 s).
  assert (Ra : raises s sa) by apply (raises_fold _ _ raises_check_record).
  destruct (Hrec sa Ra) as [Hb1 Hb2].
  set (sb := check_record sa i) in *.
  set (s1 := fold_left check_record l2 sb).
  assert (R1 : raises sb s1) by apply (raises_fold _ _ raises_check_record).
  set (s2 := check_barriers s1).
  assert (R2 : raises s1 s2).
  { subst s2. unfold check_barriers. apply raises_fold.
    intros; auto with raises. }
  set (s3 := if memory_count_mallocs s2 =? memory_count_frees s2 then s2
             else _cspec_error_mem "after: mismatched malloc/free calls" s2).
  assert (R3 : raises s2 s3) by (subst s3; auto with raises).
  match goal with
  | |- context [memory_error ?t] => assert (R4 : raises s3 t) by auto with raises
  end.
  pose proof (raises_trans _ _ _ (raises_trans _ _ _ (raises_trans _ _ _ R1 R2) R3) R4)
    as R.
  destruct (raises_keeps _ _ R) as (K1 & K2 & _). auto.
Qed.

Lemma error_mem_raises (message : string) (s : state) :
  test_in_progress s = true ->
  memory_error (_cspec_error_mem message s) = true
  /\ In (MemError message) (error_log (_cspec_error_mem message s))
  /\ raises s (_cspec_error_mem message s).
Proof.
  intros H. split; [|split; [|apply raises_error_mem]].
  - rewrite (error_mem_in_progress _ _ H). reflexivity.
  - rewrite (error_mem_in_progress _ _ H). unfold raise, log. fields.
    apply in_or_app. right. left. reflexivity.
Qed.

(** X11. A block that is still allocated when the test ends raises a
    memory error: on a record table whose counted slots are all written,
    [memory_final_checks] calls [_cspec_error_mem] with "allocated memory
    not freed" and [memory_error] is set; the checks make no indeterminate
    read.  (The code prints the message unless the test expects memory
    errors.) *)
Theorem leak_raises_error (s : state) (i : Z) :
  test_in_progress s = true ->
  table_written s = true ->
  0 <= i < memory_records_size s ->
  is_free (memory_records s i) = false ->
  memory_error (memory_final_checks s) = true
  /\ In (MemError "after: allocated memory not freed")
        (error_log (memory_final_checks s))
  /\ indeterminate_read (memory_final_checks s) = indeterminate_read s.
Proof.
  intros Hin Htab Hi Hfree.
  apply and_assoc. split; [|apply final_checks_reads, Htab].
  apply (record_check_raised s i); [exact Hi|].
  intros sa Ra. destruct (raises_keeps _ _ Ra) as (_ & _ & Ka & Kr & _).
  unfold check_record.
  rewrite (raised_read_slot s sa i Ra Htab Hi). cbv zeta.
  rewrite Kr, Hfree.
  set (s' := if memory_check_fence _ _ then sa else _).
  assert (Hs' : test_in_progress s' = true).
  { subst s'. destruct (memory_check_fence _ _); [congruence|].
    unfold _cspec_error_mem, log. rewrite Ka, Hin. fields. congruence. }
  destruct (error_mem_raises "after: allocated memory not freed" s' Hs')
    as (H1 & H2 & _).
  auto.
Qed.

Lemma leak_raises_error_witness :
  table_written (allocated 5 first_test) = true
  /\ memory_error (memory_final_checks (allocated 5 first_test)) = true.
Proof.
  assert (H0 : table_written (allocated 5 first_test) = true)
    by (vm_compute; reflexivity).
  split; [exact H0|].
  assert (H1 : test_in_progress (allocated 5 first_test) = true).
  { rewrite (proj2 (allocated_in_test 5 first_test)).
    apply (fresh_in_progress _ fresh_first_test). }
  assert (H2 : 0 <= 0 < memory_records_size (allocated 5 first_test)).
  { unfold allocated. fields. rewrite (fresh_size _ fresh_first_test). lia. }
  assert (H3 : is_free (memory_records (allocated 5 first_test) 0) = false).
  { unfold allocated, upd. fields. rewrite (fresh_size _ fresh_first_test).
    reflexivity. }
  destruct (leak_raises_error (allocated 5 first_test) 0 H1 H0 H2 H3) as [R _].
  exact R.
Defined.

(** X19. A byte written over a fence of a block raises a memory error when
    the test ends, whether the block has been freed or not: on a record
    table whose counted slots are all written, if one of the seven bytes
    before the payload of a record is not ['b'] or one of the seven after it
    is not ['e'], [memory_final_checks] calls [_cspec_error_mem] with
    "detected buffer over/underrun" and [memory_error] is set; the checks
    make no indeterminate read.  (The code prints the message unless the
    test expects memory errors.) *)
Theorem overrun_raises_error (s : state) (i : Z) :
  test_in_progress s = true ->
  table_written s = true ->
  0 <= i < memory_records_size s ->
  ~ fences_whole (memory_records s i) s ->
  memory_error (memory_final_checks s) = true
  /\ In (MemError "after: detected buffer over/underrun")
        (error_log (memory_final_checks s))
  /\ indeterminate_read (memory_final_checks s) = indeterminate_read s.
Proof.
  intros Hin Htab Hi Hbroken.
  apply and_assoc. split; [|apply final_checks_reads, Htab].
  assert (Hfence : memory_check_fence (memory_records s i) s = false).
  { destruct (memory_check_fence (memory_records s i) s) eqn:E;
      [|reflexivity].
    destruct Hbroken. apply check_fence_whole, E. }
  apply (record_check_raised s i); [exact Hi|].
  intros sa Ra. destruct (raises_keeps _ _ Ra) as (_ & _ & Ka & Kr & Km).
  unfold check_record.
  rewrite (raised_read_slot s sa i Ra Htab Hi). cbv zeta.
  rewrite Kr.
  assert (Hf : memory_check_fence (memory_records s i) sa = false).
  { rewrite <- Hfence. unfold memory_check_fence. rewrite Km. reflexivity. }
  rewrite Hf.
  destruct (error_mem_raises "after: detected buffer over/underrun" sa)
    as (H1 & H2 & _); [congruence|].
  set (s1 := _cspec_error_mem "after: detected buffer over/underrun" sa) in *.
  match goal with
  | |- context [memory_error ?t] => assert (R : raises s1 t)
  end.
  { apply raises_if; [|auto with raises].
    unfold check_after_free. apply raises_fold. intros; auto with raises. }
  destruct (raises_keeps _ _ R) as (K1 & K2 & _). auto.
Qed.

Lemma overrun_raises_error_witness :
  let s := store (memory_size_fence + 5) 33 (allocated 5 first_test) in
  table_written s = true
  /\ memory s (memory_size_fence + 5) <> byte_e
  /\ memory_error (memory_final_checks s) = true.
Proof.
  intros s.
  assert (H0 : table_written s = true) by (vm_compute; reflexivity).
  assert (H1 : test_in_progress s = true) by (vm_compute; reflexivity).
  assert (H2 : 0 <= 0 < memory_records_size s) by (vm_compute; split; congruence).
  assert (Hb : memory s (memory_size_fence + 5) <> byte_e)
    by (vm_compute; discriminate).
  assert (H3 : ~ fences_whole (memory_records s 0) s).
  { intros Hw.
    assert (H07 : 0 <= 0 < memory_size_fence) by (vm_compute; split; congruence).
    destruct (Hw 0 H07) as [_ He].
    assert (Er : memory_records s 0 = mkRecord 5 0 false)
      by (vm_compute; reflexivity).
    rewrite Er in He. cbn [block size] in He.
    apply Hb. rewrite <- He. reflexivity. }
  destruct (overrun_raises_error s 0 H1 H0 H2 H3) as [R _].
  split; [exact H0|]. split; [exact Hb | exact R].
Defined.

(** X20. A byte of a freed block that no longer holds ['F'] when the test
    ends raises a memory error: on a record table whose counted slots are
    all written, [memory_final_checks] calls [_cspec_error_mem] with "memory
    modified after free" and [memory_error] is set; the checks make no
    indeterminate read.  (The code prints the message unless the test
    expects memory errors.) *)
Theorem use_after_free_raises_error (s : state) (i j : Z) :
  test_in_progress s = true ->
  table_written s = true ->
  0 <= i < memory_records_size s ->
  is_free (memory_records s i) = true ->
  0 <= j < size (memory_records s i) ->
  memory s (block (memory_records s i) + memory_size_fence + j) <> byte_F ->
  memory_error (memory_final_checks s) = true
  /\ In (MemError "after: memory modified after free")
        (error_log (memory_final_checks s))
  /\ indeterminate_read (memory_final_checks s) = indeterminate_read s.
Proof.
  intros Hin Htab Hi Hfree Hj Hbyte.
  apply and_assoc. split; [|apply final_checks_reads, Htab].
  apply (record_check_raised s i); [exact Hi|].
  intros sa Ra. destruct (raises_keeps _ _ Ra) as (_ & _ & Ka & Kr & Km).
  unfold check_record.
  rewrite (raised_read_slot s sa i Ra Htab Hi). cbv zeta.
  rewrite Kr, Hfree.
  set (r := memory_records s i) in *.
  set (s1 := if memory_check_fence r sa then sa else _).
  assert (R1 : raises sa s1) by (subst s1; auto with raises).
  destruct (raises_keeps _ _ R1) as (_ & _ & Ka1 & _ & Km1).
  unfold check_after_free.
  destruct (in_split j (upto (size r))) as (l1 & l2 & Hsplit);
    [apply In_upto, Hj|].
  rewrite Hsplit, fold_left_app. cbn [fold_left].
  set (f := fun (s : state) (j : Z) =>
              if memory s (block r + memory_size_fence + j) =? byte_F then s
              else _cspec_error_mem "after: memory modified after free" s).
  assert (Rf : forall l t, raises t (fold_left f l t)).
  { intros l. apply raises_fold. intros; subst f; cbv beta; auto with raises. }
  set (s2 := fold_left f l1 s1).
  destruct (raises_keeps _ _ (Rf l1 s1)) as (_ & _ & Ka2 & _ & Km2).
  fold s2 in Ka2, Km2.
  assert (Hne : (memory s2 (block r + memory_size_fence + j) =? byte_F) = false).
  { rewrite Km2, Km1, Km. apply Z.eqb_neq. exact Hbyte. }
  rewrite Hne.
  destruct (error_mem_raises "after: memory modified after free" s2)
    as (H1 & H2 & _); [congruence|].
  destruct (raises_keeps _ _ (Rf l2 (_cspec_error_mem
              "after: memory modified after free" s2))) as (K1 & K2 & _).
  auto.
Qed.

Lemma use_after_free_raises_error_witness :
  let s := store (memory_size_fence + 2) 33
             (cspec_free (Ptr memory_size_fence) (allocated 5 first_test)) in
  table_written s = true
  /\ memory_error (memory_final_checks s) = true.
Proof.
  intros s.
  assert (H0 : table_written s = true) by (vm_compute; reflexivity).
  split; [exact H0|].
  assert (H1 : test_in_progress s = true) by (vm_compute; reflexivity).
  assert (H2 : 0 <= 0 < memory_records_size s) by (vm_compute; split; congruence).
  assert (H3 : is_free (memory_records s 0) = true) by (vm_compute; reflexivity).
  assert (H4 : 0 <= 2 < size (memory_records s 0)) by (vm_compute; split; congruence).
  assert (H5 : memory s (block (memory_records s 0) + memory_size_fence + 2)
               <> byte_F).
  { vm_compute. discriminate. }
  destruct (use_after_free_raises_error s 0 2 H1 H0 H2 H3 H4 H5) as [R _].
  exact R.
Defined.

#[local] Transparent copy.

Lemma copy_step (k : nat) (m : Z -> Z) (a t : Z) :
  copy m a t (S k) = copy (upd m a (m t)) (a + 1) (t + 1) k.
Proof. reflexivity. Qed.

#[local] Opaque copy.

Lemma copy_forward (n : nat) : forall (m : Z -> Z) (a t i : Z),
  a <= t ->
  a <= i < a + Z.of_nat n ->
  copy m a t n i = m (t + (i - a)).
Proof.
  induction n as [|k IH]; intros m a t i Hat Hi; [cbn in Hi; lia|].
  rewrite copy_step. rewrite Nat2Z.inj_succ in Hi.
  destruct (Z.eq_dec i a) as [->|Hne].
  - rewrite copy_out by lia. unfold upd. rewrite Z.eqb_refl. f_equal. lia.
  - rewrite IH by lia. unfold upd.
    destruct (Z.eqb_spec (t + 1 + (i - (a + 1))) a); [lia|]. f_equal. lia.
Qed.

(** X21. [cspec_memset] writes its byte to the [n] bytes from the
    destination on and to no other; [cspec_memcpy], which copies upwards
    byte by byte, moves a block to a destination that does not lie inside
    it beyond its first byte: a lower address or a disjoint place. *)
Theorem memset_memcpy_spans (a t c : Z) (n : nat) (s : state) :
  (forall i, memory (cspec_memset a c n s) i
             = if (a <=? i) && (i <? a + Z.of_nat n) then c else memory s i)
  /\ (a <= t \/ t + Z.of_nat n <= a ->
      (forall j, 0 <= j < Z.of_nat n ->
         memory (cspec_memcpy a t n s) (a + j) = memory s (t + j))
      /\ (forall i, i < a \/ a + Z.of_nat n <= i ->
            memory (cspec_memcpy a t n s) i = memory s i)).
Proof.
  split.
  - intros i. rewrite cspec_memset_eq. fields. apply fill_spec.
  - intros Hat. rewrite cspec_memcpy_eq. fields. split.
    + intros j Hj. destruct Hat as [Hat | Hat].
      * rewrite copy_forward by lia. f_equal. lia.
      * rewrite copy_in by lia. f_equal. lia.
    + intros i Hi. apply copy_out. exact Hi.
Qed.

Lemma memset_memcpy_spans_witness :
  let s := cspec_memset 0 65 4 first_test in
  memory (cspec_memcpy 100 0 4 s) 103 = 65.
Proof.
  intros s.
  destruct (memset_memcpy_spans 100 0 0 4 s) as [_ H].
  destruct H as [H _]; [right; cbn; lia|].
  change 103 with (100 + 3). rewrite (H 3) by (cbn; lia).
  destruct (memset_memcpy_spans 0 0 65 4 first_test) as [H0 _].
  subst s. rewrite H0. reflexivity.
Defined.

(** X22. The search of [cspec_free] through the record table, with
    [memory_record_compare], finds a pointer exactly when it is the payload
    address of a record: a pointer to the inside of a block, or to a fence,
    is no result of [malloc]. *)
Theorem free_finds_payload_pointers (s : state) (p i : Z) :
  layout s ->
  (bsearch p (memory_records s) (memory_records_size s) = Some i
   <-> 0 <= i < memory_records_size s
       /\ block (memory_records s i) + memory_size_fence = p).
Proof.
  intros Hlay. split.
  - intros H. unfold bsearch in H.
    apply bsearch_loop_sound in H. exact H.
  - intros [Hi Hp]. apply bsearch_found; [|exact Hi|exact Hp].
    apply layout_ascending, Hlay.
Qed.

Lemma free_finds_payload_pointers_witness :
  let s := allocated 5 first_test in
  bsearch 7 (memory_records s) (memory_records_size s) = Some 0.
Proof.
  intros s.
  assert (H1 : layout s) by apply layout_first_malloc.
  apply (free_finds_payload_pointers s 7 0 H1).
  vm_compute. repeat split; congruence.
Defined.

(** X23. A store into one of the barriers around the arena raises a
    memory error when the test ends: on a record table whose counted slots
    are all written (the records are checked first), [memory_final_checks]
    calls [_cspec_error_mem] with "primary fence broken (large overrun)" and
    [memory_error] is set; the checks make no indeterminate read.  (The code
    prints the message unless the test expects memory errors.) *)
Theorem barrier_breach_raises_error (s : state) (i : Z) :
  test_in_progress s = true ->
  table_written s = true ->
  0 <= i < memory_size_barrier ->
  memory s (i - memory_size_barrier) <> byte_FF
  \/ memory s (i + memory_size_max) <> byte_FF ->
  memory_error (memory_final_checks s) = true
  /\ In (MemError "after: primary fence broken (large overrun)")
        (error_log (memory_final_checks s))
  /\ indeterminate_read (memory_final_checks s) = indeterminate_read s.
Proof.
  intros Hin Htab Hi Hbyte.
  apply and_assoc. split; [|apply final_checks_reads, Htab].
  unfold memory_final_checks, memory_checks.
  set (s0 := fold_left check_record (upto (memory_records_size s)) s).
  assert (R0 : raises s s0) by apply (raises_fold _ _ raises_check_record).
  destruct (raises_keeps _ _ R0) as (_ & _ & Ka0 & _ & Km0).
  unfold check_barriers.
  destruct (in_split i (upto memory_size_barrier)) as (l1 & l2 & Hsplit);
    [apply In_upto, Hi|].
  rewrite Hsplit, fold_left_app. cbn [fold_left].
  set (f := fun (s : state) (i : Z) =>
              if (memory s (i - memory_size_barrier) =? byte_FF)
                 && (memory s (i + memory_size_max) =? byte_FF)
              then s
              else _cspec_error_mem
                     "after: primary fence broken (large overrun)" s).
  assert (Rf : forall l t, raises t (fold_left f l t)).
  { intros l. apply raises_fold. intros; subst f; cbv beta; auto with raises. }
  set (s1 := fold_left f l1 s0).
  destruct (raises_keeps _ _ (Rf l1 s0)) as (_ & _ & Ka1 & _ & Km1).
  fold s1 in Ka1, Km1.
  assert (Hne : (memory s1 (i - memory_size_barrier) =? byte_FF)
                && (memory s1 (i + memory_size_max) =? byte_FF) = false).
  { rewrite Km1, Km0. apply andb_false_iff.
    destruct Hbyte as [H | H]; [left | right]; apply Z.eqb_neq; exact H. }
  rewrite Hne.
  destruct (error_mem_raises "after: primary fence broken (large overrun)" s1)
    as (H1 & H2 & _); [congruence|].
  set (s2 := fold_left f l2 _).
  assert (R2 : raises (_cspec_error_mem
                 "after: primary fence broken (large overrun)" s1) s2)
    by apply Rf.
  set (s3 := if memory_count_mallocs s2 =? memory_count_frees s2 then s2
             else _cspec_error_mem "after: mismatched malloc/free calls" s2).
  assert (R3 : raises s2 s3) by (subst s3; auto with raises).
  match goal with
  | |- context [memory_error ?t] => assert (R4 : raises s3 t) by auto with raises
  end.
  pose proof (raises_trans _ _ _ (raises_trans _ _ _ R2 R3) R4) as R.
  destruct (raises_keeps _ _ R) as (K1 & K2 & _). auto.
Qed.

Lemma barrier_breach_raises_error_witness :
  table_written (store 4100 0 first_test) = true
  /\ memory_error (memory_final_checks (store 4100 0 first_test)) = true.
Proof.
  assert (H0 : table_written (store 4100 0 first_test) = true)
    by (vm_compute; reflexivity).
  split; [exact H0|].
  assert (H1 : test_in_progress (store 4100 0 first_test) = true)
    by (vm_compute; reflexivity).
  assert (H2 : 0 <= 4 < memory_size_barrier) by (vm_compute; split; congruence).
  assert (H3 : memory (store 4100 0 first_test) (4 - memory_size_barrier)
               <> byte_FF
               \/ memory (store 4100 0 first_test) (4 + memory_size_max)
                  <> byte_FF).
  { right. vm_compute. discriminate. }
  destruct (barrier_breach_raises_error (store 4100 0 first_test) 4
              H1 H0 H2 H3)
    as [R _].
  exact R.
Defined.

(** ** An allocation refused on a broken fence *)

Lemma raises_marks (s t : state) :
  raises s t -> indeterminate_read s = true -> indeterminate_read t = true.
Proof. intros [f m u l _ _ Hu] H. unfold flagged. fields. exact (Hu H). Qed.

(** The final checks read every counted slot: one that was never written
    is an indeterminate read. *)
Lemma final_checks_mark (s : state) (i : Z) :
  0 <= i < memory_records_size s ->
  memory_records_written s i = false ->
  indeterminate_read (memory_final_checks s) = true.
Proof.
  intros Hi Hw.
  destruct (in_split i (upto (memory_records_size s)))
    as (l1 & l2 & Hsplit); [apply In_upto, Hi|].
  unfold memory_final_checks, memory_checks. rewrite Hsplit, fold_left_app.
  cbn [fold_left].
  set (sa := fold_left check_record l1 s).
  assert (Ra : raises s sa) by apply (raises_fold _ _ raises_check_record).
  assert (Hb : indeterminate_read (check_record sa i) = true).
  { unfold check_record. cbv zeta.
    assert (Hr : indeterminate_read (read_slot i sa) = true).
    { unfold read_slot. destruct (raises_table _ _ Ra) as [_ E].
      rewrite E, Hw. reflexivity. }
    revert Hr. generalize (read_slot i sa). intros t Hr.
    match goal with
    | |- indeterminate_read ?x = true => assert (R : raises t x)
    end.
    { set (r := memory_records t i).
      assert (H1 : raises t (if memory_check_fence r t then t
                             else _cspec_error_mem
                                    "after: detected buffer over/underrun" t))
        by auto with raises.
      eapply raises_trans; [exact H1|].
      apply raises_if; [|auto with raises].
      unfold check_after_free. apply raises_fold. intros; auto with raises. }
    exact (raises_marks _ _ R Hr). }
  set (sb := check_record sa i) in *.
  set (s1 := fold_left check_record l2 sb).
  assert (R1 : raises sb s1) by apply (raises_fold _ _ raises_check_record).
  set (s2 := check_barriers s1).
  assert (R2 : raises s1 s2).
  { subst s2. unfold check_barriers. apply raises_fold.
    intros; auto with raises. }
  set (s3 := if memory_count_mallocs s2 =? memory_count_frees s2 then s2
             else _cspec_error_mem "after: mismatched malloc/free calls" s2).
  assert (R3 : raises s2 s3) by (subst s3; auto with raises).
  match goal with
  | |- indeterminate_read ?t = true => assert (R4 : raises s3 t)
      by auto with raises
  end.
  pose proof (raises_trans _ _ _ (raises_trans _ _ _ (raises_trans _ _ _ R1 R2) R3) R4)
    as R.
  exact (raises_marks _ _ R Hb).
Qed.

Lemma end_marks (s : state) :
  test_in_progress s = true ->
  indeterminate_read (snd (_cspec_end s)) = indeterminate_read (end_checks s).
Proof.
  intros Hin. unfold _cspec_end. rewrite Hin. cbn [negb snd].
  generalize (end_checks s). intros d.
  unfold _cspec_error_fn, log.
  repeat match goal with
         | |- context [if ?b then _ else _] => destruct b; fields
         end; reflexivity.
Qed.

Lemma read_slot_sets (i : Z) (s : state) :
  read_slot i s
  = set_indeterminate_read
      (indeterminate_read s || negb (memory_records_written s i)) s.
Proof.
  unfold read_slot. destruct (memory_records_written s i); apply state_ext;
    fields; rewrite ?orb_false_r, ?orb_true_r; reflexivity.
Qed.

(** The trailing fence of the block before [memory_ptr] is broken. *)
Definition preceding_fence_broken (s : state) : Prop :=
  exists k, 0 <= k < memory_size_fence
            /\ memory s (memory_ptr s - memory_size_fence + k) <> byte_e.

Lemma preceding_fence_broken_spec (s : state) :
  memory_size_fence <= memory_ptr s < 2 ^ 64 ->
  preceding_fence_broken s -> preceding_fence_ok s = false.
Proof.
  intros Hp (k & Hk & Hb). unfold preceding_fence_ok. cbv zeta.
  rewrite wrap_small by (unfold memory_size_fence in *; lia).
  replace (memory_ptr s - (memory_ptr s - memory_size_fence))
    with memory_size_fence by lia.
  destruct (forallb _ _) eqn:E; [|reflexivity].
  rewrite forallb_forall in E. specialize (E k (proj2 (In_upto _ _) Hk)).
  apply Z.eqb_eq in E. contradiction.
Qed.

(** X32.  A [cspec_malloc] that finds the fence before [memory_ptr] broken
    raises "preceeding fence broken" and returns [NULL], but it has already
    counted the allocation and a slot of the record table, which it leaves
    as it was.  If that slot has never been written, the final checks of the
    test read it: [_cspec_end] dereferences an indeterminate
    [record->block]. *)
Theorem broken_fence_leaves_unwritten_slot (sz : Z) (s : state) :
  sandbox_inactive s = false ->
  test_in_progress s = true ->
  0 < sz ->
  fail_level (memory_malloc_fail s) < fail_level M_FAIL_ONCE ->
  memory_size_fence <= memory_ptr s ->
  memory_ptr s + memory_size_fence * 2 + sz
    < memory_size_max - memory_size_fence * 2 ->
  0 <= memory_records_size s ->
  memory_records_size s < memory_records_capacity s \/ host_result s <> NULL ->
  preceding_fence_broken s ->
  let r := cspec_malloc sz s in
  fst r = NULL
  /\ memory_error (snd r) = true
  /\ error_log (snd r)
     = error_log s ++ [MemError "malloc: preceeding fence broken"]
  /\ memory_count_mallocs (snd r) = memory_count_mallocs s + 1
  /\ memory_records_size (snd r) = memory_records_size s + 1
  /\ memory_records_written (snd r) = memory_records_written s
  /\ memory_records (snd r) = memory_records s
  /\ memory (snd r) = memory s
  /\ memory_ptr (snd r) = memory_ptr s
  /\ (memory_records_written s (memory_records_size s) = false ->
      table_written (snd r) = false
      /\ indeterminate_read (memory_final_checks (snd r)) = true
      /\ (test_failed s = false -> param_memory_test s = true ->
          indeterminate_read (snd (_cspec_end (snd r))) = true)).
Proof.
  intros Hact Hin Hsz Hlvl Hp Hfit Hsize Hcap Hbroken r.
  set (s1 := if memory_records_size s >=? memory_records_capacity s
             then set_memory_records_capacity
                    (memory_records_capacity s * 3 / 2)
                    (set_memory_count_mallocs (memory_count_mallocs s + 1) s)
             else set_memory_count_mallocs (memory_count_mallocs s + 1) s).
  assert (E : exists u,
             r = (NULL,
                  raise "malloc: preceeding fence broken"
                    (set_indeterminate_read u
                       (set_memory_records_size (memory_records_size s + 1)
                          s1)))).
  { subst r. unfold cspec_malloc. rewrite Hact.
    destruct (Z.eqb_spec sz 0); [lia|].
    destruct (Z.leb_spec (fail_level M_FAIL_ONCE)
                (fail_level (memory_malloc_fail s))); [lia|].
    rewrite wrap_small by (consts; lia).
    destruct (Z.geb_spec (memory_ptr s + memory_size_fence * 2 + sz)
                (memory_size_max - memory_size_fence * 2)); [lia|].
    cbv zeta.
    cbn [memory_records_size memory_records_capacity host_result
         set_memory_count_mallocs].
    assert (Hgrow : (memory_records_size s >=? memory_records_capacity s)
                    && pointer_eqb (host_result s) NULL = false).
    { destruct (Z.geb_spec (memory_records_size s) (memory_records_capacity s));
        [|reflexivity].
      destruct Hcap as [|Hh]; [lia|].
      destruct (host_result s); [congruence|reflexivity]. }
    rewrite Hgrow. fold s1.
    assert (F1 : memory_records_size s1 = memory_records_size s
                 /\ memory_ptr s1 = memory_ptr s /\ memory s1 = memory s
                 /\ test_in_progress s1 = true).
    { subst s1. destruct (_ >=? _); fields; auto. }
    destruct F1 as (F1 & F2 & F3 & F4). rewrite F1.
    assert (Hpf : negb (memory_ptr
                          (set_memory_records_size (memory_records_size s + 1) s1)
                        =? 0)
                  && negb (preceding_fence_ok
                             (set_memory_records_size
                                (memory_records_size s + 1) s1)) = true).
    { fields. rewrite F2.
      destruct (Z.eqb_spec (memory_ptr s) 0);
        [unfold memory_size_fence in *; lia|].
      cbn [negb andb].
      rewrite (preceding_fence_broken_spec
                 (set_memory_records_size (memory_records_size s + 1) s1));
        [reflexivity | |].
      - fields. rewrite F2. consts. lia.
      - destruct Hbroken as (k & Hk & Hb). exists k. fields.
        rewrite F2, F3. auto. }
    rewrite Hpf.
    match goal with
    | |- exists u, (NULL, _cspec_error_mem _ ?t) = _ =>
        assert (Hr : exists u,
                   t = set_indeterminate_read u
                         (set_memory_records_size (memory_records_size s + 1)
                            s1))
    end.
    { destruct (test_in_progress _ && negb (memory_expect_error _));
        [rewrite read_slot_sets|]; eexists; apply state_ext; fields;
        reflexivity. }
    destruct Hr as [u ->]. exists u. f_equal.
    apply error_mem_in_progress. fields. exact F4. }
  destruct E as [u E].
  assert (F : memory_records_size s1 = memory_records_size s
              /\ memory_count_mallocs s1 = memory_count_mallocs s + 1
              /\ memory_records_written s1 = memory_records_written s
              /\ memory_records s1 = memory_records s
              /\ memory s1 = memory s /\ memory_ptr s1 = memory_ptr s
              /\ error_log s1 = error_log s
              /\ test_in_progress s1 = true
              /\ test_failed s1 = test_failed s
              /\ param_memory_test s1 = param_memory_test s).
  { subst s1. destruct (_ >=? _); fields; auto 12. }
  destruct F as (F1 & F2 & F3 & F4 & F5 & F6 & F7 & F8 & F9 & F10).
  clearbody s1. rewrite E. cbn [fst snd]. unfold raise, log. fields.
  rewrite F2, F3, F4, F5, F6, F7.
  repeat (split; [reflexivity|]).
  intros Hw.
  set (s2 := set_memory_error true
               (set_error_log
                  (error_log s ++ [MemError "malloc: preceeding fence broken"])
                  (set_indeterminate_read u
                     (set_memory_records_size (memory_records_size s + 1)
                        s1)))).
  assert (G : memory_records_size s2 = memory_records_size s + 1
              /\ memory_records_written s2 = memory_records_written s
              /\ test_in_progress s2 = true
              /\ test_failed s2 = test_failed s
              /\ param_memory_test s2 = param_memory_test s).
  { subst s2. fields. auto. }
  destruct G as (G1 & G2 & G3 & G4 & G5). clearbody s2.
  assert (Hm : indeterminate_read (memory_final_checks s2) = true).
  { apply (final_checks_mark s2 (memory_records_size s)); [lia|].
    rewrite G2. exact Hw. }
  split; [|split; [exact Hm|]].
  - destruct (table_written s2) eqn:Et; [|reflexivity]. exfalso.
    pose proof (proj1 (table_written_spec s2) Et (memory_records_size s)
                  ltac:(lia)) as K.
    rewrite G2 in K. congruence.
  - intros Hf Hpm. rewrite (end_marks s2 G3). unfold end_checks.
    rewrite G4, G5, Hf, Hpm. exact Hm.
Qed.

(** A test that allocates four bytes, writes a fifth, and allocates
    again. *)
Lemma broken_fence_leaves_unwritten_slot_witness :
  let s := store 11 0 (allocated 4 first_test) in
  sandbox_inactive s = false
  /\ test_in_progress s = true
  /\ memory s (memory_ptr s - memory_size_fence) <> byte_e
  /\ fst (cspec_malloc 4 s) = NULL
  /\ indeterminate_read s = false
  /\ indeterminate_read (snd (_cspec_end (snd (cspec_malloc 4 s)))) = true.
Proof.
  intros s.
  assert (H1 : sandbox_inactive s = false) by (vm_compute; reflexivity).
  assert (H2 : test_in_progress s = true) by (vm_compute; reflexivity).
  assert (Hb : memory s (memory_ptr s - memory_size_fence) <> byte_e)
    by (vm_compute; discriminate).
  assert (H3 : preceding_fence_broken s).
  { exists 0. split; [unfold memory_size_fence; lia|].
    rewrite Z.add_0_r. exact Hb. }
  assert (H4 : (0 < 4)) by lia.
  assert (H5 : fail_level (memory_malloc_fail s) < fail_level M_FAIL_ONCE)
    by (vm_compute; reflexivity).
  assert (H6 : memory_size_fence <= memory_ptr s)
    by (vm_compute; discriminate).
  assert (H7 : memory_ptr s + memory_size_fence * 2 + 4
               < memory_size_max - memory_size_fence * 2)
    by (vm_compute; reflexivity).
  assert (H8 : 0 <= memory_records_size s) by (vm_compute; discriminate).
  assert (H9 : memory_records_size s < memory_records_capacity s
               \/ host_result s <> NULL)
    by (left; vm_compute; reflexivity).
  assert (H10 : memory_records_written s (memory_records_size s) = false)
    by (vm_compute; reflexivity).
  assert (H11 : test_failed s = false) by (vm_compute; reflexivity).
  assert (H12 : param_memory_test s = true) by (vm_compute; reflexivity).
  assert (H13 : indeterminate_read s = false) by (vm_compute; reflexivity).
  destruct (broken_fence_leaves_unwritten_slot 4 s H1 H2 H4 H5 H6 H7 H8 H9 H3)
    as (R1 & _ & _ & _ & _ & _ & _ & _ & _ & R2).
  destruct (R2 H10) as (_ & _ & R3).
  split; [exact H1|]. split; [exact H2|]. split; [exact Hb|].
  split; [exact R1|]. split; [exact H13|].
  exact (R3 H11 H12).
Defined.

(** ** The test engine *)

(** X12. While a test is in progress nothing in the group function moves
    the engine: no other test begins, no context is entered or left, the
    line cursor stays on the running test.  A pass runs one test at most. *)
Theorem running_test_freezes_engine (bs : items) (s : state) :
  keeps_all bs ->
  test_in_progress s = true ->
  test_in_progress (snd (run_items bs s)) = true
  /\ test_current_line (snd (run_items bs s)) = test_current_line s
  /\ ctx_stack_index (snd (run_items bs s)) = ctx_stack_index s
  /\ ctx_stack_top (snd (run_items bs s)) = ctx_stack_top s
  /\ ctx_stack (snd (run_items bs s)) = ctx_stack s.
Proof.
  intros Hk Hin. destruct (proj2 busy_run bs s Hk Hin) as [E1 E2 E3 E4 E5].
  rewrite E1. auto.
Qed.

Lemma running_test_freezes_engine_witness :
  let s := snd (_cspec_begin 12 (pass_start initial_state)) in
  test_in_progress s = true
  /\ test_current_line (snd (run_items sample_group s)) = 12.
Proof.
  intros s.
  assert (H1 : keeps_all sample_group) by (cbn; repeat split).
  assert (H2 : test_in_progress s = true) by (vm_compute; reflexivity).
  assert (H3 : test_current_line s = 12) by (vm_compute; reflexivity).
  destruct (running_test_freezes_engine sample_group s H1 H2) as (_ & R & _).
  split; [exact H2 | congruence].
Defined.

(** One warning after the other, as a test or a directive raises them. *)
Definition warnings (ws : list (Z * string)) (s : state) : state :=
  fold_left (fun s w => _cspec_warn_fn (fst w) (snd w) s) ws s.

Lemma warn_step (line : Z) (message : string) (s : state) :
  let t := _cspec_warn_fn line message s in
  (test_warned s = true ->
   test_warned t = true /\ test_warnings_count t = test_warnings_count s)
  /\ (test_warned s = false ->
      (test_warned t = false /\ test_warnings_count t = test_warnings_count s)
      \/ (test_warned t = true
          /\ test_warnings_count t = test_warnings_count s + 1)).
Proof.
  unfold _cspec_warn_fn, log.
  destruct (negb (test_current_line s =? 0) && (test_current_line s >? line)).
  - split; intros H; [|left]; auto.
  - cbv zeta. fields. destruct (test_warned s); fields; split; intros H;
      try discriminate; auto.
Qed.

(** X13. The warnings of a pass count as one: however many
    [_cspec_warn_fn] reports, [test_warnings_count] goes up by one at
    most, and not at all once [test_warned] is set. *)
Theorem warnings_count_once (ws : list (Z * string)) (s : state) :
  test_warnings_count s
    <= test_warnings_count (warnings ws s)
    <= test_warnings_count s + 1
  /\ (test_warned s = true ->
      test_warnings_count (warnings ws s) = test_warnings_count s)
  /\ (test_warnings_count (warnings ws s) = test_warnings_count s + 1 ->
      test_warned (warnings ws s) = true).
Proof.
  unfold warnings. revert s.
  induction ws as [|[l m] ws IH]; intros s; cbn [fold_left fst snd].
  - repeat split; try lia.
  - destruct (warn_step l m s) as [Hw Hn].
    destruct (IH (_cspec_warn_fn l m s)) as (I1 & I2 & I3).
    destruct (test_warned s) eqn:Hs.
    + destruct (Hw eq_refl) as [W1 W2]. rewrite I2 by exact W1.
      repeat split; try lia.
    + destruct (Hn eq_refl) as [[W1 W2] | [W1 W2]].
      * rewrite W2 in *. repeat split; try lia; try discriminate. exact I3.
      * rewrite (I2 W1) in *. rewrite W2. repeat split; try lia;
          try discriminate.
        intros _. revert W1. clear.
        generalize (_cspec_warn_fn l m s). induction ws as [|[l' m'] ws IH];
          intros t Ht; cbn [fold_left fst snd]; [exact Ht|].
        apply IH. destruct (warn_step l' m' t) as [Hw _].
        apply (Hw Ht).
Qed.

Lemma warnings_count_once_witness :
  test_warnings_count
    (warnings [(12, "first"%string); (13, "second"%string)] first_test)
  <= test_warnings_count first_test + 1.
Proof.
  destruct (warnings_count_once
              [(12, "first"%string); (13, "second"%string)] first_test)
    as ([_ H] & _).
  exact H.
Defined.

(** X14. The warning of the memory directives passes [0xFFFFFFFF] for the
    line, -1 as an [int]: once the line cursor has left 0 it lies below the
    cursor and [_cspec_warn_fn] drops it.  With memory testing disabled, a
    memory directive inside a test therefore reports nothing; it marks the
    rest of the pass as skipped, sets [test_expect_fail], and returns
    FALSE. *)
Theorem directive_warning_is_dropped (s : state) :
  param_memory_test s = false ->
  0 < test_current_line s ->
  let r := _cspec_memory_expect_to_fail s in
  fst r = negb (test_in_progress s)
  /\ snd r = set_test_skip true (set_test_expect_fail true s)
  /\ snd (_cspec_memory_malloc_null true s) = snd r
  /\ fst (_cspec_memory_malloc_count s) = -1
  /\ fst (_cspec_memory_free_count s) = -1.
Proof.
  intros Hp Hl r. subst r.
  unfold _cspec_memory_expect_to_fail, _cspec_memory_malloc_null,
    _cspec_memory_malloc_count, _cspec_memory_free_count,
    memory_directive_warning, _cspec_warn_fn.
  rewrite Hp. cbn [negb].
  destruct (Z.eqb_spec (test_current_line s) 0); [lia|].
  destruct (Z.gtb_spec (test_current_line s) (-1)); [|lia].
  cbn [negb andb fst snd]. fields. repeat split.
Qed.

Lemma directive_warning_is_dropped_witness :
  let s := snd (_cspec_begin 12
                  (pass_start (snd (process_param_basic 109 initial_state)))) in
  fst (_cspec_memory_expect_to_fail s) = negb (test_in_progress s)
  /\ fst (_cspec_memory_malloc_count s) = -1.
Proof.
  intros s.
  assert (H1 : param_memory_test s = false) by (vm_compute; reflexivity).
  assert (H2 : 0 < test_current_line s) by (vm_compute; reflexivity).
  destruct (directive_warning_is_dropped s H1 H2) as (R1 & _ & _ & R2 & _).
  split; [exact R1 | exact R2].
Defined.

(** X15. The switch [-f] takes [expect(to_fail)] out of force: the
    directive leaves the state as it is, and a test that fails after it is
    counted as failed. *)
Theorem force_fails_counts_failure (message : string) (s : state) :
  param_no_expect_fail s = true ->
  test_in_progress s = true ->
  test_expect_fail s = false ->
  let s1 := snd (_cspec_expect_to_fail s) in
  let s2 := _cspec_error_fn message s1 in
  s1 = s
  /\ test_failed s2 = true
  /\ test_count (snd (_cspec_end s2)) = test_count s + 1
  /\ test_passed_count (snd (_cspec_end s2)) = test_passed_count s.
Proof.
  intros Hf Hin He s1 s2. subst s1 s2.
  unfold _cspec_expect_to_fail. rewrite Hf. cbn [snd].
  split; [reflexivity|].
  assert (Hs2 : _cspec_error_fn message s
                = set_test_failed true (log (TestError message) s)).
  { unfold _cspec_error_fn. rewrite Hin. reflexivity. }
  rewrite Hs2. set (s2 := set_test_failed true (log (TestError message) s)).
  assert (H2 : test_in_progress s2 = true) by exact Hin.
  assert (H3 : test_failed s2 = true) by reflexivity.
  split; [exact H3|].
  destruct (end_passed_count s2 H2) as (_ & C1 & C2).
  rewrite C1, C2. rewrite (end_checks_skipped s2) by (left; exact H3).
  unfold end_passes. fields. rewrite H3.
  replace (test_expect_fail s2) with false by (symmetry; exact He).
  cbn [negb xorb andb]. split; [reflexivity | apply Z.add_0_r].
Qed.

Lemma force_fails_counts_failure_witness :
  let s := snd (_cspec_begin 12
                  (pass_start (snd (process_param_basic 102 initial_state)))) in
  test_passed_count
    (snd (_cspec_end
            (_cspec_error_fn "line 13: expected 1 == 2"
               (snd (_cspec_expect_to_fail s))))) = 0.
Proof.
  intros s.
  assert (H1 : param_no_expect_fail s = true) by (vm_compute; reflexivity).
  assert (H2 : test_in_progress s = true) by (vm_compute; reflexivity).
  assert (H3 : test_expect_fail s = false) by (vm_compute; reflexivity).
  assert (H4 : test_passed_count s = 0) by (vm_compute; reflexivity).
  destruct (force_fails_counts_failure "line 13: expected 1 == 2" s H1 H2 H3)
    as (_ & _ & _ & R).
  rewrite <- H4. exact R.
Defined.

(** No context of the group function passes the root's description. *)
Fixpoint off_root_item (b : item) : Prop :=
  match b with
  | Ctx _ d inner => d <> root_desc /\ off_root inner
  | _ => True
  end
with off_root (bs : items) : Prop :=
  match bs with
  | inil => True
  | icons b rest => off_root_item b /\ off_root rest
  end.

Lemma stack_ok_same (s t : state) :
  same_engine s t -> stack_ok s -> stack_ok t.
Proof.
  intros [_ _ E3 E4 E5]. unfold stack_ok. rewrite E3, E4, E5. auto.
Qed.

Lemma leave_is_context_leave (line d : Z) (s : state) :
  snd (match _cspec_context_begin line d s with
       | (false, s) => (false, s)
       | (true, s) => _cspec_context_end line s
       end) = context_leave line d s.
Proof.
  unfold context_leave. destruct (_cspec_context_begin line d s) as [[|] s1];
    reflexivity.
Qed.

Lemma run_keeps_stack_ok :
  (forall b s, keeps_item b -> off_root_item b -> stack_ok s ->
               stack_ok (snd (run_item b s)))
  /\ (forall bs s, keeps_all bs -> off_root bs -> stack_ok s ->
                   stack_ok (snd (run_items bs s))).
Proof.
  apply item_items_ind;
    cbn [run_item run_items keeps_item keeps_all off_root_item off_root].
  - intros f s Hk _ Hok. exact (stack_ok_same _ _ (Hk s) Hok).
  - intros line body s Hk _ Hok.
    pose proof (stack_ok_step s (BeginTest line) Hok I) as H1.
    cbn [engine_step] in H1.
    destruct (_cspec_begin line s) as [[|] s1]; cbn [snd] in *; [|exact H1].
    exact (stack_ok_same _ _ (Hk s1) H1).
  - intros line d inner IH s Hk [Hd Hoff] Hok.
    destruct (stack_ok_begin line d s Hok) as [H1 _].
    destruct (_cspec_context_begin line d s) as [[|] s1]; cbn [snd] in *;
      [|exact H1].
    specialize (IH s1 Hk Hoff H1).
    destruct (run_items inner s1) as [[|] s2]; cbn [snd] in *; [exact IH|].
    rewrite leave_is_context_leave.
    exact (stack_ok_step s2 (Leave line d) IH Hd).
  - intros s _ _ Hok. exact Hok.
  - intros b IHb rest IHr s [Hkb Hkr] [Hob Hor] Hok.
    specialize (IHb s Hkb Hob Hok).
    destruct (run_item b s) as [[|] s1]; cbn [snd] in *; [exact IHb|].
    apply IHr; assumption.
Qed.

(** X16. A pass over a group function keeps the context stack inside its
    array: whatever the blocks and their nesting, at the end of the pass
    [0 <= ctx_stack_index <= ctx_stack_top < cspec_ctx_stack_size_max] and
    the root frame is in its place. *)
Theorem pass_keeps_stack_in_bounds (bs : items) (s : state) :
  keeps_all bs -> off_root bs -> stack_ok s ->
  stack_ok (snd (run_items bs (pass_start s)))
  /\ stack_ok (snd (_cspec_end (snd (run_items bs (pass_start s))))).
Proof.
  intros Hk Hoff Hok.
  assert (H1 : stack_ok (pass_start s)).
  { destruct (pass_start_engine s) as (_ & _ & E3 & E4 & E5).
    destruct Hok as (Hi & Ht & Hr). unfold stack_ok.
    rewrite E3, E4, E5. repeat split; auto; lia. }
  pose proof (proj2 run_keeps_stack_ok bs _ Hk Hoff H1) as H2.
  split; [exact H2|].
  exact (stack_ok_step _ EndTest H2 I).
Qed.

Lemma pass_keeps_stack_in_bounds_witness :
  stack_ok (snd (run_items sample_group (pass_start initial_state))).
Proof.
  assert (H1 : keeps_all sample_group) by (cbn; repeat split).
  assert (H2 : off_root sample_group).
  { cbn. unfold root_desc. repeat split; lia. }
  assert (H3 : stack_ok initial_state).
  { unfold stack_ok, cspec_ctx_stack_size_max. cbn. repeat split; lia. }
  destruct (pass_keeps_stack_in_bounds sample_group initial_state H1 H2 H3)
    as [R _].
  exact R.
Defined.

(** X17. [_cspec_context_end] always leaves the cursor on the line after
    the [context] keyword.  When the only test of a context stands on that
    very line, the pass that leaves the context ends with the cursor where
    it began, and [process_function] takes this for its fixed point: the
    loop is left, whatever blocks follow the context in the group
    function. *)
Theorem context_before_its_only_test_ends_group (L dsc : Z)
    (body : state -> bool * state) (rest : items) (fuel : nat) (s : state) :
  test_in_progress s = false ->
  ctx_stack_top s = 1 ->
  desc (ctx_stack s 1) = dsc ->
  test_current_line s = L + 1 ->
  exists s',
    passes (S fuel) (icons (Ctx L dsc (icons (Test (L + 1) body) inil)) rest) s
    = Some s'
    /\ test_in_progress s' = false
    /\ test_current_line s' = L + 1
    /\ ctx_stack_top s' = 0.
Proof.
  intros Hidle Htop Hd Hcur. rewrite passes_step.
  destruct (pass_start_engine s) as (E1 & E2 & E3 & E4 & E5).
  destruct (before_pass_engine s) as (_ & -> & _).
  revert E1 E2 E3 E4 E5. generalize (pass_start s). intros s1 E1 E2 E3 E4 E5.
  cbn [run_items]. rewrite run_item_ctx.
  pose proof (context_begin_spec L dsc s1) as Hb.
  destruct (_cspec_context_begin L dsc s1) as [ret s2]. cbn [fst snd] in Hb.
  assert (Hrep : ctx_stack_index s1 < ctx_stack_top s1
                 /\ desc (ctx_stack s1 (ctx_stack_index s1 + 1)) = dsc).
  { rewrite E3, E4, E5. cbn. split; [lia | exact Hd]. }
  destruct Hb; try congruence; try contradiction.
  unfold ctx_tail. cbn [run_items run_item].
  set (s2 := set_ctx_stack_index (ctx_stack_index s1 + 1) s1).
  assert (V : test_in_progress s2 = false
              /\ test_current_line s2 = L + 1
              /\ ctx_stack_index s2 = 1
              /\ ctx_stack_top s2 = 1
              /\ ctx_stack s2 = ctx_stack s).
  { subst s2. fields. rewrite E3. repeat split; congruence. }
  clearbody s2. destruct V as (V1 & V2 & V3 & V4 & V5).
  destruct (begin_test_idle (L + 1) s2 V1) as [[_ ->] | [Hlt _]]; [|lia].
  destruct (leave_pop L dsc s2) as (s4 & -> & P1 & P2 & P3 & P4 & P5);
    [exact V1 | congruence | rewrite V3, V5; exact Hd |].
  fields. rewrite P1, P2, Hcur, Z.eqb_refl. cbn [negb andb].
  exists (set_test_in_function false s4). fields.
  repeat split; try assumption. lia.
Qed.

(** A context with one test on the next line, and a test after it. *)
Definition short_group : items :=
  icons (Ctx 10 2 (icons (Test 11 no_code) inil))
 (icons (Test 20 no_code) inil).

Lemma context_before_its_only_test_ends_group_witness :
  let s := pass_next short_group (before_fn initial_state) in
  test_count s = 1
  /\ exists s', passes 1 short_group s = Some s'
                /\ test_current_line s' = 11
                /\ ctx_stack_top s' = 0.
Proof.
  intros s.
  assert (H1 : test_in_progress s = false) by (vm_compute; reflexivity).
  assert (H2 : ctx_stack_top s = 1) by (vm_compute; reflexivity).
  assert (H3 : desc (ctx_stack s 1) = 2) by (vm_compute; reflexivity).
  assert (H4 : test_current_line s = 10 + 1) by (vm_compute; reflexivity).
  assert (H5 : test_count s = 1) by (vm_compute; reflexivity).
  split; [exact H5|].
  destruct (context_before_its_only_test_ends_group 10 2 no_code
              (icons (Test 20 no_code) inil) 0 s H1 H2 H3 H4)
    as (s' & R1 & _ & R2 & R3).
  exists s'. split; [exact R1|]. split; [exact R2 | exact R3].
Defined.

(** The whole run of that group: two passes, one test counted; the test at
    line 20 never begins. *)
Lemma short_group_runs_one_test :
  option_map test_count (process_function 2 short_group initial_state)
  = Some 1
  /\ option_map test_passed_count
       (process_function 2 short_group initial_state) = Some 1.
Proof. split; vm_compute; reflexivity. Qed.

(** ** The suite *)













(** ** The counters *)

#[local] Transparent memory_test_reset.

Lemma reset_counts (enable : bool) (s : state) :
  test_count (memory_test_reset enable s) = test_count s
  /\ test_passed_count (memory_test_reset enable s) = test_passed_count s.
Proof.
  unfold memory_test_reset. destruct enable; cbn [negb]; cbv zeta.
  - rewrite !cspec_memset_eq.
    destruct s. cbn -[Z.to_nat fill oob_span].
    repeat match goal with
           | |- context [if ?b then _ else _] => destruct b
           end; cbn -[Z.to_nat fill oob_span]; split; reflexivity.
  - split; reflexivity.
Qed.

#[local] Opaque memory_test_reset.

Lemma warn_counts (line : Z) (message : string) (s : state) :
  test_count (_cspec_warn_fn line message s) = test_count s
  /\ test_passed_count (_cspec_warn_fn line message s) = test_passed_count s.
Proof.
  unfold _cspec_warn_fn, log.
  repeat match goal with
         | |- context [if ?b then _ else _] => destruct b; fields
         end; split; reflexivity.
Qed.

Lemma context_begin_counts (line d : Z) (s : state) :
  test_count (snd (_cspec_context_begin line d s)) = test_count s
  /\ test_passed_count (snd (_cspec_context_begin line d s))
     = test_passed_count s.
Proof.
  unfold _cspec_context_begin.
  destruct (test_in_progress s); [split; reflexivity|].
  destruct (_ && _); [split; reflexivity|].
  destruct (_ =? d); [split; reflexivity|].
  destruct (_ >? line); [split; reflexivity|].
  cbv zeta.
  match goal with
  | |- context [if ?b then _ else _] => destruct b
  end.
  - cbn [snd].
    match goal with
    | |- context [_cspec_warn_fn line ?m2 (_cspec_warn_fn line ?m1 ?t)] =>
        destruct (warn_counts line m2 (_cspec_warn_fn line m1 t)) as [-> ->];
        destruct (warn_counts line m1 t) as [-> ->]
    end.
    destruct (line =? param_line s); split; reflexivity.
  - destruct (line =? param_line s); split; reflexivity.
Qed.

Lemma context_end_counts (line : Z) (s : state) :
  test_count (snd (_cspec_context_end line s)) = test_count s
  /\ test_passed_count (snd (_cspec_context_end line s)) = test_passed_count s.
Proof.
  unfold _cspec_context_end. destruct (test_in_progress s);
    [split; reflexivity|].
  cbv zeta. destruct (requested_context _); split; reflexivity.
Qed.

Lemma step_counts (s : state) (c : engine_call) :
  (test_count (engine_step s c) = test_count s
   /\ test_passed_count (engine_step s c) = test_passed_count s)
  \/ (test_count (engine_step s c) = test_count s + 1
      /\ (test_passed_count (engine_step s c) = test_passed_count s
          \/ test_passed_count (engine_step s c) = test_passed_count s + 1)).
Proof.
  destruct c as [line d | line d | line | | |]; cbn [engine_step].
  - left. apply context_begin_counts.
  - left. unfold context_leave.
    pose proof (context_begin_counts line d s) as Hb.
    destruct (_cspec_context_begin line d s) as [[|] s1]; cbn [snd] in *;
      [|exact Hb].
    destruct (context_end_counts line s1) as [-> ->]. exact Hb.
  - left. unfold _cspec_begin.
    repeat match goal with
           | |- context [if ?b then _ else _] => destruct b; fields
           end; split; reflexivity.
  - destruct (test_in_progress s) eqn:Hin.
    + right. destruct (end_passed_count s Hin) as (_ & C1 & C2).
      split; [exact C1|]. rewrite C2.
      destruct (end_passes _); [right | left]; lia.
    + left. unfold _cspec_end. rewrite Hin. split; reflexivity.
  - left. unfold before_pass. cbv zeta. fields.
    match goal with
    | |- context [memory_test_reset ?e ?t] =>
        destruct (reset_counts e t) as [-> ->]
    end.
    split; reflexivity.
  - left. split; reflexivity.
Qed.

(** X24. Whatever the engine is called with, a test that is counted has
    been counted once, as passed or not: [test_passed_count] never exceeds
    [test_count], neither goes down, and the number of failures, which
    [_cspec_run_all] returns, never goes down either. *)
Theorem passed_never_exceeds_count (s : state) (calls : list engine_call) :
  0 <= test_passed_count s <= test_count s ->
  let s' := fold_left engine_step calls s in
  0 <= test_passed_count s' <= test_count s'
  /\ test_passed_count s <= test_passed_count s'
  /\ test_count s - test_passed_count s
     <= test_count s' - test_passed_count s'.
Proof.
  revert s. induction calls as [|c calls IH]; intros s H; cbn [fold_left].
  - cbv zeta. lia.
  - assert (H1 : 0 <= test_passed_count (engine_step s c)
                   <= test_count (engine_step s c)
                 /\ test_passed_count s <= test_passed_count (engine_step s c)
                 /\ test_count s - test_passed_count s
                    <= test_count (engine_step s c)
                       - test_passed_count (engine_step s c)).
    { destruct (step_counts s c) as [[E1 E2] | [E1 [E2 | E2]]]; lia. }
    destruct H1 as (H1 & H2 & H3).
    specialize (IH (engine_step s c) H1). cbv zeta in *. lia.
Qed.

Lemma passed_never_exceeds_count_witness :
  let s' := fold_left engine_step
              [NewPass; Enter 10 100; BeginTest 11; EndTest; NewPass;
               Enter 10 100; Leave 10 100; NewGroup]
              initial_state in
  0 <= test_passed_count s' <= test_count s'.
Proof.
  assert (H : 0 <= test_passed_count initial_state <= test_count initial_state).
  { cbn. lia. }
  destruct (passed_never_exceeds_count initial_state
              [NewPass; Enter 10 100; BeginTest 11; EndTest; NewPass;
               Enter 10 100; Leave 10 100; NewGroup] H) as [R _].
  exact R.
Defined.

(** X25. [_cspec_end] closes a test once: called again, as
    [process_function] does after a pass in which no test began, it returns
    FALSE and leaves every counter and flag as it is. *)
Theorem end_closes_once (s : state) :
  _cspec_end (snd (_cspec_end s)) = (false, snd (_cspec_end s))
  /\ _cspec_active (snd (_cspec_end s)) = false.
Proof.
  destruct (end_engine s) as (H & _).
  split; [|exact H].
  unfold _cspec_end at 1. rewrite H. reflexivity.
Qed.

(** ** Groups without contexts *)



#[local] Transparent memory_test_reset.


#[local] Opaque memory_test_reset.










Lemma layout_apart (s : state) (j i : Z) :
  layout s ->
  0 <= j -> j < i -> i < memory_records_size s ->
  block (memory_records s j) + memory_size_fence * 2
  + size (memory_records s j) <= block (memory_records s i).
Proof.
  intros L Hj Hji Hi.
  assert (H : forall k : nat,
             j + 1 + Z.of_nat k < memory_records_size s ->
             block (memory_records s j) + memory_size_fence * 2
             + size (memory_records s j)
             <= block (memory_records s (j + 1 + Z.of_nat k))).
  { induction k as [|k IH]; intros Hk.
    - replace (j + 1 + Z.of_nat 0) with (j + 1) by lia.
      apply (layout_next s L j Hj). lia.
    - replace (j + 1 + Z.of_nat (S k)) with (j + 1 + Z.of_nat k + 1) by lia.
      pose proof (layout_next s L (j + 1 + Z.of_nat k) ltac:(lia) ltac:(lia)).
      pose proof (layout_rec s L (j + 1 + Z.of_nat k) ltac:(lia)).
      specialize (IH ltac:(lia)). unfold memory_size_fence in *. lia. }
  specialize (H (Z.to_nat (i - j - 1))).
  replace (j + 1 + Z.of_nat (Z.to_nat (i - j - 1))) with i in H by lia.
  apply H. lia.
Qed.

(** X27. Freeing a block leaves every fence in the arena as it is, its own
    included, and the payload of every other block: [cspec_free] writes its
    ['F'] to the payload of the freed block only. *)
Theorem free_leaves_the_rest (s : state) (i j : Z) :
  sandbox_inactive s = false ->
  test_in_progress s = true ->
  layout s ->
  0 <= i < memory_records_size s ->
  0 <= j < memory_records_size s ->
  let s' := cspec_free
              (Ptr (block (memory_records s i) + memory_size_fence)) s in
  memory_check_fence (memory_records s' j) s'
  = memory_check_fence (memory_records s j) s
  /\ size (memory_records s' j) = size (memory_records s j)
  /\ block (memory_records s' j) = block (memory_records s j)
  /\ (j <> i ->
      is_free (memory_records s' j) = is_free (memory_records s j)
      /\ forall k, 0 <= k < size (memory_records s j) ->
           memory s' (block (memory_records s j) + memory_size_fence + k)
           = memory s (block (memory_records s j) + memory_size_fence + k)).
Proof.
  intros Hact Hin L Hi Hj s'. subst s'.
  destruct (free_found_marked s i Hact L Hi) as [u ->].
  pose proof (freed_effect s i Hin L Hi) as H. cbv zeta in H.
  destruct H as (_ & _ & Hmem & Hrec & _).
  change (memory (freed i s))
    with (memory (set_indeterminate_read u (freed i s))) in Hmem.
  change (memory_records (freed i s))
    with (memory_records (set_indeterminate_read u (freed i s))) in Hrec.
  revert Hmem Hrec. generalize (set_indeterminate_read u (freed i s)).
  intros s' Hmem Hrec.
  pose proof (layout_rec s L i Hi) as (Si & Bi & _).
  pose proof (layout_rec s L j Hj) as (Sj & Bj & _).
  assert (Hsame : size (memory_records s' j) = size (memory_records s j)
                  /\ block (memory_records s' j) = block (memory_records s j)).
  { rewrite Hrec. unfold upd. destruct (Z.eqb_spec j i) as [->|];
      split; reflexivity. }
  destruct Hsame as [Hs Hb].
  assert (Hord : j = i
                 \/ block (memory_records s j) + memory_size_fence * 2
                    + size (memory_records s j) <= block (memory_records s i)
                 \/ block (memory_records s i) + memory_size_fence * 2
                    + size (memory_records s i) <= block (memory_records s j)).
  { destruct (Z.lt_trichotomy j i) as [Hlt | [Heq | Hgt]].
    - right. left. apply layout_apart; auto; lia.
    - left. exact Heq.
    - right. right. apply layout_apart; auto; lia. }
  split; [|split; [exact Hs|split; [exact Hb|]]].
  - apply eq_true_iff_eq. rewrite !check_fence_spec, Hs, Hb, Hmem.
    split; intros H k Hk; specialize (H k Hk);
      rewrite !fill_out in * by (destruct Hord as [-> | [Ho | Ho]];
                                 unfold memory_size_fence in *; lia);
      exact H.
  - intros Hne. split.
    + rewrite Hrec. unfold upd. destruct (Z.eqb_spec j i); [contradiction|].
      reflexivity.
    + intros k Hk. rewrite Hmem. apply fill_out.
      destruct Hord as [-> | [Ho | Ho]]; [contradiction| |];
        unfold memory_size_fence in *; lia.
Qed.

Lemma free_leaves_the_rest_witness :
  let s := allocated 5 first_test in
  memory_check_fence
    (memory_records (cspec_free (Ptr memory_size_fence) s) 0)
    (cspec_free (Ptr memory_size_fence) s)
  = memory_check_fence (memory_records s 0) s.
Proof.
  intros s.
  assert (H1 : sandbox_inactive s = false).
  { unfold s. rewrite (proj1 (allocated_in_test 5 first_test)).
    apply (fresh_active _ fresh_first_test). }
  assert (H2 : test_in_progress s = true).
  { unfold s. rewrite (proj2 (allocated_in_test 5 first_test)).
    apply (fresh_in_progress _ fresh_first_test). }
  assert (H3 : layout s) by apply layout_first_malloc.
  assert (H4 : 0 <= 0 < memory_records_size s).
  { unfold s, allocated. fields. rewrite (fresh_size _ fresh_first_test). lia. }
  assert (H5 : block (memory_records s 0) = 0).
  { unfold s, allocated, upd. fields.
    rewrite (fresh_size _ fresh_first_test), (fresh_ptr _ fresh_first_test).
    reflexivity. }
  destruct (free_leaves_the_rest s 0 0 H1 H2 H3 H4 H4) as [R _].
  rewrite H5 in R. exact R.
Defined.

(** ** The line filter *)













